(** * Ceph RBD storage driver helpers: a shallow embedding

    This development embeds the block-storage helper functions of the
    driver (name parsing, device mapping, unmapping with retry, the
    zombie-aware deletion walk, the creation of volumes and clones,
    the differential export and import, the local copy) and the
    AppArmor wrapper for rsync, and proves properties of their control
    flow.

    Go strings are byte sequences, so they are modelled by [string]
    (a list of 8-bit [ascii]).  Go maps are modelled by [gmap].  Every
    interaction with the outside world (the [rbd] tool, sysfs, the UUID
    generator) goes through an explicit world that also records the
    commands that were issued. *)

From Stdlib Require Import ZArith NArith Ascii String List Bool Lia DecimalString.
From stdpp Require Import base option gmap strings.
Import ListNotations.

Local Open Scope string_scope.
Local Open Scope Z_scope.

(** ** Go's [strings] package, on bytes *)

Fixpoint strings_HasPrefix (s prefix : string) {struct prefix} : bool :=
  match prefix with
  | EmptyString => true
  | String c p' =>
      match s with
      | EmptyString => false
      | String d s' => if Ascii.eqb c d then strings_HasPrefix s' p' else false
      end
  end.

Fixpoint str_drop (n : nat) (s : string) : string :=
  match n, s with
  | O, _ => s
  | S _, EmptyString => EmptyString
  | S n', String _ s' => str_drop n' s'
  end.

Fixpoint str_take (n : nat) (s : string) : string :=
  match n, s with
  | O, _ => EmptyString
  | S _, EmptyString => EmptyString
  | S n', String c s' => String c (str_take n' s')
  end.

Definition strings_TrimPrefix (s prefix : string) : string :=
  if strings_HasPrefix s prefix then str_drop (String.length prefix) s else s.

Definition strings_HasSuffix (s suffix : string) : bool :=
  (String.length suffix <=? String.length s)%nat
  && String.eqb (str_drop (String.length s - String.length suffix) s) suffix.

Definition strings_TrimSuffix (s suffix : string) : string :=
  if strings_HasSuffix s suffix
  then str_take (String.length s - String.length suffix) s
  else s.

(** [index_of s substr] is the byte offset of the first occurrence. *)
Fixpoint index_of (s substr : string) : option nat :=
  if strings_HasPrefix s substr then Some O
  else match s with
       | EmptyString => None
       | String _ s' => option_map S (index_of s' substr)
       end.

(** [strings.Index]: [-1] when [substr] does not occur. *)
Definition strings_Index (s substr : string) : Z :=
  match index_of s substr with
  | Some i => Z.of_nat i
  | None => -1
  end.

Definition strings_Contains (s substr : string) : bool :=
  0 <=? strings_Index s substr.

(** [genSplit] follows the library loop: find the next separator with
    [Index], cut, continue on the rest, at most [n] cuts.  The separator
    is never empty at the call sites of this driver.  [fuel] bounds the
    number of cuts by the length of the input. *)
Fixpoint genSplit (fuel : nat) (s sep : string) (n : nat) : list string :=
  match fuel, n with
  | S fuel', S n' =>
      match index_of s sep with
      | None => [s]
      | Some m =>
          str_take m s
          :: genSplit fuel' (str_drop (m + String.length sep) s) sep n'
      end
  | _, _ => [s]
  end.

(** [strings.Split(s, sep)]. *)
Definition strings_Split (s sep : string) : list string :=
  genSplit (S (String.length s)) s sep (S (String.length s)).

(** [strings.SplitN(s, sep, n)]: [n = 0] gives nil, [n < 0] all parts,
    [n > 0] at most [n] parts, the last one being the unsplit rest. *)
Definition strings_SplitN (s sep : string) (n : Z) : list string :=
  if n =? 0 then []
  else if n <? 0 then strings_Split s sep
  else genSplit (S (String.length s)) s sep (Z.to_nat (n - 1)).

(** White space as [unicode.IsSpace] sees it, given by the UTF-8
    encodings of the white-space runes.  None of them starts with a
    continuation byte, so matching them on bytes agrees with the
    rune-wise scan of the library. *)
Definition bytes (l : list nat) : string :=
  string_of_list_ascii (map ascii_of_nat l).

Definition space_encodings : list string :=
  map bytes
    [ [9]; [10]; [11]; [12]; [13]; [32];
      [194; 133]; [194; 160];
      [225; 154; 128];
      [226; 128; 128]; [226; 128; 129]; [226; 128; 130]; [226; 128; 131];
      [226; 128; 132]; [226; 128; 133]; [226; 128; 134]; [226; 128; 135];
      [226; 128; 136]; [226; 128; 137]; [226; 128; 138];
      [226; 128; 168]; [226; 128; 169]; [226; 128; 175];
      [226; 129; 159];
      [227; 128; 128] ]%nat.

(** Length of the white-space rune [s] starts with, [0] if none. *)
Definition leading_space (s : string) : nat :=
  match List.filter (fun e => strings_HasPrefix s e) space_encodings with
  | e :: _ => String.length e
  | [] => O
  end.

Definition trailing_space (s : string) : nat :=
  match List.filter (fun e => strings_HasSuffix s e) space_encodings with
  | e :: _ => String.length e
  | [] => O
  end.

Fixpoint trim_left (fuel : nat) (s : string) : string :=
  match fuel with
  | O => s
  | S fuel' =>
      match leading_space s with
      | O => s
      | S k => trim_left fuel' (str_drop (S k) s)
      end
  end.

Fixpoint trim_right (fuel : nat) (s : string) : string :=
  match fuel with
  | O => s
  | S fuel' =>
      match trailing_space s with
      | O => s
      | S k => trim_right fuel' (str_take (String.length s - S k) s)
      end
  end.

(** [strings.TrimSpace]. *)
Definition strings_TrimSpace (s : string) : string :=
  trim_right (String.length s) (trim_left (String.length s) s).

(** [strings.Fields]: the maximal runs of non-space bytes.  [skip]
    counts the remaining bytes of a white-space rune being skipped and
    [cur] is the field being collected. *)
Fixpoint fields_aux (s : string) (skip : nat) (cur : string) : list string :=
  match s with
  | EmptyString => if String.eqb cur "" then [] else [cur]
  | String c s' =>
      match skip with
      | S k => fields_aux s' k cur
      | O =>
          match leading_space s with
          | O => fields_aux s' O (cur ++ String c "")
          | S k =>
              if String.eqb cur "" then fields_aux s' k ""
              else cur :: fields_aux s' k ""
          end
      end
  end.

Definition strings_Fields (s : string) : list string := fields_aux s O "".

(** The bytes of [q] are all different from [c]. *)
Definition free_of (c : ascii) (q : string) : bool :=
  forallb (fun x => negb (Ascii.eqb x c)) (list_ascii_of_string q).

(** The double quote and the line feed, as one-byte strings. *)
Definition dquote : string := String (ascii_of_nat 34) "".
Definition newline : string := String (ascii_of_nat 10) "".

(** ** Errors

    Go error values, by the ways this file builds and inspects them. *)
Inductive error : Type :=
  (** [subprocess.RunError]; [exit] is the exit code when it wraps an
      [*exec.ExitError]. *)
  | RunError (exit : option Z) (stderr : string)
  (** [*exec.ExitError] returned by [cmd.Wait]. *)
  | ExitError (code : Z)
  (** [api.StatusErrorf(status, msg)]. *)
  | StatusError (status : Z) (msg : string)
  (** [fmt.Errorf(format, args...)], kept unrendered. *)
  | Errorf (format : string) (args : list fmt_arg)
  (** An [os] error; [notExist] is [errors.Is(err, fs.ErrNotExist)]. *)
  | PathError (notExist : bool) (path : string)
  (** Any other error (I/O on a connection, pipe creation, decoding). *)
  | OtherError (msg : string)
with fmt_arg : Type :=
  | ArgString (s : string)
  | ArgErrors (errs : list error).

(** Exit code found by the nested [errors.As] tests: the error must be
    a [RunError] whose cause is an [*exec.ExitError]. *)
Definition exit_code (err : error) : option Z :=
  match err with
  | RunError (Some code) _ => Some code
  | _ => None
  end.

Definition http_StatusNotFound : Z := 404.

Definition is_ErrNotExist (err : error) : bool :=
  match err with
  | PathError b _ => b
  | _ => false
  end.

(** ** Volumes *)

Definition VolumeType := string.
Definition ContentType := string.

(** The fields of [Volume] that the driver helpers read or write. *)
Record Volume : Type := mkVolume {
  vol_name : string;
  vol_pool : string;
  vol_poolConfig : gmap string string;
  vol_volType : VolumeType;
  vol_contentType : ContentType;
  vol_config : gmap string string;
  vol_isDeleted : bool;
}.

(** [Volume{}] *)
Definition Volume_zero : Volume :=
  {| vol_name := ""; vol_pool := ""; vol_poolConfig := ∅;
     vol_volType := ""; vol_contentType := ""; vol_config := ∅;
     vol_isDeleted := false |}.

Definition set_pool (v : Volume) (p : string) : Volume :=
  {| vol_name := vol_name v; vol_pool := p; vol_poolConfig := vol_poolConfig v;
     vol_volType := vol_volType v; vol_contentType := vol_contentType v;
     vol_config := vol_config v; vol_isDeleted := vol_isDeleted v |}.

Definition set_isDeleted (v : Volume) (b : bool) : Volume :=
  {| vol_name := vol_name v; vol_pool := vol_pool v; vol_poolConfig := vol_poolConfig v;
     vol_volType := vol_volType v; vol_contentType := vol_contentType v;
     vol_config := vol_config v; vol_isDeleted := b |}.

Definition set_volType (v : Volume) (t : VolumeType) : Volume :=
  {| vol_name := vol_name v; vol_pool := vol_pool v; vol_poolConfig := vol_poolConfig v;
     vol_volType := t; vol_contentType := vol_contentType v;
     vol_config := vol_config v; vol_isDeleted := vol_isDeleted v |}.

Definition set_contentType (v : Volume) (t : ContentType) : Volume :=
  {| vol_name := vol_name v; vol_pool := vol_pool v; vol_poolConfig := vol_poolConfig v;
     vol_volType := vol_volType v; vol_contentType := t;
     vol_config := vol_config v; vol_isDeleted := vol_isDeleted v |}.

Definition set_config (v : Volume) (c : gmap string string) : Volume :=
  {| vol_name := vol_name v; vol_pool := vol_pool v; vol_poolConfig := vol_poolConfig v;
     vol_volType := vol_volType v; vol_contentType := vol_contentType v;
     vol_config := c; vol_isDeleted := vol_isDeleted v |}.

Definition set_name (v : Volume) (n : string) : Volume :=
  {| vol_name := n; vol_pool := vol_pool v; vol_poolConfig := vol_poolConfig v;
     vol_volType := vol_volType v; vol_contentType := vol_contentType v;
     vol_config := vol_config v; vol_isDeleted := vol_isDeleted v |}.

(** ** Declarations from other files *)

(** A JSON value as [any]: only strings are told apart. *)
Inductive json_any : Type :=
  | JString (s : string)
  | JOther.

(** Declarations the driver uses that live in other files: the
    constants for the volume types and content types, the image name
    encoder, two [Volume] methods and the JSON decoder (into
    [[]map[string]any]). *)
Class Externals : Type := {
  VolumeTypeContainer : VolumeType;
  VolumeTypeVM : VolumeType;
  VolumeTypeImage : VolumeType;
  VolumeTypeCustom : VolumeType;
  ContentTypeFS : ContentType;
  ContentTypeBlock : ContentType;
  ContentTypeISO : ContentType;
  CephGetRBDImageName : Volume -> string -> bool -> string;
  Volume_IsSnapshot : Volume -> bool;
  Volume_Name : Volume -> string;
  json_Unmarshal : string -> list (gmap string json_any) * option error;
}.

(** ** Name decoding *)

(** Outcome of a Go function that may also panic (index out of range). *)
Inductive outcome (A : Type) : Type :=
  | Returns (a : A)
  | Panics.
Arguments Returns {A} a.
Arguments Panics {A}.

Section Names.
Context {externals : Externals}.

(** The snapshot split shared by the four branches of [parseParent]:
    [s := strings.Split(parentName, "@")], then the last part is the
    snapshot name when there is more than one part. *)
Definition split_snapshot (parentName : string) : string * string :=
  let s := strings_Split parentName "@" in
  if (1 <? Z.of_nat (length s)) then
    let snapName := List.last s "" in
    (strings_TrimSuffix parentName ("@" ++ snapName), snapName)
  else (parentName, "").

(** [strings.SplitN(name, prefix, 2)[1]] *)
Definition after_prefix (name prefix : string) : outcome string :=
  match strings_SplitN name prefix 2 with
  | [_; rest] => Returns rest
  | _ => Panics
  end.

Definition parseParent (parent : string)
  : outcome (Volume * string * option error) :=
  let vol := Volume_zero in
  let fields := strings_SplitN parent "/" 2 in
  match fields with
  | [pool; parentName] =>
      let vol := set_pool vol pool in
      let vol := set_isDeleted vol (strings_HasPrefix parentName "zombie_") in
      (* Handle images. *)
      if strings_HasPrefix parentName "image_"
         || strings_HasPrefix parentName "zombie_image_" then
        let vol := set_volType vol VolumeTypeImage in
        let '(name, snapName) := split_snapshot parentName in
        match after_prefix name "image_" with
        | Panics => Panics
        | Returns name =>
            let '(name, vol) :=
              if strings_HasSuffix name ".block"
              then (strings_TrimSuffix name ".block",
                    set_contentType vol ContentTypeBlock)
              else (name, set_contentType vol ContentTypeFS) in
            let '(name, vol) :=
              if strings_Contains name "_" then
                let filesystem := List.last (strings_Split name "_") "" in
                (strings_TrimSuffix name ("_" ++ filesystem),
                 set_config vol {[ "block.filesystem" := filesystem ]})
              else (name, vol) in
            Returns (set_name vol name, snapName, None)
        end
      (* Handle custom volumes. *)
      else if strings_HasPrefix parentName "custom_"
              || strings_HasPrefix parentName "zombie_custom_" then
        let vol := set_volType vol VolumeTypeCustom in
        let '(name, snapName) := split_snapshot parentName in
        match after_prefix name "custom_" with
        | Panics => Panics
        | Returns name =>
            let '(name, vol) :=
              if strings_HasSuffix name ".block"
              then (strings_TrimSuffix name ".block",
                    set_contentType vol ContentTypeBlock)
              else if strings_HasSuffix name ".iso"
              then (strings_TrimSuffix name ".iso",
                    set_contentType vol ContentTypeISO)
              else (name, set_contentType vol ContentTypeFS) in
            Returns (set_name vol name, snapName, None)
        end
      (* Handle container volumes. *)
      else if strings_HasPrefix parentName "container_"
              || strings_HasPrefix parentName "zombie_container_" then
        let vol := set_volType vol VolumeTypeContainer in
        let '(name, snapName) := split_snapshot parentName in
        match after_prefix name "container_" with
        | Panics => Panics
        | Returns name =>
            let '(name, vol) :=
              if strings_HasSuffix name ".block"
              then (strings_TrimSuffix name ".block",
                    set_contentType vol ContentTypeBlock)
              else (name, set_contentType vol ContentTypeFS) in
            Returns (set_name vol name, snapName, None)
        end
      (* Handle virtual-machines volumes. *)
      else if strings_HasPrefix parentName "virtual-machine_"
              || strings_HasPrefix parentName "zombie_virtual-machine_" then
        let vol := set_volType vol VolumeTypeVM in
        let '(name, snapName) := split_snapshot parentName in
        match after_prefix name "virtual-machine_" with
        | Panics => Panics
        | Returns name =>
            let '(name, vol) :=
              if strings_HasSuffix name ".block"
              then (strings_TrimSuffix name ".block",
                    set_contentType vol ContentTypeBlock)
              else (name, set_contentType vol ContentTypeFS) in
            Returns (set_name vol name, snapName, None)
        end
      else
        Returns (vol, "",
                 Some (Errorf "Unrecognized parent: %q" [ArgString parent]))
  | _ => Returns (vol, "", Some (Errorf "Pool delimiter not found" []))
  end.

(** [parseClone] returns pool, type, name, the zombie flag and an error. *)
Definition parseClone (clone : string)
  : string * string * string * bool * option error :=
  let fields := strings_SplitN clone "/" 2 in
  match fields with
  | [poolName; volumeName] =>
      let volumeDeleted := strings_HasPrefix volumeName "zombie_" in
      (* Strip zombie prefix. *)
      let volumeName := strings_TrimPrefix volumeName "zombie_" in
      let f := strings_SplitN volumeName "_" 2 in
      match f with
      | [volumeType; volumeName] =>
          (poolName, volumeType, volumeName, volumeDeleted, None)
      | _ => ("", "", "", false, Some (Errorf "Unexpected parsing error" []))
      end
  | _ => ("", "", "", false, Some (Errorf "Pool delimiter not found" []))
  end.

End Names.

(** The type words that [parseParent] looks for; a backend name carries
    one of them followed by an underscore. *)
Definition type_prefixes : list string :=
  ["container"; "virtual-machine"; "image"; "custom"].

Definition matches_type_prefix (name : string) : bool :=
  existsb (fun t => strings_HasPrefix name (t ++ "_")) type_prefixes.

(** The two errors of the decoders. *)
Definition malformed_name : option error :=
  Some (Errorf "Pool delimiter not found" []).

Definition unrecognized_type (parent : string) : option error :=
  Some (Errorf "Unrecognized parent: %q" [ArgString parent]).

(** ** The outside world *)

(** A directory entry as [os.ReadDir] returns it. *)
Record DirEntry : Type := mkDirEntry {
  de_Name : string;
  de_IsDir : bool;
}.

(** What the driver does to the outside, in order. *)
Inductive event : Type :=
  | EvRun (name : string) (args : list string)
  | EvSleep (seconds : Z).

(** The external collaborators: the command runner
    ([subprocess.RunCommand]), the UUID generator and the sysfs reads.
    [B] is the state of everything outside the driver. *)
Class Backend (B : Type) : Type := {
  run_command : string -> list string -> B -> (string * option error) * B;
  uuid_New : B -> string * B;
  os_ReadDir : string -> B -> list DirEntry * option error;
  os_ReadFile : string -> B -> string * option error;
}.

Record World (B : Type) : Type := mkWorld {
  backend : B;
  log : list event;
}.
Arguments mkWorld {B} backend log.
Arguments backend {B} w.
Arguments log {B} w.

(** Modelled from the spec: [NewVolume] is declared in another file; a
    volume is rebuilt from the caller's parameters (section 3) and is
    not a zombie until marked. *)
Definition NewVolume (poolName : string) (volType : VolumeType)
    (contentType : ContentType) (volName : string)
    (volConfig poolConfig : gmap string string) : Volume :=
  {| vol_name := volName; vol_pool := poolName; vol_poolConfig := poolConfig;
     vol_volType := volType; vol_contentType := contentType;
     vol_config := volConfig; vol_isDeleted := false |}.

(** Modelled from the spec: [response.IsNotFoundError] is declared in
    another file; section 7 keeps the not-found condition apart from
    every other backend failure.  The not-found errors of this file are
    built with [api.StatusErrorf(http.StatusNotFound, ...)]. *)
Definition IsNotFoundError (err : error) : bool :=
  match err with
  | StatusError status _ => status =? http_StatusNotFound
  | _ => false
  end.

(** The driver object: its pool name and configuration. *)
Record ceph : Type := mkCeph {
  d_name : string;
  d_config : gmap string string;
}.

(** Reading a Go map: a missing key reads as the empty string. *)
Definition cfg (d : ceph) (key : string) : string :=
  default "" (d_config d !! key).

(** ** Runs: state passing with divergence and panics *)

Inductive run (A W : Type) : Type :=
  | Done (a : A) (w : W)
  | OutOfFuel
  | Panicked.
Arguments Done {A W} a w.
Arguments OutOfFuel {A W}.
Arguments Panicked {A W}.

Definition M (B A : Type) : Type := World B -> run A (World B).

Definition ret {B A : Type} (a : A) : M B A := fun w => Done a w.

Definition bind {B A C : Type} (m : M B A) (k : A -> M B C) : M B C :=
  fun w =>
    match m w with
    | Done a w' => k a w'
    | OutOfFuel => OutOfFuel
    | Panicked => Panicked
    end.

Definition out_of_fuel {B A : Type} : M B A := fun _ => OutOfFuel.
Definition panic {B A : Type} : M B A := fun _ => Panicked.

Notation "'let*' x ':=' c1 'in' c2" := (bind c1 (fun x => c2))
  (at level 10, x pattern, c1 at level 100, c2 at level 200).

(** A [for ... range] loop whose body may return from the function. *)
Inductive loop_result (R S : Type) : Type :=
  | Return (r : R)
  | Continue (s : S).
Arguments Return {R S} r.
Arguments Continue {R S} s.

Fixpoint for_range {B X S R : Type} (xs : list X)
    (body : X -> S -> M B (loop_result R S)) (s : S)
  : M B (loop_result R S) :=
  match xs with
  | [] => ret (Continue s)
  | x :: xs' =>
      let* r := body x s in
      match r with
      | Return r => ret (Return r)
      | Continue s' => for_range xs' body s'
      end
  end.

Section Driver.
Context {B : Type} {backend_ops : Backend B} {externals : Externals}.
Variable d : ceph.

(** [subprocess.RunCommand]: the command is recorded and the backend
    answers with its output and error. *)
Definition RunCommand (name : string) (args : list string)
  : M B (string * option error) :=
  fun w =>
    let '(r, b') := run_command name args (backend w) in
    Done r (mkWorld b' (log w ++ [EvRun name args])).

Definition Sleep (seconds : Z) : M B unit :=
  fun w => Done tt (mkWorld (backend w) (log w ++ [EvSleep seconds])).

Definition NewUUID : M B string :=
  fun w =>
    let '(u, b') := uuid_New (backend w) in
    Done u (mkWorld b' (log w)).

Definition ReadDir (path : string) : M B (list DirEntry * option error) :=
  fun w => Done (os_ReadDir path (backend w)) w.

Definition ReadFile (path : string) : M B (string * option error) :=
  fun w => Done (os_ReadFile path (backend w)) w.

Definition getRBDVolumeName (vol : Volume) (snapName : string)
    (withPoolName : bool) : string :=
  let out := CephGetRBDImageName vol snapName (vol_isDeleted vol) in
  if withPoolName then cfg d "ceph.osd.pool_name" ++ "/" ++ out else out.

(** The leading arguments of an [rbd] call on the pool. *)
Definition rbd_pool_args : list string :=
  ["--id"; cfg d "ceph.user.name";
   "--cluster"; cfg d "ceph.cluster_name";
   "--pool"; cfg d "ceph.osd.pool_name"].

Definition rbd_cluster_args : list string :=
  ["--id"; cfg d "ceph.user.name";
   "--cluster"; cfg d "ceph.cluster_name"].

Definition rbdDeleteVolume (vol : Volume) : M B (option error) :=
  let* (_, err) := RunCommand "rbd"
                 (rbd_pool_args ++ ["rm"; getRBDVolumeName vol "" false]) in
  ret err.

Definition rbdMapVolume (vol : Volume) : M B (string * option error) :=
  let rbdName := getRBDVolumeName vol "" false in
  let* (devPath, err) := RunCommand "rbd" (rbd_pool_args ++ ["map"; rbdName]) in
  match err with
  | Some e => ret ("", Some e)
  | None =>
      let idx := strings_Index devPath "/dev/rbd" in
      if idx <? 0
      then ret ("", Some (Errorf "Failed to detect mapped device path" []))
      else ret (strings_TrimSpace (str_drop (Z.to_nat idx) devPath), None)
  end.

Definition unmap_args (rbdVol : string) : list string :=
  rbd_pool_args ++ ["unmap"; rbdVol].

(** The body of [rbdUnmapVolume] from the label [again] on; the two
    backward jumps are the two recursive calls.  [busyCount] never
    exceeds ten, so the machine integer is a plain [Z]. *)
Fixpoint rbdUnmapVolume_again (fuel : nat) (rbdVol : string)
    (unmapUntilEINVAL : bool) (busyCount : Z) (ourDeactivate : bool)
  : M B (option error) :=
  match fuel with
  | O => out_of_fuel
  | S fuel' =>
      let* (_, err) := RunCommand "rbd" (unmap_args rbdVol) in
      match err with
      | Some e =>
          match exit_code e with
          | Some code =>
              if code =? 22 then
                (* EINVAL (already unmapped). *)
                ret None
              else if code =? 16 then
                (* EBUSY (currently in use). *)
                let busyCount := busyCount + 1 in
                if busyCount =? 10 then ret (Some e)
                else
                  (* Wait a second an try again. *)
                  let* _ := Sleep 1 in
                  rbdUnmapVolume_again fuel' rbdVol unmapUntilEINVAL
                    busyCount ourDeactivate
              else ret (Some e)
          | None => ret (Some e)
          end
      | None =>
          if unmapUntilEINVAL then
            rbdUnmapVolume_again fuel' rbdVol unmapUntilEINVAL busyCount true
          else ret None
      end
  end.

Definition rbdUnmapVolume (fuel : nat) (vol : Volume)
    (unmapUntilEINVAL : bool) : M B (option error) :=
  let busyCount := 0 in
  let rbdVol := getRBDVolumeName vol "" false in
  let ourDeactivate := false in
  rbdUnmapVolume_again fuel rbdVol unmapUntilEINVAL busyCount ourDeactivate.

Fixpoint rbdUnmapVolumeSnapshot (fuel : nat) (vol : Volume)
    (snapshotName : string) (unmapUntilEINVAL : bool)
  : M B (option error) :=
  match fuel with
  | O => out_of_fuel
  | S fuel' =>
      let* (_, err) := RunCommand "rbd"
                     (unmap_args (getRBDVolumeName vol snapshotName false)) in
      match err with
      | Some e =>
          match exit_code e with
          | Some code => if code =? 22 then ret None else ret (Some e)
          | None => ret (Some e)
          end
      | None =>
          if unmapUntilEINVAL
          then rbdUnmapVolumeSnapshot fuel' vol snapshotName unmapUntilEINVAL
          else ret None
      end
  end.

Definition rbdUnprotectVolumeSnapshot (vol : Volume) (snapshotName : string)
  : M B (option error) :=
  let* (_, err) := RunCommand "rbd"
                 (rbd_pool_args
                  ++ ["snap"; "unprotect"; "--snap"; snapshotName;
                      getRBDVolumeName vol "" false]) in
  match err with
  | Some e =>
      match exit_code e with
      | Some code => if code =? 22 then ret None else ret (Some e)
      | None => ret (Some e)
      end
  | None => ret None
  end.

Definition clones_not_found : error :=
  StatusError http_StatusNotFound "Ceph RBD volume snapshot not found".

Definition rbdListSnapshotClones (vol : Volume) (snapshotName : string)
  : M B (list string * option error) :=
  let* (msg, err) := RunCommand "rbd"
                   (rbd_pool_args
                    ++ ["children"; "--image"; getRBDVolumeName vol "" false;
                        "--snap"; snapshotName]) in
  match err with
  | Some e => ret ([], Some e)
  | None =>
      let msg := strings_TrimSpace msg in
      let clones := strings_Fields msg in
      if Z.of_nat (length clones) =? 0
      then ret ([], Some clones_not_found)
      else ret (clones, None)
  end.

Definition rbdMarkVolumeDeleted (vol : Volume) (newVolumeName : string)
  : M B (option error) :=
  let newVol := NewVolume (d_name d) (vol_volType vol) (vol_contentType vol)
                  newVolumeName (vol_config vol) (vol_poolConfig vol) in
  let newVol := set_isDeleted newVol true in
  let deletedName := getRBDVolumeName newVol "" true in
  let* (_, err) := RunCommand "rbd"
                 (rbd_cluster_args
                  ++ ["mv"; getRBDVolumeName vol "" true; deletedName]) in
  ret err.

Definition rbdRenameVolumeSnapshot (vol : Volume)
    (oldSnapshotName newSnapshotName : string) : M B (option error) :=
  let* (_, err) := RunCommand "rbd"
                 (rbd_cluster_args
                  ++ ["snap"; "rename";
                      getRBDVolumeName vol oldSnapshotName true;
                      getRBDVolumeName vol newSnapshotName true]) in
  ret err.

Definition parent_not_found : error :=
  StatusError http_StatusNotFound "Ceph RBD volume parent not found".

Definition rbdGetVolumeParent (vol : Volume) : M B (string * option error) :=
  let* (msg, err) := RunCommand "rbd"
                   (rbd_pool_args ++ ["info"; getRBDVolumeName vol "" false]) in
  match err with
  | Some e => ret ("", Some e)
  | None =>
      let idx := strings_Index msg "parent: " in
      if idx =? -1 then ret ("", Some parent_not_found)
      else
        let msg := str_drop (Z.to_nat idx + String.length "parent: ") msg in
        let msg := strings_TrimSpace msg in
        let idx := strings_Index msg newline in
        if idx =? -1
        then ret ("", Some (Errorf "Unexpected parsing error" []))
        else
          let msg := str_take (Z.to_nat idx) msg in
          ret (strings_TrimSpace msg, None)
  end.

Definition rbdDeleteVolumeSnapshot (vol : Volume) (snapshotName : string)
  : M B (option error) :=
  let* (_, err) := RunCommand "rbd"
                 (rbd_pool_args
                  ++ ["snap"; "rm"; getRBDVolumeName vol snapshotName false]) in
  ret err.

Definition snapshots_not_found : error :=
  StatusError http_StatusNotFound "Ceph RBD volume snapshot(s) not found".

(** The loop of [rbdListVolumeSnapshots] over the decoded objects. *)
Fixpoint snapshot_names (data : list (gmap string json_any))
    (snapshots : list string) : list string + error :=
  match data with
  | [] => inl snapshots
  | v :: data' =>
      match v !! "name" with
      | None =>
          inr (Errorf ("No " ++ dquote ++ "name" ++ dquote ++ " property found")
                 [])
      | Some (JString name) =>
          let name := strings_TrimSpace name in
          snapshot_names data' (snapshots ++ [name])
      | Some JOther =>
          inr (Errorf (dquote ++ "name" ++ dquote
                       ++ " property did not have string type") [])
      end
  end.

Definition rbdListVolumeSnapshots (vol : Volume)
  : M B (list string * option error) :=
  let* (msg, err) := RunCommand "rbd"
                   (rbd_pool_args
                    ++ ["--format"; "json"; "snap"; "ls";
                        getRBDVolumeName vol "" false]) in
  match err with
  | Some e => ret ([], Some e)
  | None =>
      let '(data, err) := json_Unmarshal msg in
      match err with
      | Some e => ret ([], Some e)
      | None =>
          match snapshot_names data [] with
          | inr e => ret ([], Some e)
          | inl snapshots =>
              if Z.of_nat (length snapshots) =? 0
              then ret ([], Some snapshots_not_found)
              else ret (snapshots, None)
          end
      end
  end.

(** The deletion walk.  The functions return Go's [(int, error)]:
    [-1] on error, [0] when the entity was deleted, [1] when it was
    marked as a zombie.  Each call of one function by the other, and
    each backward jump of an unmap loop, takes one unit of [fuel]. *)
Section Bodies.
(** The two function bodies, with the other function taken as a
    parameter, and [fuel] for the unmap loops they call. *)
Variable fuel : nat.
Variable deleteVolume : Volume -> M B (Z * option error).
Variable deleteVolumeSnapshot : Volume -> string -> M B (Z * option error).

(** The body of the loop over the snapshots in [deleteVolume];
    [zombies] counts the snapshots that were only marked. *)
Definition deleteVolume_each_snapshot (vol : Volume) (snap : string)
    (zombies : Z) : M B (loop_result (Z * option error) Z) :=
  let* (ret_, err) := deleteVolumeSnapshot vol snap in
  if ret_ <? 0 then ret (Return (-1, err))
  else if ret_ =? 1 then ret (Continue (zombies + 1))
  else ret (Continue zombies).

(** The body of the loop over the clones in [deleteVolumeSnapshot]. *)
Definition deleteVolumeSnapshot_each_clone (vol : Volume) (clone : string)
    (canDelete : bool) : M B (loop_result (Z * option error) bool) :=
  let '(_, cloneType, cloneName, isDeleted, err) := parseClone clone in
  match err with
  | Some e => ret (Return (-1, Some e))
  | None =>
      if negb isDeleted then ret (Continue false)
      else
        let cloneVol :=
          NewVolume (d_name d) cloneType (vol_contentType vol) cloneName ∅ ∅ in
        let cloneVol := set_isDeleted cloneVol isDeleted in
        let* (ret_, err) := deleteVolume cloneVol in
        if ret_ <? 0 then ret (Return (-1, err))
        else if ret_ =? 1 then
          (* Only marked as zombie. *)
          ret (Continue false)
        else ret (Continue canDelete)
  end.

Definition deleteVolume_body (vol : Volume) : M B (Z * option error) :=
  let* (snaps, err) := rbdListVolumeSnapshots vol in
  match err with
  | None =>
      let* r := for_range snaps (deleteVolume_each_snapshot vol) 0 in
      match r with
      | Return r => ret r
      | Continue zombies =>
          if 0 <? zombies then
            (* Unmap. *)
            let* err := rbdUnmapVolume fuel vol true in
            match err with
            | Some e => ret (-1, Some e)
            | None =>
                if vol_isDeleted vol then ret (1, None)
                else
                  let* uuid := NewUUID in
                  let newVolumeName := vol_name vol ++ "_" ++ uuid in
                  let* err := rbdMarkVolumeDeleted vol newVolumeName in
                  match err with
                  | Some e => ret (-1, Some e)
                  | None => ret (1, None)
                  end
            end
          else if zombies =? 0 then
            (* Delete. *)
            let* err := rbdDeleteVolume vol in
            match err with
            | Some e => ret (-1, Some e)
            | None => ret (0, None)
            end
          else ret (0, None)
      end
  | Some e =>
      if negb (IsNotFoundError e) then ret (-1, Some e)
      else
        let* (parent, err) := rbdGetVolumeParent vol in
        match err with
        | None =>
            match parseParent parent with
            | Panics => panic
            | Returns (_, _, Some e) => ret (-1, Some e)
            | Returns (parentVol, parentSnapshotName, None) =>
                (* Unmap. *)
                let* err := rbdUnmapVolume fuel vol true in
                match err with
                | Some e => ret (-1, Some e)
                | None =>
                    (* Delete. *)
                    let* err := rbdDeleteVolume vol in
                    match err with
                    | Some e => ret (-1, Some e)
                    | None =>
                        (* Only delete the parent snapshot of the
                           instance if it is a zombie. *)
                        if vol_isDeleted parentVol
                           || strings_HasPrefix parentSnapshotName "zombie_"
                        then
                          let* (ret_, err) :=
                            deleteVolumeSnapshot parentVol
                              parentSnapshotName in
                          if ret_ <? 0 then ret (-1, err)
                          else ret (0, None)
                        else ret (0, None)
                    end
                end
            end
        | Some e =>
            if negb (IsNotFoundError e) then ret (-1, Some e)
            else
              (* Unmap. *)
              let* err := rbdUnmapVolume fuel vol true in
              match err with
              | Some e => ret (-1, Some e)
              | None =>
                  (* Delete. *)
                  let* err := rbdDeleteVolume vol in
                  match err with
                  | Some e => ret (-1, Some e)
                  | None => ret (0, None)
                  end
              end
        end
  end.

Definition deleteVolumeSnapshot_body (vol : Volume) (snapshotName : string)
  : M B (Z * option error) :=
  let* (clones, err) := rbdListSnapshotClones vol snapshotName in
  match err with
  | Some e =>
      if negb (IsNotFoundError e) then ret (-1, Some e)
      else
        (* Unprotect. *)
        let* err := rbdUnprotectVolumeSnapshot vol snapshotName in
        match err with
        | Some e => ret (-1, Some e)
        | None =>
            (* Unmap. *)
            let* err := rbdUnmapVolumeSnapshot fuel vol snapshotName true in
            match err with
            | Some e => ret (-1, Some e)
            | None =>
                (* Delete. *)
                let* err := rbdDeleteVolumeSnapshot vol snapshotName in
                match err with
                | Some e => ret (-1, Some e)
                | None =>
                    (* Only delete the parent image if it is a zombie. *)
                    if vol_isDeleted vol then
                      let* (ret_, err) := deleteVolume vol in
                      if ret_ <? 0 then ret (-1, err)
                      else ret (0, None)
                    else ret (0, None)
                end
            end
        end
  | None =>
      let* r :=
        for_range clones (deleteVolumeSnapshot_each_clone vol) true in
      match r with
      | Return r => ret r
      | Continue canDelete =>
          if canDelete then
            (* Unprotect. *)
            let* err := rbdUnprotectVolumeSnapshot vol snapshotName in
            match err with
            | Some e => ret (-1, Some e)
            | None =>
                (* Unmap. *)
                let* err :=
                  rbdUnmapVolumeSnapshot fuel vol snapshotName true in
                match err with
                | Some e => ret (-1, Some e)
                | None =>
                    (* Delete. *)
                    let* err := rbdDeleteVolumeSnapshot vol snapshotName in
                    match err with
                    | Some e => ret (-1, Some e)
                    | None =>
                        (* Only delete the parent image if it is a
                           zombie. *)
                        if vol_isDeleted vol then
                          let* (ret_, err) := deleteVolume vol in
                          if ret_ <? 0 then ret (-1, err)
                          else ret (1, None)
                        else ret (1, None)
                    end
                end
            end
          else if strings_HasPrefix snapshotName "zombie_" then
            ret (1, None)
          else
            let* err :=
              rbdUnmapVolumeSnapshot fuel vol snapshotName true in
            match err with
            | Some e => ret (-1, Some e)
            | None =>
                let* uuid := NewUUID in
                let newSnapshotName := "zombie_snapshot_" ++ uuid in
                let* err :=
                  rbdRenameVolumeSnapshot vol snapshotName
                    newSnapshotName in
                match err with
                | Some e => ret (-1, Some e)
                | None => ret (1, None)
                end
            end
      end
  end.
End Bodies.

Fixpoint deleteVolume (fuel : nat) (vol : Volume) {struct fuel}
  : M B (Z * option error) :=
  match fuel with
  | O => out_of_fuel
  | S fuel' => deleteVolume_body fuel' (deleteVolumeSnapshot fuel') vol
  end
with deleteVolumeSnapshot (fuel : nat) (vol : Volume)
    (snapshotName : string) {struct fuel} : M B (Z * option error) :=
  match fuel with
  | O => out_of_fuel
  | S fuel' =>
      deleteVolumeSnapshot_body fuel' (deleteVolume fuel') vol snapshotName
  end.
End Driver.

(** ** Device mapping *)

Definition digit_of (c : ascii) : option N :=
  let n := N_of_ascii c in
  if ((48 <=? n) && (n <=? 57))%N then Some (n - 48)%N else None.

Fixpoint parse_digits (s : string) (acc : N) : option N :=
  match s with
  | EmptyString => Some acc
  | String c s' =>
      match digit_of c with
      | Some v => parse_digits s' (10 * acc + v)%N
      | None => None
      end
  end.

(** [strconv.ParseUint(s, 10, 64)]: decimal digits only, not empty,
    below [2^64]; [None] stands for the syntax or range error. *)
Definition ParseUint_10_64 (s : string) : option N :=
  match s with
  | EmptyString => None
  | _ =>
      match parse_digits s 0%N with
      | Some n => if (n <? 2 ^ 64)%N then Some n else None
      | None => None
      end
  end.

(** The verb [%d] on an unsigned integer. *)
Definition format_d (n : N) : string :=
  NilEmpty.string_of_uint (N.to_uint n).

(** [err != nil && !errors.Is(err, fs.ErrNotExist)] *)
Definition other_than_not_exist (err : option error) : bool :=
  match err with
  | Some e => negb (is_ErrNotExist e)
  | None => false
  end.

Section Mapping.
Context {B : Type} {backend_ops : Backend B} {externals : Externals}.
Variable d : ceph.

Definition not_mapped (vol : Volume) : error :=
  Errorf "Volume %q not mapped to an RBD device" [ArgString (Volume_Name vol)].

(** One iteration of the loop over [/sys/devices/rbd]: [Return] for a
    [return] statement, [Continue] for [continue] and for reaching the
    end of the body. *)
Definition inspect_device (vol : Volume) (f : DirEntry)
  : M B (loop_result (bool * string * option error) unit) :=
  let fName := de_Name f in
  (* Skip if not a directory. *)
  if negb (de_IsDir f) then ret (Continue tt)
  else
    (* Skip if not a device directory. *)
    match ParseUint_10_64 fName with
    | None => ret (Continue tt)
    | Some idx =>
        (* Get the pool for the RBD device. *)
        let* (devPoolName, err) :=
          ReadFile ("/sys/devices/rbd/" ++ fName ++ "/pool") in
        match err with
        | Some e =>
            (* Skip if no pool file. *)
            if is_ErrNotExist e then ret (Continue tt)
            else ret (Return (false, "", Some e))
        | None =>
            (* Skip if the pools don't match. *)
            if negb (String.eqb (strings_TrimSpace devPoolName)
                       (cfg d "ceph.osd.pool_name"))
            then ret (Continue tt)
            else
              (* Get the volume name for the RBD device. *)
              let* (devName, err) :=
                ReadFile ("/sys/devices/rbd/" ++ fName ++ "/name") in
              match err with
              | Some e =>
                  (* Skip if no name file. *)
                  if is_ErrNotExist e then ret (Continue tt)
                  else ret (Return (false, "", Some e))
              | None =>
                  let rbdName := getRBDVolumeName d vol "" false in
                  (* Split RBD name into volume name and snapshot
                     name parts. *)
                  let rbdNameParts := strings_SplitN rbdName "@" 2 in
                  match rbdNameParts with
                  | [] => panic
                  | part0 :: _ =>
                      (* Skip if the names don't match. *)
                      if negb (String.eqb (strings_TrimSpace devName) part0)
                      then ret (Continue tt)
                      else
                        (* Get the snapshot name for the RBD device. *)
                        let* (devSnap, err) :=
                          ReadFile ("/sys/devices/rbd/" ++ fName
                                    ++ "/current_snap") in
                        if other_than_not_exist err
                        then ret (Return (false, "", err))
                        else
                          let devSnapName := strings_TrimSpace devSnap in
                          if Volume_IsSnapshot vol then
                            (* Volume is a snapshot, check device's
                               snapshot name matches the volume's
                               snapshot name. *)
                            match rbdNameParts with
                            | [_; part1] =>
                                if String.eqb part1 devSnapName
                                then ret (Return (false, "/dev/rbd" ++ format_d idx, None))
                                else ret (Continue tt)
                            | _ => ret (Continue tt)
                            end
                          else if existsb (String.eqb devSnapName) ["-"; ""]
                          then
                            (* Volume is not a snapshot and neither is
                               this device. *)
                            ret (Return (false, "/dev/rbd" ++ format_d idx, None))
                          else ret (Continue tt)
                  end
              end
        end
    end.

Definition getRBDMappedDevPath (vol : Volume) (mapIfMissing : bool)
  : M B (bool * string * option error) :=
  (* List all RBD devices. *)
  let* (files, err) := ReadDir "/sys/devices/rbd" in
  if other_than_not_exist err then ret (false, "", err)
  else
    (* Go through the existing RBD devices. *)
    let* r := for_range files (fun f _ => inspect_device vol f) tt in
    match r with
    | Return r => ret r
    | Continue _ =>
        (* No device could be found, map it ourselves. *)
        if mapIfMissing then
          let* (devPath, err) := rbdMapVolume d vol in
          match err with
          | Some e => ret (false, "", Some e)
          | None => ret (true, devPath, None)
          end
        else ret (false, "", Some (not_mapped vol))
    end.
End Mapping.

(** ** Differential import *)





(** ** A scripted backend

    The backend answers the commands with prepared responses, in
    order, hands out prepared UUIDs, and shows a fixed sysfs tree. *)
Record Script : Type := mkScript {
  responses : list (string * option error);
  uuids : list string;
  sys_dir : list DirEntry * option error;
  sys_files : list (string * (string * option error));
}.

Definition script_exhausted : error := OtherError "no scripted response".

Definition lookup_file (path : string)
    (files : list (string * (string * option error)))
  : string * option error :=
  match find (fun kv => String.eqb (fst kv) path) files with
  | Some kv => snd kv
  | None => ("", Some (PathError true path))
  end.

#[global] Instance Script_Backend : Backend Script := {
  run_command _ _ b :=
    match responses b with
    | r :: rs => (r, mkScript rs (uuids b) (sys_dir b) (sys_files b))
    | [] => (("", Some script_exhausted), b)
    end;
  uuid_New b :=
    match uuids b with
    | u :: us => (u, mkScript (responses b) us (sys_dir b) (sys_files b))
    | [] => ("", b)
    end;
  os_ReadDir _ b := sys_dir b;
  os_ReadFile path b := lookup_file path (sys_files b);
}.

(** A scripted world that has issued nothing yet. *)
Definition scripted (rs : list (string * option error)) (us : list string)
  : World Script :=
  mkWorld (mkScript rs us ([], None) []) [].

Definition ok (out : string) : string * option error := (out, None).
Definition exits (code : Z) : string * option error :=
  ("", Some (RunError (Some code) "")).

(** Sample instances of the outside declarations, for running the
    model: the type and content constants are the words of section 3
    of the specification; the image name is [<type>_<name>], with
    [@<snapshot>] when a snapshot name is given and a zombie prefix
    when asked for; a snapshot volume has a slash in its name; the
    decoder reads the compact rendering of a JSON array of objects with
    the single key [name], without white space or escapes. *)
Definition sample_image_name (vol : Volume) (snapName : string)
    (zombie : bool) : string :=
  let out := vol_volType vol ++ "_" ++ vol_name vol in
  let out := if String.eqb snapName "" then out else out ++ "@" ++ snapName in
  if zombie then "zombie_" ++ out else out.

(** One object of the compact rendering: an opening brace, the quoted
    key [name], a colon, the quoted value, a closing brace. *)
Definition sample_object (item : string) : option (gmap string json_any) :=
  let pre := "{" ++ dquote ++ "name" ++ dquote ++ ":" ++ dquote in
  let post := dquote ++ "}" in
  if strings_HasPrefix item pre && strings_HasSuffix item post
  then Some {[ "name" := JString
                 (strings_TrimSuffix (strings_TrimPrefix item pre) post) ]}
  else None.

Fixpoint sample_objects (items : list string)
  : option (list (gmap string json_any)) :=
  match items with
  | [] => Some []
  | item :: items' =>
      match sample_object item, sample_objects items' with
      | Some o, Some os => Some (o :: os)
      | _, _ => None
      end
  end.

Definition sample_decoder (msg : string)
  : list (gmap string json_any) * option error :=
  if String.eqb msg "[]" then ([], None)
  else if strings_HasPrefix msg "[" && strings_HasSuffix msg "]" then
    let inner := strings_TrimSuffix (strings_TrimPrefix msg "[") "]" in
    match sample_objects (strings_Split inner ",") with
    | Some os => (os, None)
    | None => ([], Some (OtherError "invalid JSON"))
    end
  else ([], Some (OtherError "invalid JSON")).

(** The rendering of a list of snapshot names that the sample decoder
    reads back. *)
Definition sample_json (names : list string) : string :=
  "[" ++ String.concat ","
           (map (fun n => "{" ++ dquote ++ "name" ++ dquote ++ ":"
                          ++ dquote ++ n ++ dquote ++ "}") names)
      ++ "]".

#[global] Instance sample_Externals : Externals := {
  VolumeTypeContainer := "container";
  VolumeTypeVM := "virtual-machine";
  VolumeTypeImage := "image";
  VolumeTypeCustom := "custom";
  ContentTypeFS := "filesystem";
  ContentTypeBlock := "block";
  ContentTypeISO := "iso";
  CephGetRBDImageName := sample_image_name;
  Volume_IsSnapshot vol := strings_Contains (vol_name vol) "/";
  Volume_Name := vol_name;
  json_Unmarshal := sample_decoder;
}.

Definition sample_ceph : ceph :=
  mkCeph "pool"
    (<["ceph.user.name" := "admin"]>
       (<["ceph.cluster_name" := "ceph"]>
          (<["ceph.osd.pool_name" := "pool"]> ∅))).

Definition sample_volume (name : string) (zombie : bool) : Volume :=
  set_isDeleted (NewVolume "pool" VolumeTypeContainer ContentTypeFS name ∅ ∅)
    zombie.

(** Two mapped devices of the same image, the first on a snapshot and
    the second on the live volume. *)
Definition sample_sysfs : Script :=
  mkScript [] []
    ([mkDirEntry "0" true; mkDirEntry "1" true], None)
    [("/sys/devices/rbd/0/pool", ("pool" ++ newline, None));
     ("/sys/devices/rbd/0/name", ("container_c1" ++ newline, None));
     ("/sys/devices/rbd/0/current_snap", ("snapshot_snap0" ++ newline, None));
     ("/sys/devices/rbd/1/pool", ("pool" ++ newline, None));
     ("/sys/devices/rbd/1/name", ("container_c1" ++ newline, None));
     ("/sys/devices/rbd/1/current_snap", ("-" ++ newline, None))].

(** ** Vocabulary for the statements *)

(** Exit code 16, [EBUSY]. *)
Definition is_busy (e : error) : Prop := exit_code e = Some 16.

(** Exit code 22, [EINVAL]. *)
Definition is_einval (e : error) : Prop := exit_code e = Some 22.

Section Observations.
Context {B : Type} {backend_ops : Backend B}.

(** The errors of issuing the same command [n] times in a row. *)
Fixpoint command_outcomes (name : string) (args : list string) (n : nat)
    (b : B) : list (option error) :=
  match n with
  | O => []
  | S n' =>
      let '((_, e), b') := run_command name args b in
      e :: command_outcomes name args n' b'
  end.

(** The backend after these [n] commands. *)
Fixpoint backend_after (name : string) (args : list string) (n : nat)
    (b : B) : B :=
  match n with
  | O => b
  | S n' => backend_after name args n' (snd (run_command name args b))
  end.

End Observations.

(** [n] rounds of an unmap command answered busy and the one second
    pause that follows it. *)
Definition retry_log (cmd : list string) (n : nat) : list event :=
  concat (repeat [EvRun "rbd" cmd; EvSleep 1] n).

(** A kernel with [n] stacked mappings of one volume: [rbd unmap]
    removes one mapping, and reports [EINVAL] when none is left; every
    other command succeeds. *)
Record Kernel : Type := mkKernel { mappings : nat }.

#[global] Instance Kernel_Backend : Backend Kernel := {
  run_command _ args b :=
    if existsb (String.eqb "unmap") args then
      match mappings b with
      | O => (("", Some (RunError (Some 22) "")), b)
      | S n => (("", None), mkKernel n)
      end
    else (("", None), b);
  uuid_New b := ("", b);
  os_ReadDir _ _ := ([], None);
  os_ReadFile path _ := ("", Some (PathError true path));
}.

Section Walk.
Context {B : Type} {backend_ops : Backend B} {externals : Externals}.
Variable d : ceph.



(** The volume [deleteVolumeSnapshot] builds for a zombie clone. *)
Definition zombie_clone (vol : Volume) (cloneType cloneName : string)
  : Volume :=
  set_isDeleted
    (NewVolume (d_name d) cloneType (vol_contentType vol) cloneName ∅ ∅) true.

(** Every listed clone is removable: it decodes, it is marked as a
    zombie, and deleting it neither fails nor ends in a zombie. *)
Inductive clones_removed (fuel : nat) (vol : Volume)
  : list string -> World B -> World B -> Prop :=
  | clones_removed_nil (w : World B) : clones_removed fuel vol [] w w
  | clones_removed_cons (clone : string) (clones : list string)
      (poolName cloneType cloneName : string) (w w1 w2 : World B)
      (r : Z) (e : option error) :
      parseClone clone = (poolName, cloneType, cloneName, true, None) ->
      deleteVolume d fuel (zombie_clone vol cloneType cloneName) w
      = Done (r, e) w1 ->
      0 <= r -> r <> 1 ->
      clones_removed fuel vol clones w1 w2 ->
      clones_removed fuel vol (clone :: clones) w w2.

(** The three outcomes of the walk: failed with an error, deleted,
    marked as a zombie. *)
Definition well_coded (r : Z * option error) : Prop :=
  (fst r = -1 /\ snd r <> None)
  \/ (fst r = 0 /\ snd r = None)
  \/ (fst r = 1 /\ snd r = None).

(** A computation never panics, and its results satisfy [P]. *)
Definition safe {A : Type} (P : A -> Prop) (m : M B A) : Prop :=
  forall w : World B,
    match m w with
    | Done a _ => P a
    | OutOfFuel => True
    | Panicked => False
    end.

(** Every finished run of [m1] is a run of [m2] with the same result. *)
Definition extends {A : Type} (m1 m2 : M B A) : Prop :=
  forall (w : World B) (a : A) (w' : World B),
    m1 w = Done a w' -> m2 w = Done a w'.

(** The world [w'] is [w] after the events [evs]. *)
Definition log_since (w w' : World B) (evs : list event) : Prop :=
  log w' = (log w ++ evs)%list.

(** The command that physically deletes a volume. *)
Definition rm_event (vol : Volume) : event :=
  EvRun "rbd" (rbd_pool_args d ++ ["rm"; getRBDVolumeName d vol "" false])%list.

(** The command that renames a volume into its zombie form. *)
Definition mark_event (vol : Volume) (newVolumeName : string) : event :=
  EvRun "rbd"
    (rbd_cluster_args d
     ++ ["mv"; getRBDVolumeName d vol "" true;
         getRBDVolumeName d
           (set_isDeleted
              (NewVolume (d_name d) (vol_volType vol) (vol_contentType vol)
                 newVolumeName (vol_config vol) (vol_poolConfig vol)) true)
           "" true])%list.

(** The command that physically deletes a snapshot. *)
Definition snap_rm_event (vol : Volume) (snapshotName : string) : event :=
  EvRun "rbd"
    (rbd_pool_args d
     ++ ["snap"; "rm"; getRBDVolumeName d vol snapshotName false])%list.
End Walk.

Section Devices.
Context {B : Type} {backend_ops : Backend B} {externals : Externals}.
Variable d : ceph.

(** The device is a numbered directory whose pool and image name are
    those of the volume. *)
Definition same_image (vol : Volume) (f : DirEntry) (idx : N) (b : B)
  : Prop :=
  de_IsDir f = true
  /\ ParseUint_10_64 (de_Name f) = Some idx
  /\ exists pool name image rest,
       os_ReadFile ("/sys/devices/rbd/" ++ de_Name f ++ "/pool") b
       = (pool, None)
       /\ strings_TrimSpace pool = cfg d "ceph.osd.pool_name"
       /\ os_ReadFile ("/sys/devices/rbd/" ++ de_Name f ++ "/name") b
          = (name, None)
       /\ strings_SplitN (getRBDVolumeName d vol "" false) "@" 2
          = image :: rest
       /\ strings_TrimSpace name = image.

(** The active snapshot of the device is the one the volume denotes:
    the snapshot part of the volume's image name for a snapshot volume,
    none (empty or a dash) for a live volume.  A missing attribute file
    reads as empty. *)
Definition same_snapshot (vol : Volume) (f : DirEntry) (b : B) : Prop :=
  exists devSnap err,
    os_ReadFile ("/sys/devices/rbd/" ++ de_Name f ++ "/current_snap") b
    = (devSnap, err)
    /\ other_than_not_exist err = false
    /\ if Volume_IsSnapshot vol
       then exists image,
              strings_SplitN (getRBDVolumeName d vol "" false) "@" 2
              = [image; strings_TrimSpace devSnap]
       else strings_TrimSpace devSnap = "-" \/ strings_TrimSpace devSnap = "".
End Devices.

(** ** Creating volumes, snapshots and clones *)

(** Two more declarations from other files: [units.ParseByteSizeString]
    and [util.SplitNTrimSpace]. *)
Class Utilities : Type := {
  ParseByteSizeString : string -> Z * option error;
  SplitNTrimSpace : string -> string -> Z -> bool -> list string;
}.

(** The verb [%d] on a signed integer. *)
Definition format_int (z : Z) : string :=
  if z <? 0 then "-" +:+ format_d (Z.to_N (- z)) else format_d (Z.to_N z).

Section Creation.
Context {B : Type} {backend_ops : Backend B} {externals : Externals}
  {utilities : Utilities}.
Variable d : ceph.

Definition rbdCreateVolume (vol : Volume) (size : string)
  : M B (option error) :=
  let '(sizeBytes, err) := ParseByteSizeString size in
  match err with
  | Some e => ret (Some e)
  | None =>
      let cmd := ["--id"; cfg d "ceph.user.name";
                  "--cluster"; cfg d "ceph.cluster_name";
                  "--pool"; cfg d "ceph.osd.pool_name"] in
      let cmd :=
        if negb (String.eqb (cfg d "ceph.rbd.features") "") then
          fold_left
            (fun cmd feature => (cmd ++ ["--image-feature"; feature])%list)
            (SplitNTrimSpace (cfg d "ceph.rbd.features") "," (-1) true) cmd
        else (cmd ++ ["--image-feature"; "layering"])%list in
      let cmd :=
        if negb (String.eqb (cfg d "ceph.osd.data_pool_name") "")
        then (cmd ++ ["--data-pool"; cfg d "ceph.osd.data_pool_name"])%list
        else cmd in
      let cmd := (cmd ++ ["--size"; format_int sizeBytes +:+ "B";
                          "create"; getRBDVolumeName d vol "" false])%list in
      let* (_, err) := RunCommand "rbd" cmd in
      ret err
  end.

Definition rbdProtectVolumeSnapshot (vol : Volume) (snapshotName : string)
  : M B (option error) :=
  let* (_, err) := RunCommand "rbd"
                 (rbd_pool_args d
                  ++ ["snap"; "protect"; "--snap"; snapshotName;
                      getRBDVolumeName d vol "" false])%list in
  match err with
  | Some e =>
      match exit_code e with
      | Some code =>
          (* EBUSY (snapshot already protected). *)
          if code =? 16 then ret None else ret (Some e)
      | None => ret (Some e)
      end
  | None => ret None
  end.

Definition rbdCreateClone (sourceVol : Volume) (sourceSnapshotName : string)
    (targetVol : Volume) : M B (option error) :=
  let cmd := ["--id"; cfg d "ceph.user.name";
              "--cluster"; cfg d "ceph.cluster_name"] in
  let cmd :=
    if negb (String.eqb (cfg d "ceph.rbd.features") "") then
      fold_left
        (fun cmd feature => (cmd ++ ["--image-feature"; feature])%list)
        (SplitNTrimSpace (cfg d "ceph.rbd.features") "," (-1) true) cmd
    else (cmd ++ ["--image-feature"; "layering"])%list in
  let cmd :=
    if negb (String.eqb (cfg d "ceph.osd.data_pool_name") "")
    then (cmd ++ ["--data-pool"; cfg d "ceph.osd.data_pool_name"])%list
    else cmd in
  let cmd := (cmd ++ ["clone";
                      getRBDVolumeName d sourceVol sourceSnapshotName true;
                      getRBDVolumeName d targetVol "" true])%list in
  let* (_, err) := RunCommand "rbd" cmd in
  ret err.

(** The options that describe the image to create: one
    [--image-feature] per configured feature ([layering] when none is
    configured), then the data pool when one is configured. *)
Definition image_options : list string :=
  (flat_map (fun feature => ["--image-feature"; feature])
     (if String.eqb (cfg d "ceph.rbd.features") "" then ["layering"]
      else SplitNTrimSpace (cfg d "ceph.rbd.features") "," (-1) true)
   ++ (if String.eqb (cfg d "ceph.osd.data_pool_name") "" then []
       else ["--data-pool"; cfg d "ceph.osd.data_pool_name"]))%list.
End Creation.

(** ** Differential export and local copies *)

(** What the spawned [rbd export-diff] process does in one run of
    [sendVolume]: the result of creating the pipe for its diagnostic
    stream, of starting it, the text read from that stream, and the
    result of waiting for it. *)
Record export_run : Type := mkExportRun {
  er_StderrPipe : option error;
  er_Start : option error;
  er_stderr : string;
  er_Wait : option error;
}.

(** The steps of [sendVolume], in order; [SendClose] is the deferred
    [conn.Close()]. *)
Inductive send_step : Type :=
  | SendCommand (name : string) (args : list string)
  | SendStderrPipe
  | SendProgressWriter
  | SendStart
  | SendReadStderr
  | SendWait
  | SendClose.

(** [fmt.Errorf("ceph export-diff failed: %w (%s)", err, output)]; the
    wrapped error is kept as a list of one. *)
Definition export_failed (err : error) (output : string) : error :=
  Errorf "ceph export-diff failed: %w (%s)"
    [ArgErrors [err]; ArgString output].

(** [sendVolume], as a function of what the process does; [tracker]
    says whether a progress tracker was given. *)
Definition sendVolume (d : ceph) (volumeName volumeParentName : string)
    (tracker : bool) (p : export_run) : option error * list send_step :=
  let args := ["export-diff";
               "--id"; cfg d "ceph.user.name";
               "--cluster"; cfg d "ceph.cluster_name";
               volumeName] in
  let args :=
    if negb (String.eqb volumeParentName "")
    then (args ++ ["--from-snap"; volumeParentName])%list
    else args in
  (* Redirect output to stdout. *)
  let args := (args ++ ["-"])%list in
  let steps := [SendCommand "rbd" args; SendStderrPipe] in
  let '(err, steps) :=
    match er_StderrPipe p with
    | Some e => (Some e, steps)
    | None =>
        (* Setup progress tracker. *)
        let steps :=
          if tracker then (steps ++ [SendProgressWriter])%list else steps in
        let steps := (steps ++ [SendStart])%list in
        match er_Start p with
        | Some e => (Some e, steps)
        | None =>
            let output := er_stderr p in
            let steps := (steps ++ [SendReadStderr])%list in
            (* Handle errors. *)
            let steps := (steps ++ [SendWait])%list in
            match er_Wait p with
            | Some e => (Some (export_failed e output), steps)
            | None => (None, steps)
            end
        end
    end in
  (err, (steps ++ [SendClose])%list).

(** What the two processes of [copyWithSnapshots] do: the result of
    creating the pipe between them, of starting the import, of running
    the export to its end, and of waiting for the import. *)
Record copy_run : Type := mkCopyRun {
  cr_StdoutPipe : option error;
  cr_recv_Start : option error;
  cr_send_Run : option error;
  cr_recv_Wait : option error;
}.

Inductive copy_step : Type :=
  | CopyCommand (name : string) (args : list string)
  | CopyStdoutPipe
  | CopyRecvStart
  | CopySendRun
  | CopyRecvWait.

Definition copyWithSnapshots (d : ceph)
    (sourceVolumeName targetVolumeName sourceParentSnapshot : string)
    (p : copy_run) : option error * list copy_step :=
  let args := ["export-diff";
               "--id"; cfg d "ceph.user.name";
               "--cluster"; cfg d "ceph.cluster_name";
               sourceVolumeName] in
  let args :=
    if negb (String.eqb sourceParentSnapshot "")
    then (args ++ ["--from-snap"; sourceParentSnapshot])%list
    else args in
  (* Redirect output to stdout. *)
  let args := (args ++ ["-"])%list in
  let steps :=
    [CopyCommand "rbd" args;
     CopyCommand "rbd"
       ["import-diff";
        "--id"; cfg d "ceph.user.name";
        "--cluster"; cfg d "ceph.cluster_name";
        "-"; targetVolumeName];
     CopyStdoutPipe] in
  (* The error of the pipe is dropped. *)
  let _ := cr_StdoutPipe p in
  let steps := (steps ++ [CopyRecvStart])%list in
  match cr_recv_Start p with
  | Some e => (Some e, steps)
  | None =>
      let steps := (steps ++ [CopySendRun])%list in
      match cr_send_Run p with
      | Some e => (Some e, steps)
      | None =>
          let steps := (steps ++ [CopyRecvWait])%list in
          match cr_recv_Wait p with
          | Some e => (Some e, steps)
          | None => (None, steps)
          end
      end
  end.

(** ** More sample instances *)

(** A sample instance of the two utilities: sizes are plain decimal
    byte counts, and the feature list is cut at its separator. *)
#[global] Instance sample_Utilities : Utilities := {
  ParseByteSizeString size :=
    match ParseUint_10_64 size with
    | Some n => (Z.of_N n, None)
    | None => (-1, Some (OtherError "invalid size"))
    end;
  SplitNTrimSpace s sep n nilIfEmpty :=
    if nilIfEmpty && String.eqb (strings_TrimSpace s) "" then []
    else map strings_TrimSpace (strings_SplitN s sep n);
}.

(** A backend on which every command succeeds, for ever. *)
Record Obliging : Type := mkObliging { served : nat }.

Definition Obliging_Backend : Backend Obliging := {|
  run_command _ _ b := (("", None), mkObliging (S (served b)));
  uuid_New b := ("", b);
  os_ReadDir _ _ := ([], None);
  os_ReadFile path _ := ("", Some (PathError true path));
|}.

(** ** More vocabulary for the statements *)

(** The zombie marker in front of a name. *)
Definition zombie_prefix (zombie : bool) : string :=
  if zombie then "zombie_" else "".

(** A name followed by its snapshot part, if it has one. *)
Definition with_snapshot (name : string) (snap : option string) : string :=
  match snap with
  | Some s => name +:+ "@" +:+ s
  | None => name
  end.

(** The last [@] is the one in front of the snapshot name: the
    snapshot name holds none, and a name without a snapshot part holds
    none at all. *)
Definition snapshot_delimited (name : string) (snap : option string) : bool :=
  match snap with
  | Some s => free_of "@" s
  | None => free_of "@" name
  end.

(** The filesystem indicator at the end of an image name. *)
Definition filesystem_part (fs : option string) : string :=
  match fs with
  | Some f => "_" +:+ f
  | None => ""
  end.

Section DecodedVolumes.
Context {externals : Externals}.

(** The combinations of type, content type and configuration that
    [parseParent] builds. *)
Definition decoded_kind (vol : Volume) : Prop :=
  (vol_volType vol = VolumeTypeImage
   /\ (vol_contentType vol = ContentTypeBlock
       \/ vol_contentType vol = ContentTypeFS)
   /\ (vol_config vol = ∅
       \/ exists fs, vol_config vol = {[ "block.filesystem" := fs ]}))
  \/ (vol_volType vol = VolumeTypeCustom
      /\ (vol_contentType vol = ContentTypeBlock
          \/ vol_contentType vol = ContentTypeISO
          \/ vol_contentType vol = ContentTypeFS)
      /\ vol_config vol = ∅)
  \/ ((vol_volType vol = VolumeTypeContainer
       \/ vol_volType vol = VolumeTypeVM)
      /\ (vol_contentType vol = ContentTypeBlock
          \/ vol_contentType vol = ContentTypeFS)
      /\ vol_config vol = ∅).
End DecodedVolumes.

(** The name that the snapshot listing reads off a decoded object. *)
Definition names_object (v : gmap string json_any) (name : string) : Prop :=
  exists raw, v !! "name" = Some (JString raw) /\ name = strings_TrimSpace raw.

Section WalkVocabulary.
Context {B : Type} {backend_ops : Backend B} {externals : Externals}.
Variable d : ceph.

(** The commands that list the snapshots of a volume, query its
    parent, and list the clones of one of its snapshots. *)
Definition snap_ls_event (vol : Volume) : event :=
  EvRun "rbd"
    (rbd_pool_args d
     ++ ["--format"; "json"; "snap"; "ls";
         getRBDVolumeName d vol "" false])%list.

Definition info_event (vol : Volume) : event :=
  EvRun "rbd" (rbd_pool_args d ++ ["info"; getRBDVolumeName d vol "" false])%list.

Definition children_event (vol : Volume) (snapshotName : string) : event :=
  EvRun "rbd"
    (rbd_pool_args d
     ++ ["children"; "--image"; getRBDVolumeName d vol "" false;
         "--snap"; snapshotName])%list.

(** The loop over the clones of a snapshot, none of the calls failing:
    a live clone clears [canDelete], a zombie clone is deleted and
    clears it when it could only be marked. *)
Inductive clones_walked (fuel : nat) (vol : Volume)
  : list string -> World B -> bool -> World B -> bool -> Prop :=
  | clones_walked_nil (w : World B) (canDelete : bool) :
      clones_walked fuel vol [] w canDelete w canDelete
  | clones_walked_live (clone : string) (clones : list string)
      (poolName cloneType cloneName : string) (w w' : World B)
      (canDelete canDelete' : bool) :
      parseClone clone = (poolName, cloneType, cloneName, false, None) ->
      clones_walked fuel vol clones w false w' canDelete' ->
      clones_walked fuel vol (clone :: clones) w canDelete w' canDelete'
  | clones_walked_zombie (clone : string) (clones : list string)
      (poolName cloneType cloneName : string) (w w1 w2 : World B)
      (r : Z) (e : option error) (canDelete canDelete' : bool) :
      parseClone clone = (poolName, cloneType, cloneName, true, None) ->
      deleteVolume d fuel (zombie_clone d vol cloneType cloneName) w
      = Done (r, e) w1 ->
      0 <= r ->
      clones_walked fuel vol clones w1
        (if r =? 1 then false else canDelete) w2 canDelete' ->
      clones_walked fuel vol (clone :: clones) w canDelete w2 canDelete'.

(** An event of the driver: an [rbd] command under the configured user
    and cluster, or a pause of one second. *)
Definition driver_event (ev : event) : Prop :=
  match ev with
  | EvRun name args =>
      name = "rbd" /\ exists rest, args = (rbd_cluster_args d ++ rest)%list
  | EvSleep seconds => seconds = 1
  end.

(** Every finished run of [m] adds events that satisfy [P], and
    nothing else, to the log. *)
Definition issues {A : Type} (P : event -> Prop) (m : M B A) : Prop :=
  forall (w : World B) (a : A) (w' : World B),
    m w = Done a w' ->
    exists evs, log w' = (log w ++ evs)%list /\ Forall P evs.
End WalkVocabulary.

(** ** The AppArmor wrapper for rsync *)

(** The fields of [sys.OS] that the wrapper reads. *)
Record sys_OS : Type := mkSysOS {
  AppArmorAvailable : bool;
  ExecPath : string;
}.

(** The fields of [exec.Cmd] that the wrapper writes. *)
Record Cmd : Type := mkCmd {
  cmd_Path : string;
  cmd_Args : list string;
}.

(** A value handed to the profile template. *)
Inductive tpl_value : Type :=
  | TplString (s : string)
  | TplStrings (l : list string).

(** The host the wrapper runs on, and the declarations of other files
    that it calls: path resolution, the lookup of executables, file
    writes and removals, the environment, the UUID generator, the
    profile directory and naming, the loading and deletion of
    profiles, the log directory, and the rendering of the profile
    template.  [H] is the state of the host. *)
Class Host (H : Type) : Type := {
  filepath_EvalSymlinks : string -> H -> string * option error;
  filepath_Join : list string -> string;
  exec_LookPath : string -> H -> string * option error;
  os_WriteFile : string -> string -> H -> option error * H;
  os_Remove : string -> H -> option error * H;
  os_Getenv : string -> H -> string;
  host_uuid_New : H -> string * H;
  aaPath : string;
  profileName : string -> string -> string;
  loadProfile : sys_OS -> string -> H -> option error * H;
  deleteProfile : sys_OS -> string -> string -> H -> option error * H;
  LogPath : list string -> string;
  rsyncProfileTpl_Execute : gmap string tpl_value -> string * option error;
}.

(** The [revert] package, declared in another file: a reverter collects
    hooks; [Fail] runs what it holds, [Success] disarms it. *)
Class Reverter (H R : Type) : Type := {
  revert_New : R;
  revert_Add : (H -> H) -> R -> R;
  revert_Fail : R -> H -> H;
  revert_Success : R -> R;
}.

(** What the wrapper relies on: a new or disarmed reverter runs
    nothing, and an armed one runs the hook added last, then the
    others. *)
Record ReverterLaws {H R : Type} (reverter : Reverter H R) : Prop := {
  fail_new : forall h : H, revert_Fail revert_New h = h;
  fail_add : forall (f : H -> H) (r : R) (h : H),
      revert_Fail (revert_Add f r) h = revert_Fail r (f h);
  fail_success : forall (r : R) (h : H), revert_Fail (revert_Success r) h = h;
}.

Section Sandbox.
Context {H R : Type} {host : Host H} {reverter : Reverter H R}.

(** [rsyncProfile] generates the AppArmor profile from the template. *)
Definition rsyncProfile (sysOS : sys_OS) (name sourcePath dstPath : string)
    (h : H) : string * option error :=
  (* Render the profile. *)
  let logPath := LogPath [""] in
  (* Fully deref the executable path. *)
  let execPath := ExecPath sysOS in
  let '(fullPath, err) := filepath_EvalSymlinks execPath h in
  let execPath := match err with None => fullPath | Some _ => execPath end in
  let '(sb, err) :=
    rsyncProfileTpl_Execute
      (<["name" := TplString name]>
         (<["execPath" := TplString execPath]>
            (<["sourcePath" := TplString sourcePath]>
               (<["dstPath" := TplString dstPath]>
                  (<["logPath" := TplString logPath]>
                     (<["libraryPath" :=
                          TplStrings
                            (strings_Split (os_Getenv "LD_LIBRARY_PATH" h) ":")]>
                        ∅)))))) in
  match err with
  | Some e => ("", Some e)
  | None => (sb, None)
  end.

(** [rsyncProfileLoad] returns the profile name, an error, and the host
    as the call leaves it; the deferred [reverter.Fail()] runs on every
    return. *)
Definition rsyncProfileLoad (sysOS : sys_OS) (sourcePath dstPath : string)
    (h : H) : string * option error * H :=
  let reverter := revert_New in
  (* Generate a temporary profile name. *)
  let '(u, h) := host_uuid_New h in
  let name := profileName "rsync" u in
  let profilePath := filepath_Join [aaPath; "profiles"; name] in
  (* Generate the profile *)
  let '(content, err) := rsyncProfile sysOS name sourcePath dstPath h in
  match err with
  | Some e => ("", Some e, revert_Fail reverter h)
  | None =>
      (* Write it to disk. *)
      let '(err, h) := os_WriteFile profilePath content h in
      match err with
      | Some e => ("", Some e, revert_Fail reverter h)
      | None =>
          let reverter :=
            revert_Add (fun h => snd (os_Remove profilePath h)) reverter in
          (* Load it. *)
          let '(err, h) := loadProfile sysOS name h in
          match err with
          | Some e => ("", Some e, revert_Fail reverter h)
          | None =>
              let reverter := revert_Success reverter in
              (name, None, revert_Fail reverter h)
          end
      end
  end.

(** A path with its symbolic links resolved, when there is a path and
    the resolution works; the path as given otherwise. *)
Definition dereferenced (path : string) (h : H) : string :=
  if negb (String.eqb path "") then
    match filepath_EvalSymlinks path h with
    | (fullPath, None) => fullPath
    | (_, Some _) => path
    end
  else path.

(** [RsyncWrapper] returns the cleanup function ([None] for [nil]), an
    error, the command as the call leaves it, and the host. *)
Definition RsyncWrapper (sysOS : sys_OS) (cmd : Cmd)
    (sourcePath dstPath : string) (h : H)
  : option (H -> H) * option error * Cmd * H :=
  if negb (AppArmorAvailable sysOS) then (Some (fun h => h), None, cmd, h)
  else
    let reverter := revert_New in
    (* Attempt to deref all paths. *)
    let sourcePath :=
      if negb (String.eqb sourcePath "") then
        match filepath_EvalSymlinks sourcePath h with
        | (fullPath, None) => fullPath
        | (_, Some _) => sourcePath
        end
      else sourcePath in
    let dstPath :=
      if negb (String.eqb dstPath "") then
        match filepath_EvalSymlinks dstPath h with
        | (fullPath, None) => fullPath
        | (_, Some _) => dstPath
        end
      else dstPath in
    (* Load the profile. *)
    let '(profileName, err, h) := rsyncProfileLoad sysOS sourcePath dstPath h in
    match err with
    | Some e =>
        (None,
         Some (Errorf "Failed to load rsync profile: %w" [ArgErrors [e]]),
         cmd, revert_Fail reverter h)
    | None =>
        let reverter :=
          revert_Add
            (fun h => snd (deleteProfile sysOS profileName profileName h))
            reverter in
        (* Resolve aa-exec. *)
        let '(execPath, err) := exec_LookPath "aa-exec" h in
        match err with
        | Some e => (None, Some e, cmd, revert_Fail reverter h)
        | None =>
            (* Override the command. *)
            let newArgs := ["aa-exec"; "-p"; profileName] in
            let newArgs := (newArgs ++ cmd_Args cmd)%list in
            let cmd := {| cmd_Path := execPath; cmd_Args := newArgs |} in
            (* All done, setup a cleanup function and disarm reverter. *)
            let cleanup :=
              fun h => snd (deleteProfile sysOS profileName profileName h) in
            let reverter := revert_Success reverter in
            (Some cleanup, None, cmd, revert_Fail reverter h)
        end
    end.
End Sandbox.

(** A sample host: a set of files, a set of loaded profiles and the
    value of [LD_LIBRARY_PATH]; [aa-exec] may be missing and the
    loading of profiles may fail. *)
Record Machine : Type := mkMachine {
  m_files : list string;
  m_profiles : list string;
  m_library_path : string;
  m_has_aa_exec : bool;
  m_load_fails : bool;
}.

#[global] Instance Machine_Host : Host Machine := {
  filepath_EvalSymlinks path _ := (path, None);
  filepath_Join parts := String.concat "/" parts;
  exec_LookPath name m :=
    if m_has_aa_exec m then ("/usr/sbin/" +:+ name, None)
    else ("", Some (OtherError "executable file not found in $PATH"));
  os_WriteFile path _ m :=
    (None, mkMachine (path :: m_files m) (m_profiles m) (m_library_path m)
             (m_has_aa_exec m) (m_load_fails m));
  os_Remove path m :=
    (None, mkMachine (List.filter (fun f => negb (String.eqb f path))
                        (m_files m))
             (m_profiles m) (m_library_path m) (m_has_aa_exec m)
             (m_load_fails m));
  os_Getenv _ m := m_library_path m;
  host_uuid_New m := ("u1", m);
  aaPath := "/var/lib/incus/security/apparmor";
  profileName prefix name := "incus_" +:+ prefix +:+ "-" +:+ name;
  loadProfile _ name m :=
    if m_load_fails m then (Some (OtherError "apparmor_parser failed"), m)
    else (None, mkMachine (m_files m) (name :: m_profiles m)
                  (m_library_path m) (m_has_aa_exec m) (m_load_fails m));
  deleteProfile _ name _ m :=
    (None, mkMachine (m_files m)
             (List.filter (fun p => negb (String.eqb p name)) (m_profiles m))
             (m_library_path m) (m_has_aa_exec m) (m_load_fails m));
  LogPath _ := "/var/log/incus";
  rsyncProfileTpl_Execute _ := ("profile", None);
}.

(** A reverter as the list of its hooks, the last added first. *)
#[global] Instance list_Reverter (H : Type) : Reverter H (list (H -> H)) := {
  revert_New := [];
  revert_Add f r := f :: r;
  revert_Fail r h := fold_left (fun h f => f h) r h;
  revert_Success _ := [];
}.

(** * Properties *)

Local Open Scope list_scope.

(** The decoders on well-formed names (with the sample constants). *)
Example parseParent_image :
  parseParent "p/zombie_image_abc_ext4.block@readonly"
  = Returns ({| vol_name := "abc"; vol_pool := "p"; vol_poolConfig := ∅;
                vol_volType := "image"; vol_contentType := "block";
                vol_config := {[ "block.filesystem" := "ext4" ]};
                vol_isDeleted := true |}, "readonly", None).
Proof. vm_compute. reflexivity. Qed.

Example parseClone_zombie :
  parseClone "p/zombie_container_c1" = ("p", "container", "c1", true, None).
Proof. reflexivity. Qed.

(** ** Facts about the string functions *)

Lemma strings_HasPrefix_app (s a b : string) :
  strings_HasPrefix s (a +:+ b)
  = strings_HasPrefix s a && strings_HasPrefix (str_drop (String.length a) s) b.
Proof.
  revert s. induction a as [|c a IH]; intros s; simpl.
  - reflexivity.
  - destruct s as [|d s]; simpl.
    + reflexivity.
    + destruct (Ascii.eqb c d); [apply IH | reflexivity].
Qed.

Lemma strings_HasPrefix_head (c d : ascii) (s p q : string) :
  Ascii.eqb c d = false ->
  strings_HasPrefix s (String c p) = true ->
  strings_HasPrefix s (String d q) = false.
Proof.
  intros Hcd. destruct s as [|e s]; simpl; [discriminate|].
  destruct (Ascii.eqb c e) eqn:Hce; [|discriminate].
  apply Ascii.eqb_eq in Hce. subst e. intros _.
  rewrite Ascii.eqb_sym, Hcd. reflexivity.
Qed.

Lemma str_take_app (a b : string) : str_take (String.length a) (a +:+ b) = a.
Proof. induction a as [|c a IH]; simpl; [destruct b|]; congruence. Qed.

Lemma str_drop_app (a b : string) : str_drop (String.length a) (a +:+ b) = b.
Proof. induction a as [|c a IH]; simpl; auto. Qed.

Lemma str_drop_add (n m : nat) (s : string) :
  str_drop (n + m) s = str_drop m (str_drop n s).
Proof.
  revert s. induction n as [|n IH]; intros s; simpl; [reflexivity|].
  destruct s; [destruct m; reflexivity | apply IH].
Qed.

Lemma strings_Contains_index (s sep : string) :
  strings_Contains s sep = false <-> index_of s sep = None.
Proof.
  unfold strings_Contains, strings_Index.
  destruct (index_of s sep) as [i|]; split; intros H; try discriminate; try reflexivity.
  apply Z.leb_gt in H. lia.
Qed.

(** Index of a one-byte separator that first occurs right after [a]. *)
Lemma index_of_char_app (c : ascii) (a b : string) :
  index_of a (String c "") = None ->
  index_of (a +:+ String c b) (String c "") = Some (String.length a).
Proof.
  induction a as [|d a IH]; simpl.
  - rewrite Ascii.eqb_refl. reflexivity.
  - destruct (Ascii.eqb c d); [discriminate|].
    destruct (index_of a (String c "")) eqn:E; [discriminate|].
    intros _. rewrite IH; reflexivity.
Qed.

Lemma genSplit_0 (fuel : nat) (s sep : string) : genSplit fuel s sep 0 = [s].
Proof. destruct fuel; reflexivity. Qed.

(** [SplitN(s, "/", 2)] has a single part exactly when there is no slash. *)
Lemma strings_SplitN_2_none (s sep : string) :
  index_of s sep = None -> strings_SplitN s sep 2 = [s].
Proof. intros H. unfold strings_SplitN. simpl. rewrite H. reflexivity. Qed.

Lemma strings_SplitN_2_some (s sep : string) (m : nat) :
  index_of s sep = Some m ->
  strings_SplitN s sep 2 = [str_take m s; str_drop (m + String.length sep) s].
Proof.
  intros H. unfold strings_SplitN. simpl. rewrite H, genSplit_0. reflexivity.
Qed.



(** The decoder never panics: the slice index [1] after cutting at the
    type prefix is always in range. *)

Lemma str_take_drop (n : nat) (s : string) :
  str_take n s +:+ str_drop n s = s.
Proof.
  revert s. induction n as [|n IH]; intros s; [reflexivity|].
  destruct s as [|c s]; [reflexivity|].
  change (String c (str_take n s +:+ str_drop n s) = String c s).
  f_equal. apply IH.
Qed.

Lemma strings_HasSuffix_split (s suffix : string) :
  strings_HasSuffix s suffix = true ->
  s = strings_TrimSuffix s suffix +:+ suffix.
Proof.
  intros H. unfold strings_TrimSuffix. rewrite H.
  unfold strings_HasSuffix in H. apply andb_true_iff in H.
  destruct H as [_ H]. apply String.eqb_eq in H.
  transitivity (str_take (String.length s - String.length suffix) s
                +:+ str_drop (String.length s - String.length suffix) s).
  - symmetry. apply str_take_drop.
  - f_equal. exact H.
Qed.

(** A prefix without the byte [c] ends before the first [c]. *)
Lemma strings_HasPrefix_before (c : ascii) (q : string) :
  free_of c q = true ->
  forall a rest : string,
    strings_HasPrefix (a +:+ String c rest) q = true ->
    strings_HasPrefix a q = true.
Proof.
  induction q as [|x q IH]; intros Hfree a rest H; [reflexivity|].
  cbn in Hfree. apply andb_true_iff in Hfree. destruct Hfree as [Hx Hfree].
  destruct a as [|y a].
  - change ("" +:+ String c rest) with (String c rest) in H.
    cbn [strings_HasPrefix] in H.
    rewrite (proj1 (negb_true_iff _) Hx) in H. discriminate H.
  - change (String y a +:+ String c rest)
      with (String y (a +:+ String c rest)) in H.
    cbn [strings_HasPrefix] in H |- *.
    destruct (Ascii.eqb x y); [|discriminate H]. exact (IH Hfree a rest H).
Qed.

Lemma strings_HasPrefix_index (s p : string) :
  strings_HasPrefix s p = true -> index_of s p = Some O.
Proof. intros H. destruct s; cbn; rewrite H; reflexivity. Qed.

(** A match of [p] somewhere in [s] is found by [index_of]. *)
Lemma index_of_found (n : nat) :
  forall s p : string,
    strings_HasPrefix (str_drop n s) p = true -> index_of s p <> None.
Proof.
  induction n as [|n IH]; intros s p H.
  - cbn in H. rewrite (strings_HasPrefix_index _ _ H). discriminate.
  - destruct s as [|c s].
    + cbn in H. rewrite (strings_HasPrefix_index _ _ H). discriminate.
    + cbn [str_drop] in H. cbn [index_of].
      destruct (strings_HasPrefix (String c s) p); [discriminate|].
      specialize (IH s p H). destruct (index_of s p); [discriminate|].
      congruence.
Qed.

Lemma split_snapshot_prefix (parentName q : string) :
  free_of "@" q = true ->
  strings_HasPrefix parentName q = true ->
  strings_HasPrefix (fst (split_snapshot parentName)) q = true.
Proof.
  intros Hfree H. unfold split_snapshot.
  destruct (1 <? Z.of_nat (length (strings_Split parentName "@")));
    [|exact H].
  cbn [fst]. set (snapName := List.last (strings_Split parentName "@") "").
  destruct (strings_HasSuffix parentName ("@" +:+ snapName)) eqn:Hsuf.
  - pose proof (strings_HasSuffix_split _ _ Hsuf) as Heq.
    rewrite Heq in H.
    exact (strings_HasPrefix_before "@" q Hfree _ snapName H).
  - unfold strings_TrimSuffix. rewrite Hsuf. exact H.
Qed.

(** After a name that starts with [zombie ++ t], or with [t], the cut
    at [t] has two parts. *)
Lemma after_prefix_returns (parentName zombie t : string) :
  free_of "@" (zombie +:+ t) = true ->
  free_of "@" t = true ->
  strings_HasPrefix parentName t
  || strings_HasPrefix parentName (zombie +:+ t) = true ->
  exists rest, after_prefix (fst (split_snapshot parentName)) t = Returns rest.
Proof.
  intros Hfz Hft H. unfold after_prefix.
  assert (Hfound : index_of (fst (split_snapshot parentName)) t <> None).
  { apply orb_true_iff in H. destruct H as [H|H].
    - apply (index_of_found 0). cbn [str_drop].
      apply split_snapshot_prefix; assumption.
    - apply (index_of_found (String.length zombie)).
      pose proof (split_snapshot_prefix _ _ Hfz H) as Hp.
      rewrite strings_HasPrefix_app in Hp.
      apply andb_true_iff in Hp. exact (proj2 Hp). }
  destruct (index_of (fst (split_snapshot parentName)) t) as [m|] eqn:Hidx;
    [|congruence].
  rewrite (strings_SplitN_2_some _ _ _ Hidx). eexists. reflexivity.
Qed.

Section DecoderFacts.
Context {externals : Externals}.

(** [parseParent] returns for every input: with a volume, or with one
    of its two errors. *)
Theorem parseParent_returns (parent : string) :
  exists r, parseParent parent = Returns r.
Proof.
  unfold parseParent.
  destruct (strings_SplitN parent "/" 2) as [|pool [|parentName [|x l]]];
    try (eexists; reflexivity).
  destruct (strings_HasPrefix parentName "image_"
            || strings_HasPrefix parentName "zombie_image_") eqn:Hi.
  { destruct (after_prefix_returns parentName "zombie_" "image_"
                eq_refl eq_refl Hi) as [rest Hrest].
    destruct (split_snapshot parentName) as [name snapName].
    cbn [fst] in Hrest. rewrite Hrest.
    destruct (strings_HasSuffix rest ".block");
      match goal with
      | |- context [strings_Contains ?n "_"] =>
          destruct (strings_Contains n "_")
      end; eexists; reflexivity. }
  destruct (strings_HasPrefix parentName "custom_"
            || strings_HasPrefix parentName "zombie_custom_") eqn:Hc.
  { destruct (after_prefix_returns parentName "zombie_" "custom_"
                eq_refl eq_refl Hc) as [rest Hrest].
    destruct (split_snapshot parentName) as [name snapName].
    cbn [fst] in Hrest. rewrite Hrest.
    destruct (strings_HasSuffix rest ".block");
      [|destruct (strings_HasSuffix rest ".iso")]; eexists; reflexivity. }
  destruct (strings_HasPrefix parentName "container_"
            || strings_HasPrefix parentName "zombie_container_") eqn:Hk.
  { destruct (after_prefix_returns parentName "zombie_" "container_"
                eq_refl eq_refl Hk) as [rest Hrest].
    destruct (split_snapshot parentName) as [name snapName].
    cbn [fst] in Hrest. rewrite Hrest.
    destruct (strings_HasSuffix rest ".block"); eexists; reflexivity. }
  destruct (strings_HasPrefix parentName "virtual-machine_"
            || strings_HasPrefix parentName "zombie_virtual-machine_") eqn:Hv.
  { destruct (after_prefix_returns parentName "zombie_" "virtual-machine_"
                eq_refl eq_refl Hv) as [rest Hrest].
    destruct (split_snapshot parentName) as [name snapName].
    cbn [fst] in Hrest. rewrite Hrest.
    destruct (strings_HasSuffix rest ".block"); eexists; reflexivity. }
  eexists. reflexivity.
Qed.


End DecoderFacts.


(** The clone decoder does not look at the type word: it cuts at the
    first underscore and returns whatever stands before it. *)
Example parseClone_any_type :
  parseClone "pool/snapshot_c1" = ("pool", "snapshot", "c1", false, None).
Proof. reflexivity. Qed.

(** ** Runs *)

Lemma bind_Done {B A C : Type} (m : M B A) (k : A -> M B C)
    (w w' : World B) (a : A) :
  m w = Done a w' -> bind m k w = k a w'.
Proof. intros H. unfold bind. rewrite H. reflexivity. Qed.

Section CommandFacts.
Context {B : Type} {backend_ops : Backend B}.

Lemma RunCommand_eq (name : string) (args : list string) (w : World B)
    (out : string) (err : option error) (b' : B) :
  run_command name args (backend w) = ((out, err), b') ->
  RunCommand name args w
  = Done (out, err) (mkWorld b' (log w ++ [EvRun name args])).
Proof. intros H. unfold RunCommand. rewrite H. reflexivity. Qed.

Lemma command_outcomes_app (name : string) (args : list string)
    (n m : nat) (b : B) :
  command_outcomes name args (n + m) b
  = command_outcomes name args n b
    ++ command_outcomes name args m (backend_after name args n b).
Proof.
  revert b. induction n as [|n IH]; intros b; simpl; [reflexivity|].
  destruct (run_command name args b) as [[out e] b']. simpl.
  rewrite IH. reflexivity.
Qed.

Lemma command_outcomes_length (name : string) (args : list string)
    (n : nat) (b : B) :
  length (command_outcomes name args n b) = n.
Proof.
  revert b. induction n as [|n IH]; intros b; simpl; [reflexivity|].
  destruct (run_command name args b) as [[out e] b']. simpl.
  rewrite IH. reflexivity.
Qed.

Lemma backend_after_add (name : string) (args : list string) (n m : nat)
    (b : B) :
  backend_after name args (n + m) b
  = backend_after name args m (backend_after name args n b).
Proof.
  revert b. induction n as [|n IH]; intros b; [reflexivity|].
  cbn [Nat.add backend_after]. apply IH.
Qed.

(** Outcomes known up to some point: a prefix of errors, then more. *)
Lemma command_outcomes_split (name : string) (args : list string)
    (es : list error) (rest : list (option error)) (b : B) :
  command_outcomes name args (length es + length rest) b
  = map Some es ++ rest ->
  command_outcomes name args (length es) b = map Some es
  /\ command_outcomes name args (length rest)
       (backend_after name args (length es) b) = rest.
Proof.
  rewrite command_outcomes_app. intros Heq.
  apply app_inj_1 in Heq; [exact Heq|].
  rewrite command_outcomes_length, length_map. reflexivity.
Qed.

Lemma command_outcomes_1 (name : string) (args : list string) (b : B)
    (x : option error) (rest : list (option error)) (n : nat) :
  command_outcomes name args (S n) b = x :: rest ->
  exists out,
    run_command name args b = ((out, x), backend_after name args 1 b)
    /\ command_outcomes name args n (backend_after name args 1 b) = rest.
Proof.
  cbn [command_outcomes backend_after].
  destruct (run_command name args b) as [[out e] b'].
  intros [= -> Hrest]. exists out. split; [reflexivity | exact Hrest].
Qed.
End CommandFacts.

(** ** Unmapping *)

Section Unmap.
Context {B : Type} {backend_ops : Backend B} {externals : Externals}.
Variable d : ceph.

(** A command answered busy below the cap costs one round. *)
Lemma rbdUnmapVolume_again_busy (fuel : nat) (rbdVol : string) (flag : bool)
    (busyCount : Z) (od : bool) (b b' : B) (l : list event)
    (out : string) (e : error) :
  run_command "rbd" (unmap_args d rbdVol) b = ((out, Some e), b') ->
  is_busy e -> busyCount + 1 <> 10 ->
  rbdUnmapVolume_again d (S fuel) rbdVol flag busyCount od (mkWorld b l)
  = rbdUnmapVolume_again d fuel rbdVol flag (busyCount + 1) od
      (mkWorld b' (l ++ retry_log (unmap_args d rbdVol) 1)).
Proof.
  intros Hrun Hbusy Hcap. cbn [rbdUnmapVolume_again].
  rewrite (bind_Done _ _ _ _ _ (RunCommand_eq _ _ (mkWorld b l) _ _ _ Hrun)).
  cbv beta iota. rewrite Hbusy. cbv beta iota.
  change (16 =? 22) with false. change (16 =? 16) with true. cbv beta iota.
  apply Z.eqb_neq in Hcap. rewrite Hcap.
  unfold bind at 1, Sleep. cbn [backend log].
  unfold retry_log. cbn [repeat concat]. rewrite app_nil_r.
  rewrite <- app_assoc. reflexivity.
Qed.

(** Any number of busy answers that stays below the cap is retried. *)
Lemma rbdUnmapVolume_again_busy_prefix (es : list error) :
  forall (fuel : nat) (rbdVol : string) (flag : bool) (busyCount : Z)
         (od : bool) (b : B) (l : list event),
    Forall is_busy es ->
    busyCount + Z.of_nat (length es) < 10 ->
    command_outcomes "rbd" (unmap_args d rbdVol) (length es) b = map Some es ->
    rbdUnmapVolume_again d (length es + fuel) rbdVol flag busyCount od
      (mkWorld b l)
    = rbdUnmapVolume_again d fuel rbdVol flag
        (busyCount + Z.of_nat (length es)) od
        (mkWorld (backend_after "rbd" (unmap_args d rbdVol) (length es) b)
           (l ++ retry_log (unmap_args d rbdVol) (length es))).
Proof.
  induction es as [|e es IH]; intros fuel rbdVol flag bc od b l Hall Hcap Hout.
  - cbn [length Nat.add backend_after retry_log repeat concat].
    rewrite app_nil_r, Z.add_0_r. reflexivity.
  - inversion Hall as [|? ? He Hes]; subst.
    cbn [length command_outcomes map] in Hout.
    destruct (run_command "rbd" (unmap_args d rbdVol) b) as [[out oe] b'] eqn:Hrun.
    injection Hout as -> Hout.
    cbn [length] in Hcap.
    cbn [length Nat.add].
    rewrite (rbdUnmapVolume_again_busy _ _ _ _ _ _ _ _ _ _ Hrun He) by lia.
    rewrite IH; [|assumption|lia|assumption].
    cbn [backend_after]. rewrite Hrun. cbn [snd].
    unfold retry_log. cbn [repeat concat].
    rewrite <- !app_assoc.
    replace (bc + 1 + Z.of_nat (length es)) with (bc + Z.of_nat (S (length es))) by lia.
    reflexivity.
Qed.

(** After a success, the repeat-until-unmapped mode issues the
    command again; the count of busy answers is kept. *)
Lemma rbdUnmapVolume_again_success (fuel : nat) (rbdVol : string)
    (busyCount : Z) (od : bool) (w : World B) (out : string) (b' : B) :
  run_command "rbd" (unmap_args d rbdVol) (backend w) = ((out, None), b') ->
  rbdUnmapVolume_again d (S fuel) rbdVol true busyCount od w
  = rbdUnmapVolume_again d fuel rbdVol true busyCount true
      (mkWorld b' (log w ++ [EvRun "rbd" (unmap_args d rbdVol)])).
Proof.
  intros Hrun. cbn [rbdUnmapVolume_again].
  erewrite bind_Done by (apply RunCommand_eq; exact Hrun). reflexivity.
Qed.

(** An unmap command that reports [EINVAL] ends the call with
    success, whatever the flag and the state of the retry loop. *)
Lemma rbdUnmapVolume_again_einval (fuel : nat) (rbdVol : string)
    (flag : bool) (busyCount : Z) (od : bool) (w : World B)
    (out : string) (e : error) (b' : B) :
  run_command "rbd" (unmap_args d rbdVol) (backend w) = ((out, Some e), b') ->
  is_einval e ->
  rbdUnmapVolume_again d (S fuel) rbdVol flag busyCount od w
  = Done None (mkWorld b' (log w ++ [EvRun "rbd" (unmap_args d rbdVol)])).
Proof.
  intros Hrun He. cbn [rbdUnmapVolume_again].
  erewrite bind_Done by (apply RunCommand_eq; exact Hrun).
  cbv beta iota. rewrite He. reflexivity.
Qed.

(** C6.  Nine busy answers followed by a success: without the
    repeat-until-unmapped flag the call returns no error after exactly
    ten commands and nine pauses; with the flag it goes on after the
    success and returns no error when the next command reports
    [EINVAL].  Nine busy answers followed by a tenth busy answer: the
    call, with either flag, returns the error of the tenth command, and
    that command is the last one it issues. *)
Theorem rbdUnmapVolume_busy_retry (vol : Volume) (w : World B)
    (es : list error) (fuel : nat) :
  let cmd := unmap_args d (getRBDVolumeName d vol "" false) in
  length es = 9%nat -> Forall is_busy es -> (11 <= fuel)%nat ->
  (command_outcomes "rbd" cmd 10 (backend w) = map Some es ++ [None] ->
     rbdUnmapVolume d fuel vol false w
     = Done None
         (mkWorld (backend_after "rbd" cmd 10 (backend w))
            (log w ++ retry_log cmd 9 ++ [EvRun "rbd" cmd])))
  /\ (forall e : error,
        is_einval e ->
        command_outcomes "rbd" cmd 11 (backend w)
        = map Some es ++ [None; Some e] ->
        rbdUnmapVolume d fuel vol true w
        = Done None
            (mkWorld (backend_after "rbd" cmd 11 (backend w))
               (log w ++ retry_log cmd 9
                ++ [EvRun "rbd" cmd; EvRun "rbd" cmd])))
  /\ (forall (e : error) (flag : bool),
        is_busy e ->
        command_outcomes "rbd" cmd 10 (backend w) = map Some es ++ [Some e] ->
        rbdUnmapVolume d fuel vol flag w
        = Done (Some e)
            (mkWorld (backend_after "rbd" cmd 10 (backend w))
               (log w ++ retry_log cmd 9 ++ [EvRun "rbd" cmd]))).
Proof.
  intros cmd Hlen Hall Hfuel. destruct w as [b l]. cbn [backend log].
  set (rbdVol := getRBDVolumeName d vol "" false) in *.
  set (b9 := backend_after "rbd" cmd 9 b).
  assert (Hf : fuel = (length es + S (S (fuel - 11)))%nat) by lia.
  assert (Hprefix : forall flag,
             command_outcomes "rbd" cmd (length es) b = map Some es ->
             rbdUnmapVolume d fuel vol flag (mkWorld b l)
             = rbdUnmapVolume_again d (S (S (fuel - 11))) rbdVol flag 9 false
                 (mkWorld b9 (l ++ retry_log cmd 9))).
  { intros flag H9. unfold rbdUnmapVolume. fold rbdVol. rewrite Hf at 1.
    rewrite (rbdUnmapVolume_again_busy_prefix es); [|assumption|lia|exact H9].
    rewrite Hlen. reflexivity. }
  assert (Hcut : forall rest,
             command_outcomes "rbd" cmd (9 + length rest) b
             = map Some es ++ rest ->
             command_outcomes "rbd" cmd (length es) b = map Some es
             /\ command_outcomes "rbd" cmd (length rest) b9 = rest).
  { intros rest Hout. rewrite <- Hlen in Hout.
    apply command_outcomes_split in Hout. rewrite Hlen in Hout at 2.
    exact Hout. }
  split; [|split].
  - intros Hout. destruct (Hcut [None] Hout) as [H9 Hrest].
    destruct (command_outcomes_1 _ _ _ _ _ _ Hrest) as (out & Hrun & _).
    rewrite (Hprefix false H9). cbn [rbdUnmapVolume_again].
    erewrite bind_Done by (apply RunCommand_eq; exact Hrun).
    cbv beta iota. cbn [log].
    rewrite (backend_after_add "rbd" cmd 9 1 b), <- app_assoc. reflexivity.
  - intros e He Hout. destruct (Hcut [None; Some e] Hout) as [H9 Hrest].
    destruct (command_outcomes_1 _ _ _ _ _ _ Hrest) as (out & Hrun & Hrest').
    destruct (command_outcomes_1 _ _ _ _ _ _ Hrest') as (out' & Hrun' & _).
    rewrite (Hprefix true H9).
    erewrite rbdUnmapVolume_again_success by (cbn [backend]; exact Hrun).
    erewrite rbdUnmapVolume_again_einval;
      [|cbn [backend]; exact Hrun'|exact He].
    cbn [log].
    change 11%nat with (9 + 1 + 1)%nat.
    rewrite !backend_after_add, <- !app_assoc. reflexivity.
  - intros e flag He Hout. destruct (Hcut [Some e] Hout) as [H9 Hrest].
    destruct (command_outcomes_1 _ _ _ _ _ _ Hrest) as (out & Hrun & _).
    rewrite (Hprefix flag H9). cbn [rbdUnmapVolume_again].
    erewrite bind_Done by (apply RunCommand_eq; exact Hrun).
    cbv beta iota. rewrite He. cbv beta iota.
    change (16 =? 22) with false. change (16 =? 16) with true.
    change (9 + 1 =? 10) with true. cbv beta iota. cbn [log].
    rewrite (backend_after_add "rbd" cmd 9 1 b), <- app_assoc. reflexivity.
Qed.


End Unmap.

Lemma rbdUnmapVolume_busy_retry_witness :
  rbdUnmapVolume sample_ceph 11 (sample_volume "c1" false) false
    (scripted (repeat (exits 16) 9 ++ [ok ""]) [])
  = Done None
      (mkWorld (mkScript [] [] ([], None) [])
         (retry_log (unmap_args sample_ceph "container_c1") 9
          ++ [EvRun "rbd" (unmap_args sample_ceph "container_c1")]))
  /\ rbdUnmapVolume sample_ceph 11 (sample_volume "c1" false) true
       (scripted (repeat (exits 16) 9 ++ [ok ""; exits 22]) [])
     = Done None
         (mkWorld (mkScript [] [] ([], None) [])
            (retry_log (unmap_args sample_ceph "container_c1") 9
             ++ [EvRun "rbd" (unmap_args sample_ceph "container_c1");
                 EvRun "rbd" (unmap_args sample_ceph "container_c1")]))
  /\ rbdUnmapVolume sample_ceph 11 (sample_volume "c1" false) true
       (scripted (repeat (exits 16) 10 ++ [exits 22]) [])
     = Done (Some (RunError (Some 16) ""))
         (mkWorld (mkScript [exits 22] [] ([], None) [])
            (retry_log (unmap_args sample_ceph "container_c1") 9
             ++ [EvRun "rbd" (unmap_args sample_ceph "container_c1")])).
Proof.
  assert (Hbusy : Forall is_busy (repeat (RunError (Some 16) "") 9))
    by (repeat constructor).
  split; [|split].
  - exact (proj1 (rbdUnmapVolume_busy_retry sample_ceph
                    (sample_volume "c1" false)
                    (scripted (repeat (exits 16) 9 ++ [ok ""]) [])
                    (repeat (RunError (Some 16) "") 9) 11
                    eq_refl Hbusy (le_n 11)) eq_refl).
  - exact (proj1 (proj2 (rbdUnmapVolume_busy_retry sample_ceph
                           (sample_volume "c1" false)
                           (scripted (repeat (exits 16) 9 ++ [ok ""; exits 22])
                              [])
                           (repeat (RunError (Some 16) "") 9) 11
                           eq_refl Hbusy (le_n 11)))
             (RunError (Some 22) "") eq_refl eq_refl).
  - exact (proj2 (proj2 (rbdUnmapVolume_busy_retry sample_ceph
                           (sample_volume "c1" false)
                           (scripted (repeat (exits 16) 10 ++ [exits 22]) [])
                           (repeat (RunError (Some 16) "") 9) 11
                           eq_refl Hbusy (le_n 11)))
             (RunError (Some 16) "") true eq_refl eq_refl).
Defined.



(** ** Listing snapshots and clones *)

Section Listing.
Context {B : Type} {backend_ops : Backend B} {externals : Externals}.
Variable d : ceph.

(** Both listings always return. *)
Lemma listings_return (vol : Volume) (snapshotName : string) (w : World B) :
  (exists r w', rbdListVolumeSnapshots d vol w = Done r w')
  /\ (exists r w', rbdListSnapshotClones d vol snapshotName w = Done r w').
Proof.
  split.
  - unfold rbdListVolumeSnapshots, bind, RunCommand.
    destruct (run_command _ _ (backend w)) as [[msg [e|]] b']; [eexists _, _; reflexivity|].
    destruct (json_Unmarshal msg) as [data [e|]]; [eexists _, _; reflexivity|].
    destruct (snapshot_names data []); [|eexists _, _; reflexivity].
    destruct (Z.of_nat (length l) =? 0); eexists _, _; reflexivity.
  - unfold rbdListSnapshotClones, bind, RunCommand.
    destruct (run_command _ _ (backend w)) as [[msg [e|]] b']; [eexists _, _; reflexivity|].
    cbv beta iota zeta.
    destruct (Z.of_nat (length _) =? 0); eexists _, _; reflexivity.
Qed.

(** C10.  A listing that returns no error returns at least one name;
    when the decoded snapshot array is empty, or the output of the
    children command has no field, the listing returns its not-found
    error, which [IsNotFoundError] recognises. *)
Theorem listings_never_empty (vol : Volume) (snapshotName : string)
    (w : World B) :
  (forall snaps w',
      rbdListVolumeSnapshots d vol w = Done (snaps, None) w' -> snaps <> [])
  /\ (forall clones w',
        rbdListSnapshotClones d vol snapshotName w = Done (clones, None) w' ->
        clones <> [])
  /\ (forall msg b',
        run_command "rbd"
          (rbd_pool_args d
           ++ ["--format"; "json"; "snap"; "ls"; getRBDVolumeName d vol "" false])
          (backend w) = ((msg, None), b') ->
        json_Unmarshal msg = ([], None) ->
        exists w',
          rbdListVolumeSnapshots d vol w
          = Done ([], Some snapshots_not_found) w'
          /\ IsNotFoundError snapshots_not_found = true)
  /\ (forall msg b',
        run_command "rbd"
          (rbd_pool_args d
           ++ ["children"; "--image"; getRBDVolumeName d vol "" false;
               "--snap"; snapshotName])
          (backend w) = ((msg, None), b') ->
        strings_Fields (strings_TrimSpace msg) = [] ->
        exists w',
          rbdListSnapshotClones d vol snapshotName w
          = Done ([], Some clones_not_found) w'
          /\ IsNotFoundError clones_not_found = true).
Proof.
  repeat split.
  - intros snaps w'. unfold rbdListVolumeSnapshots, bind, RunCommand.
    destruct (run_command _ _ (backend w)) as [[msg [e|]] b']; [discriminate|].
    destruct (json_Unmarshal msg) as [data [e|]]; [discriminate|].
    destruct (snapshot_names data []) as [l|e]; [|discriminate].
    destruct l as [|x l]; [discriminate|].
    cbn [length]. destruct (Z.of_nat (S (length l)) =? 0); [discriminate|].
    intros [= <- _]. discriminate.
  - intros clones w'. unfold rbdListSnapshotClones, bind, RunCommand.
    destruct (run_command _ _ (backend w)) as [[msg [e|]] b']; [discriminate|].
    cbv beta iota zeta.
    destruct (strings_Fields (strings_TrimSpace msg)) as [|x l]; [discriminate|].
    cbn [length]. destruct (Z.of_nat (S (length l)) =? 0); [discriminate|].
    intros [= <- _]. discriminate.
  - intros msg b' Hrun Hjson. eexists. split; [|reflexivity].
    unfold rbdListVolumeSnapshots.
    erewrite bind_Done by (apply RunCommand_eq; exact Hrun).
    cbv beta iota. rewrite Hjson. reflexivity.
  - intros msg b' Hrun Hfields. eexists. split; [|reflexivity].
    unfold rbdListSnapshotClones.
    erewrite bind_Done by (apply RunCommand_eq; exact Hrun).
    cbv beta iota zeta. rewrite Hfields. reflexivity.
Qed.
End Listing.

Lemma listings_never_empty_witness :
  [ "snap0"; "snap1" ] <> []
  /\ [ "pool/container_c2" ] <> []
  /\ (exists w',
        rbdListVolumeSnapshots sample_ceph (sample_volume "c1" false)
          (scripted [ok "[]"] [])
        = Done ([], Some snapshots_not_found) w'
        /\ IsNotFoundError snapshots_not_found = true)
  /\ (exists w',
        rbdListSnapshotClones sample_ceph (sample_volume "c1" false) "snap0"
          (scripted [ok ""] [])
        = Done ([], Some clones_not_found) w'
        /\ IsNotFoundError clones_not_found = true).
Proof.
  pose proof (listings_never_empty sample_ceph (sample_volume "c1" false) "snap0"
                (scripted [ok (sample_json ["snap0"; "snap1"])] [])) as H1.
  pose proof (listings_never_empty sample_ceph (sample_volume "c1" false) "snap0"
                (scripted [ok "pool/container_c2"] [])) as H2.
  pose proof (listings_never_empty sample_ceph (sample_volume "c1" false) "snap0"
                (scripted [ok "[]"] [])) as H3.
  pose proof (listings_never_empty sample_ceph (sample_volume "c1" false) "snap0"
                (scripted [ok ""] [])) as H4.
  split; [|split; [|split]].
  - exact (proj1 H1 _ _ eq_refl).
  - exact (proj1 (proj2 H2) _ _ eq_refl).
  - exact (proj1 (proj2 (proj2 H3)) "[]" _ eq_refl eq_refl).
  - exact (proj2 (proj2 (proj2 H4)) "" _ eq_refl eq_refl).
Defined.

(** ** The deletion walk *)

Section WalkFacts.
Context {B : Type} {backend_ops : Backend B} {externals : Externals}.
Variable d : ceph.

Lemma deleteVolume_S (fuel : nat) (vol : Volume) :
  deleteVolume d (S fuel) vol
  = deleteVolume_body d fuel (deleteVolumeSnapshot d fuel) vol.
Proof. reflexivity. Qed.

Lemma deleteVolumeSnapshot_S (fuel : nat) (vol : Volume) (snap : string) :
  deleteVolumeSnapshot d (S fuel) vol snap
  = deleteVolumeSnapshot_body d fuel (deleteVolume d fuel) vol snap.
Proof. reflexivity. Qed.

(** One step of symbolic execution: the next call is the one that the
    hypothesis describes. *)
Ltac run_step H :=
  erewrite bind_Done by (exact H); cbv beta iota zeta.





(** The loop over removable clones leaves [canDelete] as it was. *)
Lemma for_range_clones (fuel : nat) (vol : Volume) (clones : list string)
    (w1 w2 : World B) :
  clones_removed d fuel vol clones w1 w2 ->
  forall canDelete : bool,
    for_range clones
      (deleteVolumeSnapshot_each_clone d (deleteVolume d fuel) vol) canDelete w1
    = Done (Continue canDelete) w2.
Proof.
  induction 1 as [w|clone clones pn ct cn w w1 w2 r e Hparse Hcall Hr Hr1 _ IH];
    intros canDelete.
  - reflexivity.
  - cbn [for_range]. unfold deleteVolumeSnapshot_each_clone at 1.
    rewrite Hparse. cbv beta iota zeta. cbn [negb].
    unfold bind at 1. unfold bind at 1.
    fold (zombie_clone d vol ct cn). rewrite Hcall. cbv beta iota.
    assert (Hneg : (r <? 0) = false) by (apply Z.ltb_ge; exact Hr).
    assert (Hone : (r =? 1) = false) by (apply Z.eqb_neq; exact Hr1).
    rewrite Hneg, Hone. unfold ret at 1. cbv beta iota. apply IH.
Qed.

(** What the helpers add to the log. *)
Lemma rbdDeleteVolume_log (vol : Volume) (w w' : World B) (r : option error) :
  rbdDeleteVolume d vol w = Done r w' -> log_since w w' [rm_event d vol].
Proof.
  unfold rbdDeleteVolume, bind, RunCommand, log_since, rm_event.
  destruct (run_command _ _ (backend w)) as [[out e] b'].
  intros [= _ <-]. reflexivity.
Qed.

Lemma rbdDeleteVolumeSnapshot_log (vol : Volume) (snap : string)
    (w w' : World B) (r : option error) :
  rbdDeleteVolumeSnapshot d vol snap w = Done r w' ->
  log_since w w' [snap_rm_event d vol snap].
Proof.
  unfold rbdDeleteVolumeSnapshot, bind, RunCommand, log_since, snap_rm_event.
  destruct (run_command _ _ (backend w)) as [[out e] b'].
  intros [= _ <-]. reflexivity.
Qed.



Lemma rm_not_mark (vol : Volume) (a b : string) :
  rm_event d vol <> EvRun "rbd" (rbd_cluster_args d ++ ["mv"; a; b]).
Proof.
  unfold rm_event, rbd_pool_args, rbd_cluster_args. cbn [app].
  intros Heq. discriminate Heq.
Qed.

Lemma rm_not_mark_event (vol : Volume) (newVolumeName : string) :
  rm_event d vol <> mark_event d vol newVolumeName.
Proof. apply rm_not_mark. Qed.


Lemma NewUUID_log (w w' : World B) (u : string) :
  NewUUID w = Done u w' -> log w' = log w.
Proof.
  unfold NewUUID. destruct (uuid_New (backend w)) as [u' b'].
  intros [= _ <-]. reflexivity.
Qed.


(** C5.  No snapshots (the listing gives a not-found error) and a
    parent reported by the backend that decodes: the volume is unmapped
    and removed; then, if the parent volume is a zombie or the parent
    snapshot carries the zombie prefix, [deleteVolumeSnapshot] is called
    on the parent and only its failure changes the result; otherwise
    the call returns 0 right after the [rm] of the volume itself, with
    nothing issued against the parent. *)
Theorem deleteVolume_clone_without_snapshots (fuel : nat) (vol : Volume)
    (w0 w1 w2 w3 w4 : World B) (snaps : list string) (e : error)
    (parent : string) (parentVol : Volume) (parentSnapshotName : string) :
  rbdListVolumeSnapshots d vol w0 = Done (snaps, Some e) w1 ->
  IsNotFoundError e = true ->
  rbdGetVolumeParent d vol w1 = Done (parent, None) w2 ->
  parseParent parent = Returns (parentVol, parentSnapshotName, None) ->
  rbdUnmapVolume d fuel vol true w2 = Done None w3 ->
  rbdDeleteVolume d vol w3 = Done None w4 ->
  log_since w3 w4 [rm_event d vol]
  /\ (vol_isDeleted parentVol
      || strings_HasPrefix parentSnapshotName "zombie_" = true ->
      deleteVolume d (S fuel) vol w0
      = match deleteVolumeSnapshot d fuel parentVol parentSnapshotName w4 with
        | Done (r, err) w5 =>
            if r <? 0 then Done (-1, err) w5 else Done (0, None) w5
        | OutOfFuel => OutOfFuel
        | Panicked => Panicked
        end)
  /\ (vol_isDeleted parentVol
      || strings_HasPrefix parentSnapshotName "zombie_" = false ->
      deleteVolume d (S fuel) vol w0 = Done (0, None) w4).
Proof.
  intros Hlist Hnf Hparent Hparse Hunmap Hrm.
  assert (Hstart : deleteVolume d (S fuel) vol w0
                   = (if vol_isDeleted parentVol
                         || strings_HasPrefix parentSnapshotName "zombie_"
                      then
                        let* (ret_, err) :=
                          deleteVolumeSnapshot d fuel parentVol
                            parentSnapshotName in
                        if ret_ <? 0 then ret (-1, err) else ret (0, None)
                      else ret (0, None)) w4).
  { rewrite deleteVolume_S. unfold deleteVolume_body.
    run_step Hlist. rewrite Hnf. cbn [negb].
    run_step Hparent. rewrite Hparse.
    run_step Hunmap. run_step Hrm. reflexivity. }
  split; [exact (rbdDeleteVolume_log _ _ _ _ Hrm)|]. split.
  - intros Hz. rewrite Hstart, Hz. unfold bind.
    destruct (deleteVolumeSnapshot d fuel parentVol parentSnapshotName w4)
      as [[r err] w5| |]; try reflexivity.
    destruct (r <? 0); reflexivity.
  - intros Hz. rewrite Hstart, Hz. reflexivity.
Qed.

(** What [deleteVolumeSnapshot] does once every clone turned out to be
    removable: the snapshot is unprotected, unmapped and removed, a
    zombie owner is deleted in cascade, and the return code is 1. *)
Lemma deleteVolumeSnapshot_removable_clones (fuel : nat) (vol : Volume)
    (snapshotName : string) (w0 w1 w2 w3 w4 w5 : World B)
    (clones : list string) :
  rbdListSnapshotClones d vol snapshotName w0 = Done (clones, None) w1 ->
  clones_removed d fuel vol clones w1 w2 ->
  rbdUnprotectVolumeSnapshot d vol snapshotName w2 = Done None w3 ->
  rbdUnmapVolumeSnapshot d fuel vol snapshotName true w3 = Done None w4 ->
  rbdDeleteVolumeSnapshot d vol snapshotName w4 = Done None w5 ->
  (vol_isDeleted vol = false ->
   deleteVolumeSnapshot d (S fuel) vol snapshotName w0 = Done (1, None) w5)
  /\ (vol_isDeleted vol = true ->
      forall r err w6,
        deleteVolume d fuel vol w5 = Done (r, err) w6 -> 0 <= r ->
        deleteVolumeSnapshot d (S fuel) vol snapshotName w0
        = Done (1, None) w6).
Proof.
  intros Hlist Hclones Hunprotect Hunmap Hrm.
  pose proof (for_range_clones _ _ _ _ _ Hclones true) as Hloop.
  assert (Hstart : deleteVolumeSnapshot d (S fuel) vol snapshotName w0
                   = (if vol_isDeleted vol then
                        let* (ret_, err) := deleteVolume d fuel vol in
                        if ret_ <? 0 then ret (-1, err) else ret (1, None)
                      else ret (1, None)) w5).
  { rewrite deleteVolumeSnapshot_S. unfold deleteVolumeSnapshot_body.
    run_step Hlist. run_step Hloop.
    run_step Hunprotect. run_step Hunmap. run_step Hrm. reflexivity. }
  split.
  - intros Hz. rewrite Hstart, Hz. reflexivity.
  - intros Hz r err w6 Hcascade Hr. rewrite Hstart, Hz.
    run_step Hcascade.
    assert (Hneg : (r <? 0) = false) by (apply Z.ltb_ge; exact Hr).
    rewrite Hneg. reflexivity.
Qed.

(** C2, as the code has it.  No clones (the listing gives a not-found
    error) and the snapshot is unprotected, unmapped and removed.  If
    the owning volume is not a zombie the result is 0 (deleted).  If it
    is a zombie, [deleteVolume] is called on it: a failure of that call
    is returned as the failure of the snapshot deletion, with its
    error; any other outcome gives 0. *)
Theorem deleteVolumeSnapshot_without_clones (fuel : nat) (vol : Volume)
    (snapshotName : string) (w0 w1 w2 w3 w4 : World B)
    (clones : list string) (e : error) :
  rbdListSnapshotClones d vol snapshotName w0 = Done (clones, Some e) w1 ->
  IsNotFoundError e = true ->
  rbdUnprotectVolumeSnapshot d vol snapshotName w1 = Done None w2 ->
  rbdUnmapVolumeSnapshot d fuel vol snapshotName true w2 = Done None w3 ->
  rbdDeleteVolumeSnapshot d vol snapshotName w3 = Done None w4 ->
  log_since w3 w4 [snap_rm_event d vol snapshotName]
  /\ (vol_isDeleted vol = false ->
      deleteVolumeSnapshot d (S fuel) vol snapshotName w0 = Done (0, None) w4)
  /\ (vol_isDeleted vol = true ->
      forall r err w5,
        deleteVolume d fuel vol w4 = Done (r, err) w5 ->
        deleteVolumeSnapshot d (S fuel) vol snapshotName w0
        = if r <? 0 then Done (-1, err) w5 else Done (0, None) w5).
Proof.
  intros Hlist Hnf Hunprotect Hunmap Hrm.
  assert (Hstart : deleteVolumeSnapshot d (S fuel) vol snapshotName w0
                   = (if vol_isDeleted vol then
                        let* (ret_, err) := deleteVolume d fuel vol in
                        if ret_ <? 0 then ret (-1, err) else ret (0, None)
                      else ret (0, None)) w4).
  { rewrite deleteVolumeSnapshot_S. unfold deleteVolumeSnapshot_body.
    run_step Hlist. rewrite Hnf. cbn [negb].
    run_step Hunprotect. run_step Hunmap. run_step Hrm. reflexivity. }
  split; [exact (rbdDeleteVolumeSnapshot_log _ _ _ _ _ Hrm)|]. split.
  - intros Hz. rewrite Hstart, Hz. reflexivity.
  - intros Hz r err w5 Hcascade. rewrite Hstart, Hz.
    run_step Hcascade. destruct (r <? 0); reflexivity.
Qed.
End WalkFacts.

(** ** Outcomes of the walk *)

Section WalkOutcomes.
Context {B : Type} {backend_ops : Backend B} {externals : Externals}.
Variable d : ceph.

Lemma safe_ret {A : Type} (P : A -> Prop) (a : A) :
  P a -> safe (B := B) P (ret a).
Proof. intros H w. exact H. Qed.

Lemma safe_bind {A C : Type} (P : A -> Prop) (Q : C -> Prop)
    (m : M B A) (k : A -> M B C) :
  safe P m -> (forall a, P a -> safe Q (k a)) -> safe Q (bind m k).
Proof.
  intros Hm Hk w. unfold bind. specialize (Hm w).
  destruct (m w) as [a w'| |]; [|exact I|exact Hm].
  exact (Hk a Hm w').
Qed.

Lemma safe_any {A : Type} (P : A -> Prop) (m : M B A) :
  safe P m -> safe (fun _ => True) m.
Proof.
  intros H w. specialize (H w). destruct (m w); [exact I|exact I|exact H].
Qed.

Lemma safe_for_range {X S R : Type} (P : R -> Prop) (xs : list X)
    (body : X -> S -> M B (loop_result R S)) :
  (forall x s,
      safe (fun r => match r with Return r => P r | Continue _ => True end)
        (body x s)) ->
  forall s,
    safe (fun r => match r with Return r => P r | Continue _ => True end)
      (for_range xs body s).
Proof.
  intros Hbody. induction xs as [|x xs IH]; intros s.
  - apply safe_ret. exact I.
  - cbn [for_range]. eapply safe_bind; [apply Hbody|].
    intros [r|s'] Hr; [apply safe_ret; exact Hr | apply IH].
Qed.

Lemma safe_RunCommand (name : string) (args : list string) :
  safe (fun _ => True) (RunCommand name args).
Proof.
  intros w. unfold RunCommand.
  destruct (run_command name args (backend w)) as [r b']. exact I.
Qed.

Lemma safe_NewUUID : safe (B := B) (fun _ => True) NewUUID.
Proof.
  intros w. unfold NewUUID. destruct (uuid_New (backend w)). exact I.
Qed.

Lemma safe_Sleep (seconds : Z) :
  safe (B := B) (fun _ => True) (Sleep seconds).
Proof. intros w. exact I. Qed.

Lemma safe_rbdUnmapVolume_again (fuel : nat) :
  forall rbdVol flag bc od,
    safe (fun _ => True) (rbdUnmapVolume_again d fuel rbdVol flag bc od).
Proof.
  induction fuel as [|fuel IH]; intros rbdVol flag bc od;
    [intros w; exact I|].
  cbn [rbdUnmapVolume_again].
  eapply safe_bind; [apply safe_RunCommand|]. intros [out [e|]] _.
  - destruct (exit_code e) as [code|]; [|apply safe_ret; exact I].
    destruct (code =? 22); [apply safe_ret; exact I|].
    destruct (code =? 16); [|apply safe_ret; exact I]. cbv zeta.
    destruct (bc + 1 =? 10); [apply safe_ret; exact I|].
    eapply safe_bind; [apply safe_Sleep|]. intros _ _. apply IH.
  - destruct flag; [apply IH | apply safe_ret; exact I].
Qed.

Lemma safe_rbdUnmapVolumeSnapshot (fuel : nat) :
  forall vol snap flag,
    safe (fun _ => True) (rbdUnmapVolumeSnapshot d fuel vol snap flag).
Proof.
  induction fuel as [|fuel IH]; intros vol snap flag; [intros w; exact I|].
  cbn [rbdUnmapVolumeSnapshot].
  eapply safe_bind; [apply safe_RunCommand|]. intros [out [e|]] _.
  - destruct (exit_code e) as [code|]; [|apply safe_ret; exact I].
    destruct (code =? 22); apply safe_ret; exact I.
  - destruct flag; [apply IH | apply safe_ret; exact I].
Qed.

Lemma well_coded_failed (c : Z) (e : option error) :
  well_coded (c, e) -> (c <? 0) = true -> well_coded (-1, e).
Proof.
  unfold well_coded. cbn [fst snd]. intros H Hc. apply Z.ltb_lt in Hc.
  left. split; [reflexivity|]. destruct H as [[_ H]|[[H _]|[H _]]];
    [exact H | lia | lia].
Qed.

Lemma well_coded_error (e : error) : well_coded (-1, Some e).
Proof. left. split; [reflexivity | discriminate]. Qed.

Lemma well_coded_deleted : well_coded (0, None).
Proof. right. left. split; reflexivity. Qed.

Lemma well_coded_zombie : well_coded (1, None).
Proof. right. right. split; reflexivity. Qed.

(** Decompose a body along its binds and tests and close the leaves:
    every [return] gives a proper code. *)
Ltac walk_leaves :=
  repeat match goal with
    | |- _ => exact I
    | |- well_coded (-1, Some _) => apply well_coded_error
    | |- well_coded (0, None) => apply well_coded_deleted
    | |- well_coded (1, None) => apply well_coded_zombie
    | |- safe _ (ret _) => apply safe_ret
    | |- safe _ (RunCommand _ _) => apply safe_RunCommand
    | |- safe _ (bind _ _) => eapply safe_bind; [|intros ? ?]
    | |- safe _ (let (_, _) := ?x in _) => destruct x
    | |- safe _ (if ?c then _ else _) => destruct c
    | |- safe _ (match ?x with _ => _ end) => destruct x
    end.

Create HintDb walk.

Lemma safe_rbdListVolumeSnapshots (vol : Volume) :
  safe (fun _ => True) (rbdListVolumeSnapshots d vol).
Proof. unfold rbdListVolumeSnapshots. walk_leaves. Qed.

Lemma safe_rbdListSnapshotClones (vol : Volume) (snap : string) :
  safe (fun _ => True) (rbdListSnapshotClones d vol snap).
Proof. unfold rbdListSnapshotClones. walk_leaves. Qed.

Lemma safe_rbdGetVolumeParent (vol : Volume) :
  safe (fun _ => True) (rbdGetVolumeParent d vol).
Proof. unfold rbdGetVolumeParent. walk_leaves. Qed.

Lemma safe_rbdDeleteVolume (vol : Volume) :
  safe (fun _ => True) (rbdDeleteVolume d vol).
Proof. unfold rbdDeleteVolume. walk_leaves. Qed.

Lemma safe_rbdDeleteVolumeSnapshot (vol : Volume) (snap : string) :
  safe (fun _ => True) (rbdDeleteVolumeSnapshot d vol snap).
Proof. unfold rbdDeleteVolumeSnapshot. walk_leaves. Qed.

Lemma safe_rbdUnprotectVolumeSnapshot (vol : Volume) (snap : string) :
  safe (fun _ => True) (rbdUnprotectVolumeSnapshot d vol snap).
Proof. unfold rbdUnprotectVolumeSnapshot. walk_leaves. Qed.

Lemma safe_rbdMarkVolumeDeleted (vol : Volume) (newVolumeName : string) :
  safe (fun _ => True) (rbdMarkVolumeDeleted d vol newVolumeName).
Proof. unfold rbdMarkVolumeDeleted. walk_leaves. Qed.

Lemma safe_rbdRenameVolumeSnapshot (vol : Volume) (old new : string) :
  safe (fun _ => True) (rbdRenameVolumeSnapshot d vol old new).
Proof. unfold rbdRenameVolumeSnapshot. walk_leaves. Qed.

Lemma safe_rbdUnmapVolume (fuel : nat) (vol : Volume) (flag : bool) :
  safe (fun _ => True) (rbdUnmapVolume d fuel vol flag).
Proof. apply safe_rbdUnmapVolume_again. Qed.

#[local] Hint Resolve safe_rbdListVolumeSnapshots safe_rbdListSnapshotClones
  safe_rbdGetVolumeParent safe_rbdDeleteVolume safe_rbdDeleteVolumeSnapshot
  safe_rbdUnprotectVolumeSnapshot safe_rbdMarkVolumeDeleted
  safe_rbdRenameVolumeSnapshot safe_rbdUnmapVolume
  safe_rbdUnmapVolumeSnapshot safe_NewUUID : walk.

(** The next call is a helper: any result may come back. *)
Ltac helper_step := eapply safe_bind; [solve [eauto with walk]|].

(** The next call is the other function of the walk, whose results are
    coded by the induction hypothesis [IH]; a failure is passed on. *)
Ltac walk_step IH :=
  eapply safe_bind; [apply IH|];
  let c := fresh "c" in
  let err := fresh "err" in
  let Hc := fresh "Hc" in
  let Hneg := fresh "Hneg" in
  intros [c err] Hc;
  destruct (c <? 0) eqn:Hneg;
  [apply safe_ret; exact (well_coded_failed _ _ Hc Hneg)|].

(** X1.  The walk never panics and returns one of the three outcomes:
    -1 with an error, 0 or 1 without. *)
Theorem walk_outcomes (fuel : nat) :
  (forall vol, safe well_coded (deleteVolume d fuel vol))
  /\ (forall vol snap, safe well_coded (deleteVolumeSnapshot d fuel vol snap)).
Proof.
  induction fuel as [|fuel [IHv IHs]]; [split; intros; intros w; exact I|].
  split.
  - intros vol. rewrite deleteVolume_S. unfold deleteVolume_body.
    helper_step. intros [snaps [e|]] _.
    + destruct (negb (IsNotFoundError e)); [walk_leaves|].
      helper_step. intros [parent [e'|]] _.
      * destruct (negb (IsNotFoundError e')); [walk_leaves|].
        helper_step. intros [e''|] _; [walk_leaves|].
        helper_step. intros [e''|] _; walk_leaves.
      * destruct (parseParent_returns parent) as [[[pv psn] perr] ->].
        destruct perr as [pe|]; [walk_leaves|].
        helper_step. intros [e''|] _; [walk_leaves|].
        helper_step. intros [e''|] _; [walk_leaves|].
        destruct (vol_isDeleted pv || strings_HasPrefix psn "zombie_");
          [|walk_leaves].
        walk_step IHs. walk_leaves.
    + eapply safe_bind.
      { apply (safe_for_range well_coded). intros snap z.
        unfold deleteVolume_each_snapshot. walk_step IHs.
        destruct (c =? 1); apply safe_ret; exact I. }
      intros [r|zombies] Hr; [apply safe_ret; exact Hr|].
      destruct (0 <? zombies).
      * helper_step. intros [e''|] _; [walk_leaves|].
        destruct (vol_isDeleted vol); [walk_leaves|].
        helper_step. intros uuid _.
        helper_step. intros [e''|] _; walk_leaves.
      * destruct (zombies =? 0); [|walk_leaves].
        helper_step. intros [e''|] _; walk_leaves.
  - intros vol snap. rewrite deleteVolumeSnapshot_S.
    unfold deleteVolumeSnapshot_body.
    assert (Hremove : forall code : Z,
               well_coded (code, None) ->
               safe well_coded
                 (let* err := rbdUnprotectVolumeSnapshot d vol snap in
                  match err with
                  | Some e => ret (-1, Some e)
                  | None =>
                      let* err := rbdUnmapVolumeSnapshot d fuel vol snap true in
                      match err with
                      | Some e => ret (-1, Some e)
                      | None =>
                          let* err := rbdDeleteVolumeSnapshot d vol snap in
                          match err with
                          | Some e => ret (-1, Some e)
                          | None =>
                              if vol_isDeleted vol then
                                let* (ret_, err) := deleteVolume d fuel vol in
                                if ret_ <? 0 then ret (-1, err)
                                else ret (code, None)
                              else ret (code, None)
                          end
                      end
                  end)).
    { intros code Hfinal.
      helper_step. intros [e|] _; [walk_leaves|].
      helper_step. intros [e|] _; [walk_leaves|].
      helper_step. intros [e|] _; [walk_leaves|].
      destruct (vol_isDeleted vol); [|apply safe_ret; exact Hfinal].
      walk_step IHv. apply safe_ret; exact Hfinal. }
    helper_step. intros [clones [e|]] _.
    + destruct (negb (IsNotFoundError e)); [walk_leaves|].
      apply (Hremove 0 well_coded_deleted).
    + eapply safe_bind.
      { apply (safe_for_range well_coded). intros clone canDelete.
        unfold deleteVolumeSnapshot_each_clone.
        destruct (parseClone clone) as [[[[pn ct] cn] isDel] [pe|]];
          [walk_leaves|].
        destruct (negb isDel); [apply safe_ret; exact I|]. cbv zeta.
        walk_step IHv.
        destruct (c =? 1); apply safe_ret; exact I. }
      intros [r|canDelete] Hr; [apply safe_ret; exact Hr|].
      destruct canDelete; [apply (Hremove 1 well_coded_zombie)|].
      destruct (strings_HasPrefix snap "zombie_"); [walk_leaves|].
      helper_step. intros [e|] _; [walk_leaves|].
      helper_step. intros uuid _.
      helper_step. intros [e|] _; walk_leaves.
Qed.
End WalkOutcomes.

(** ** Fuel *)

Section Fuel.
Context {B : Type} {backend_ops : Backend B} {externals : Externals}.
Variable d : ceph.

Lemma extends_refl {A : Type} (m : M B A) : extends m m.
Proof. intros w a w' H. exact H. Qed.

Lemma extends_bind {A C : Type} (m1 m2 : M B A) (k1 k2 : A -> M B C) :
  extends m1 m2 -> (forall a, extends (k1 a) (k2 a)) ->
  extends (bind m1 k1) (bind m2 k2).
Proof.
  intros Hm Hk w c w'. unfold bind.
  destruct (m1 w) as [a w1| |] eqn:H1; try discriminate.
  rewrite (Hm _ _ _ H1). apply Hk.
Qed.

Lemma extends_for_range {X S R : Type} (xs : list X)
    (body1 body2 : X -> S -> M B (loop_result R S)) :
  (forall x s, extends (body1 x s) (body2 x s)) ->
  forall s, extends (for_range xs body1 s) (for_range xs body2 s).
Proof.
  intros Hbody. induction xs as [|x xs IH]; intros s; [apply extends_refl|].
  cbn [for_range]. apply extends_bind; [apply Hbody|].
  intros [r|s']; [apply extends_refl | apply IH].
Qed.

(** Walk two computations of the same shape in step. *)
Ltac in_step :=
  repeat match goal with
    | |- extends ?m ?m => apply extends_refl
    | |- extends (bind _ _) (bind _ _) => apply extends_bind; [|intros ?]
    | |- extends (for_range _ _ _) (for_range _ _ _) =>
        apply extends_for_range; intros ? ?
    | |- extends (let (_, _) := ?x in _) _ => destruct x
    | |- extends (if ?c then _ else _) _ => destruct c
    | |- extends (match ?x with _ => _ end) _ => destruct x
    | H : _ |- _ => apply H
    end.

Lemma rbdUnmapVolume_again_fuel (fuel : nat) :
  forall rbdVol flag bc od,
    extends (rbdUnmapVolume_again d fuel rbdVol flag bc od)
      (rbdUnmapVolume_again d (S fuel) rbdVol flag bc od).
Proof.
  induction fuel as [|fuel IH]; intros rbdVol flag bc od;
    [intros w a w' H; discriminate H|].
  change (rbdUnmapVolume_again d (S (S fuel)) rbdVol flag bc od)
    with (let* (_, err) := RunCommand "rbd" (unmap_args d rbdVol) in
          match err with
          | Some e =>
              match exit_code e with
              | Some code =>
                  if code =? 22 then ret None
                  else if code =? 16 then
                    let busyCount := bc + 1 in
                    if busyCount =? 10 then ret (Some e)
                    else
                      let* _ := Sleep 1 in
                      rbdUnmapVolume_again d (S fuel) rbdVol flag busyCount od
                  else ret (Some e)
              | None => ret (Some e)
              end
          | None =>
              if flag
              then rbdUnmapVolume_again d (S fuel) rbdVol flag bc true
              else ret None
          end).
  cbn [rbdUnmapVolume_again]. cbv zeta. in_step.
Qed.

Lemma rbdUnmapVolumeSnapshot_fuel (fuel : nat) :
  forall vol snap flag,
    extends (rbdUnmapVolumeSnapshot d fuel vol snap flag)
      (rbdUnmapVolumeSnapshot d (S fuel) vol snap flag).
Proof.
  induction fuel as [|fuel IH]; intros vol snap flag;
    [intros w a w' H; discriminate H|].
  change (rbdUnmapVolumeSnapshot d (S (S fuel)) vol snap flag)
    with (let* (_, err) :=
            RunCommand "rbd"
              (unmap_args d (getRBDVolumeName d vol snap false)) in
          match err with
          | Some e =>
              match exit_code e with
              | Some code => if code =? 22 then ret None else ret (Some e)
              | None => ret (Some e)
              end
          | None =>
              if flag then rbdUnmapVolumeSnapshot d (S fuel) vol snap flag
              else ret None
          end).
  cbn [rbdUnmapVolumeSnapshot]. in_step.
Qed.

(** One more unit of fuel keeps every finished run of the walk. *)
Lemma walk_fuel_step (fuel : nat) :
  (forall vol,
      extends (deleteVolume d fuel vol) (deleteVolume d (S fuel) vol))
  /\ (forall vol snap,
        extends (deleteVolumeSnapshot d fuel vol snap)
          (deleteVolumeSnapshot d (S fuel) vol snap)).
Proof.
  induction fuel as [|fuel [IHv IHs]];
    [split; intros; intros w a w' H; discriminate H|].
  pose proof (rbdUnmapVolume_again_fuel fuel) as Hunmap.
  pose proof (rbdUnmapVolumeSnapshot_fuel fuel) as Hunmap_snap.
  split.
  - intros vol. rewrite !deleteVolume_S.
    unfold deleteVolume_body, deleteVolume_each_snapshot, rbdUnmapVolume.
    in_step.
  - intros vol snap. rewrite !deleteVolumeSnapshot_S.
    unfold deleteVolumeSnapshot_body, deleteVolumeSnapshot_each_clone.
    in_step.
Qed.

(** A finished run of the walk stays the same with more fuel. *)
Theorem walk_fuel (fuel fuel' : nat) (vol : Volume) (snap : string) :
  (fuel <= fuel')%nat ->
  extends (deleteVolume d fuel vol) (deleteVolume d fuel' vol)
  /\ extends (deleteVolumeSnapshot d fuel vol snap)
       (deleteVolumeSnapshot d fuel' vol snap).
Proof.
  induction 1 as [|fuel' _ [IHv IHs]]; [split; apply extends_refl|].
  destruct (walk_fuel_step fuel') as [Hv Hs]. split.
  - intros w a w' H. apply Hv, IHv, H.
  - intros w a w' H. apply Hs, IHs, H.
Qed.
End Fuel.

(** ** Runs of the deletion walk on the scripted backend *)

(** Evaluate a call on a concrete world. *)
Ltac evaluate := vm_compute; reflexivity.


(** A zombie clone without snapshots whose parent snapshot is a zombie:
    the clone is removed and the parent snapshot is deleted after it. *)
Lemma deleteVolume_clone_without_snapshots_witness :
  exists w,
    deleteVolume sample_ceph 3 (sample_volume "c2" true)
      (scripted
         [ok "[]";
          ok ("parent: pool/container_c1@zombie_snapshot_u1" +:+ newline
              +:+ "overlap: 1 GiB" +:+ newline);
          exits 22; ok ""; ok ""; ok ""; exits 22; ok ""]
         [])
    = Done (0, None) w.
Proof.
  pose proof (deleteVolume_clone_without_snapshots sample_ceph 2
                (sample_volume "c2" true)
                (scripted
                   [ok "[]";
                    ok ("parent: pool/container_c1@zombie_snapshot_u1"
                        +:+ newline +:+ "overlap: 1 GiB" +:+ newline);
                    exits 22; ok ""; ok ""; ok ""; exits 22; ok ""]
                   [])) as H.
  edestruct H as (_ & Hzombie & _);
    [evaluate | reflexivity | evaluate | evaluate | evaluate | evaluate |].
  eexists. rewrite Hzombie; evaluate.
Defined.

(** C1, at a failing input.  Snapshot [snap0] of the live volume [c1]
    has one clone, the zombie [c2], which has neither snapshots nor a
    parent entry and is removed.  The snapshot is then unprotected,
    unmapped and removed ([snap rm] is the last command), and the
    return code is 1, the code for "marked as a zombie", where the
    documented code for a deleted entity is 0. *)
Theorem deleteVolumeSnapshot_removed_but_returns_1 :
  deleteVolumeSnapshot sample_ceph 3 (sample_volume "c1" false) "snap0"
    (scripted
       [ok "pool/zombie_container_c2"; ok "[]"; ok "rbd image"; exits 22;
        ok ""; ok ""; exits 22; ok ""]
       [])
  = Done (1, None)
      (mkWorld (mkScript [] [] ([], None) [])
         [EvRun "rbd" (rbd_pool_args sample_ceph
                       ++ ["children"; "--image"; "container_c1";
                           "--snap"; "snap0"]);
          EvRun "rbd" (rbd_pool_args sample_ceph
                       ++ ["--format"; "json"; "snap"; "ls";
                           "zombie_container_c2"]);
          EvRun "rbd" (rbd_pool_args sample_ceph
                       ++ ["info"; "zombie_container_c2"]);
          EvRun "rbd" (rbd_pool_args sample_ceph
                       ++ ["unmap"; "zombie_container_c2"]);
          EvRun "rbd" (rbd_pool_args sample_ceph
                       ++ ["rm"; "zombie_container_c2"]);
          EvRun "rbd" (rbd_pool_args sample_ceph
                       ++ ["snap"; "unprotect"; "--snap"; "snap0";
                           "container_c1"]);
          EvRun "rbd" (rbd_pool_args sample_ceph
                       ++ ["unmap"; "container_c1@snap0"]);
          EvRun "rbd" (rbd_pool_args sample_ceph
                       ++ ["snap"; "rm"; "container_c1@snap0"])]).
Proof. vm_compute. reflexivity. Qed.

(** The same run through the general lemma: the clone is removable. *)
Example deleteVolumeSnapshot_removable_clones_run :
  exists w,
    deleteVolumeSnapshot sample_ceph 3 (sample_volume "c1" false) "snap0"
      (scripted
         [ok "pool/zombie_container_c2"; ok "[]"; ok "rbd image"; exits 22;
          ok ""; ok ""; exits 22; ok ""]
         [])
    = Done (1, None) w.
Proof.
  edestruct (deleteVolumeSnapshot_removable_clones sample_ceph 2
               (sample_volume "c1" false) "snap0"
               (scripted
                  [ok "pool/zombie_container_c2"; ok "[]"; ok "rbd image";
                   exits 22; ok ""; ok ""; exits 22; ok ""]
                  [])) as [Hlive _].
  - evaluate.
  - eapply clones_removed_cons;
      [evaluate | evaluate | discriminate | discriminate
      | apply clones_removed_nil].
  - evaluate.
  - evaluate.
  - evaluate.
  - eexists. apply Hlive. reflexivity.
Qed.

(** C2, counterexample.  The zombie volume [c1] has a snapshot without
    clones.  The snapshot is unprotected, unmapped and removed; the
    cascade on [c1] then fails in its snapshot listing (exit code 1),
    and the snapshot deletion returns -1 with that error. *)
Lemma deleteVolumeSnapshot_cascade_failure :
  deleteVolumeSnapshot sample_ceph 2 (sample_volume "c1" true)
    "zombie_snapshot_u1"
    (scripted [ok ""; ok ""; exits 22; ok ""; exits 1] [])
  = Done (-1, Some (RunError (Some 1) ""))
      (mkWorld (mkScript [] [] ([], None) [])
         [EvRun "rbd" (rbd_pool_args sample_ceph
                       ++ ["children"; "--image"; "zombie_container_c1";
                           "--snap"; "zombie_snapshot_u1"]);
          EvRun "rbd" (rbd_pool_args sample_ceph
                       ++ ["snap"; "unprotect"; "--snap";
                           "zombie_snapshot_u1"; "zombie_container_c1"]);
          EvRun "rbd" (rbd_pool_args sample_ceph
                       ++ ["unmap"; "zombie_container_c1@zombie_snapshot_u1"]);
          EvRun "rbd" (rbd_pool_args sample_ceph
                       ++ ["snap"; "rm";
                           "zombie_container_c1@zombie_snapshot_u1"]);
          EvRun "rbd" (rbd_pool_args sample_ceph
                       ++ ["--format"; "json"; "snap"; "ls";
                           "zombie_container_c1"])]).
Proof. vm_compute. reflexivity. Qed.

Lemma deleteVolumeSnapshot_without_clones_witness :
  exists w e,
    deleteVolumeSnapshot sample_ceph 2 (sample_volume "c1" true)
      "zombie_snapshot_u1"
      (scripted [ok ""; ok ""; exits 22; ok ""; exits 1] [])
    = Done (-1, Some e) w.
Proof.
  edestruct (deleteVolumeSnapshot_without_clones sample_ceph 1
               (sample_volume "c1" true) "zombie_snapshot_u1"
               (scripted [ok ""; ok ""; exits 22; ok ""; exits 1] []))
    as (_ & _ & Hzombie);
    [evaluate | reflexivity | evaluate | evaluate | evaluate |].
  eexists _, _. erewrite Hzombie; [|reflexivity|evaluate]. reflexivity.
Defined.

(** ** Differential import *)



(** ** Device mapping *)

Section MappingFacts.
Context {B : Type} {backend_ops : Backend B} {externals : Externals}.
Variable d : ceph.

Lemma for_range_all_continue {X : Type} (xs : list X)
    (body : X -> unit -> M B (loop_result (bool * string * option error) unit))
    (w : World B) :
  (forall x, In x xs -> body x tt w = Done (Continue tt) w) ->
  for_range xs body tt w = Done (Continue tt) w.
Proof.
  induction xs as [|x xs IH]; intros Hall; [reflexivity|].
  cbn [for_range]. unfold bind. rewrite (Hall x (or_introl eq_refl)).
  apply IH. intros y Hy. apply Hall. right. exact Hy.
Qed.

Lemma for_range_first_return {X : Type} (before : list X) (x : X)
    (after : list X)
    (body : X -> unit -> M B (loop_result (bool * string * option error) unit))
    (w : World B) (r : bool * string * option error) :
  (forall y, In y before -> body y tt w = Done (Continue tt) w) ->
  body x tt w = Done (Return r) w ->
  for_range (before ++ x :: after) body tt w = Done (Return r) w.
Proof.
  induction before as [|y before IH]; intros Hall Hx.
  - cbn [app for_range]. unfold bind. rewrite Hx. reflexivity.
  - cbn [app for_range]. unfold bind. rewrite (Hall y (or_introl eq_refl)).
    apply IH; [|exact Hx]. intros z Hz. apply Hall. right. exact Hz.
Qed.

(** A device is returned by the inspection only if it is the image of
    the volume with the same snapshot identity. *)
Lemma inspect_device_sound (vol : Volume) (f : DirEntry) (w w' : World B)
    (newlyMapped : bool) (path : string) :
  inspect_device d vol f w = Done (Return (newlyMapped, path, None)) w' ->
  exists idx,
    same_image d vol f idx (backend w)
    /\ same_snapshot d vol f (backend w)
    /\ newlyMapped = false
    /\ path = "/dev/rbd" +:+ format_d idx
    /\ w' = w.
Proof.
  intros Hins. unfold inspect_device in Hins.
  destruct (de_IsDir f) eqn:Hdir; cbn [negb] in Hins; [|discriminate Hins].
  destruct (ParseUint_10_64 (de_Name f)) as [idx|] eqn:Hidx;
    [|discriminate Hins].
  unfold bind at 1, ReadFile at 1 in Hins.
  destruct (os_ReadFile ("/sys/devices/rbd/" +:+ de_Name f +:+ "/pool")
              (backend w)) as [pool [e|]] eqn:Hpool.
  { destruct (is_ErrNotExist e); discriminate Hins. }
  destruct (String.eqb (strings_TrimSpace pool) (cfg d "ceph.osd.pool_name"))
    eqn:Hpeq; cbn [negb] in Hins; [|discriminate Hins].
  unfold bind at 1, ReadFile at 1 in Hins.
  destruct (os_ReadFile ("/sys/devices/rbd/" +:+ de_Name f +:+ "/name")
              (backend w)) as [name [e|]] eqn:Hname.
  { destruct (is_ErrNotExist e); discriminate Hins. }
  cbv zeta in Hins.
  destruct (strings_SplitN (getRBDVolumeName d vol "" false) "@" 2)
    as [|image rest] eqn:Hparts; [discriminate Hins|].
  destruct (String.eqb (strings_TrimSpace name) image) eqn:Hneq;
    cbn [negb] in Hins; [|discriminate Hins].
  unfold bind at 1, ReadFile at 1 in Hins.
  destruct (os_ReadFile
              ("/sys/devices/rbd/" +:+ de_Name f +:+ "/current_snap")
              (backend w)) as [devSnap err] eqn:Hsnap.
  destruct (other_than_not_exist err) eqn:Hother.
  { destruct err as [e|]; [discriminate Hins | discriminate Hother]. }
  apply String.eqb_eq in Hpeq, Hneq.
  assert (Himage : same_image d vol f idx (backend w)).
  { split; [exact Hdir|]. split; [exact Hidx|].
    exists pool, name, image, rest. repeat split; assumption. }
  exists idx. split; [exact Himage|].
  destruct (Volume_IsSnapshot vol) eqn:Hissnap.
  - destruct rest as [|part1 [|x rest]]; try discriminate Hins.
    destruct (String.eqb part1 (strings_TrimSpace devSnap)) eqn:Hp1;
      [|discriminate Hins].
    apply String.eqb_eq in Hp1. subst part1.
    injection Hins as <- <- <-.
    split; [|repeat split; reflexivity].
    exists devSnap, err. split; [exact Hsnap|]. split; [exact Hother|].
    rewrite Hissnap. exists image. exact Hparts.
  - destruct (existsb (String.eqb (strings_TrimSpace devSnap)) ["-"; ""])
      eqn:Hdash; [|discriminate Hins].
    injection Hins as <- <- <-.
    split; [|repeat split; reflexivity].
    exists devSnap, err. split; [exact Hsnap|]. split; [exact Hother|].
    rewrite Hissnap. cbn [existsb] in Hdash.
    apply orb_true_iff in Hdash. destruct Hdash as [Hd|Hd].
    + left. apply String.eqb_eq. exact Hd.
    + rewrite orb_false_r in Hd. right. apply String.eqb_eq. exact Hd.
Qed.

(** Conversely, such a device is returned, as not newly mapped. *)
Lemma inspect_device_complete (vol : Volume) (f : DirEntry) (w : World B)
    (idx : N) :
  same_image d vol f idx (backend w) ->
  same_snapshot d vol f (backend w) ->
  inspect_device d vol f w
  = Done (Return (false, "/dev/rbd" +:+ format_d idx, None)) w.
Proof.
  intros (Hdir & Hidx & pool & name & image & rest & Hpool & Hpeq & Hname
          & Hparts & Hneq)
         (devSnap & err & Hsnap & Hother & Hident).
  unfold inspect_device. rewrite Hdir, Hidx. cbn [negb].
  unfold bind at 1, ReadFile at 1. rewrite Hpool, Hpeq, String.eqb_refl.
  cbn [negb]. unfold bind at 1, ReadFile at 1. rewrite Hname.
  cbv zeta. rewrite Hparts, Hneq, String.eqb_refl. cbn [negb].
  unfold bind at 1, ReadFile at 1. rewrite Hsnap, Hother.
  destruct (Volume_IsSnapshot vol).
  - destruct Hident as [image' Hident]. rewrite Hparts in Hident.
    injection Hident as _ ->. rewrite String.eqb_refl. reflexivity.
  - cbn [existsb]. destruct Hident as [-> | ->]; reflexivity.
Qed.

Lemma strings_SplitN_2_nonempty (s sep : string) :
  strings_SplitN s sep 2 <> [].
Proof.
  destruct (index_of s sep) as [m|] eqn:Hidx.
  - rewrite (strings_SplitN_2_some _ _ _ Hidx). discriminate.
  - rewrite (strings_SplitN_2_none _ _ Hidx). discriminate.
Qed.

(** The three ways an inspection ends: the device is passed over, it
    is the device of the volume, or one of its attributes cannot be
    read.  It never panics and never changes the world. *)
(** Case analysis along the tests of [inspect_device]; [finish] closes
    each way out of the function. *)
Ltac walk_inspection finish :=
  unfold inspect_device;
  destruct (de_IsDir _); cbn [negb]; [|finish];
  destruct (ParseUint_10_64 _); [|finish];
  unfold bind at 1, ReadFile at 1;
  destruct (os_ReadFile _ _) as [? [?|]];
    [destruct (is_ErrNotExist _); finish|];
  destruct (String.eqb _ _); cbn [negb]; [|finish];
  unfold bind at 1, ReadFile at 1;
  destruct (os_ReadFile _ _) as [? [?|]];
    [destruct (is_ErrNotExist _); finish|];
  cbv zeta;
  match goal with
  | |- context [strings_SplitN ?x "@" 2] =>
      pose proof (strings_SplitN_2_nonempty x "@")
  end;
  destruct (strings_SplitN _ "@" 2) as [|? [|? [|? ?]]]; [congruence| | |];
  (destruct (String.eqb _ _); cbn [negb]; [|finish]);
  unfold bind at 1, ReadFile at 1;
  destruct (os_ReadFile _ _) as [? ?];
  (destruct (other_than_not_exist _); [finish|]);
  destruct (Volume_IsSnapshot _);
  try (destruct (String.eqb _ _); finish);
  try (destruct (existsb _ _); finish);
  try finish.

Lemma inspect_device_cases (vol : Volume) (f : DirEntry) (w : World B) :
  inspect_device d vol f w = Done (Continue tt) w
  \/ (exists idx,
        same_image d vol f idx (backend w)
        /\ same_snapshot d vol f (backend w)
        /\ inspect_device d vol f w
           = Done (Return (false, "/dev/rbd" +:+ format_d idx, None)) w)
  \/ (exists e,
        inspect_device d vol f w = Done (Return (false, "", Some e)) w).
Proof.
  destruct (inspect_device d vol f w) as [[r|[]] w'| |] eqn:Hins.
  - destruct r as [[nm path] [e|]].
    + right. right. exists e. revert Hins.
      walk_inspection ltac:(first [discriminate
                                  | intros [= <- <- <- <-]; reflexivity]).
    + right. left.
      destruct (inspect_device_sound _ _ _ _ _ _ Hins)
        as (idx & Himg & Hsnap & -> & -> & ->).
      exists idx. split; [exact Himg|]. split; [exact Hsnap|]. reflexivity.
  - left. f_equal. revert Hins.
    walk_inspection ltac:(first [discriminate
                                | intros [= <-]; reflexivity]).
  - exfalso. revert Hins. walk_inspection ltac:(discriminate).
  - exfalso. revert Hins. walk_inspection ltac:(discriminate).
Qed.

(** C9.  A device is returned only if its pool and image name are the
    volume's and its active snapshot is the snapshot the volume denotes
    (for a live volume: empty or a dash); it is then reported as not
    newly mapped, under the path of its index.  The first device for
    which this holds is the result when the devices before it are
    passed over.  When every device is passed over and mapping was not
    asked for, the call fails with the not-mapped error and issues no
    command. *)
Theorem getRBDMappedDevPath_resolves (vol : Volume) (w : World B)
    (files : list DirEntry) (err : option error) :
  os_ReadDir "/sys/devices/rbd" (backend w) = (files, err) ->
  other_than_not_exist err = false ->
  (forall f w' newlyMapped path,
      inspect_device d vol f w = Done (Return (newlyMapped, path, None)) w' ->
      exists idx,
        same_image d vol f idx (backend w)
        /\ same_snapshot d vol f (backend w)
        /\ newlyMapped = false
        /\ path = "/dev/rbd" +:+ format_d idx)
  /\ (forall before f after idx mapIfMissing,
        files = before ++ f :: after ->
        (forall g, In g before ->
                   inspect_device d vol g w = Done (Continue tt) w) ->
        same_image d vol f idx (backend w) ->
        same_snapshot d vol f (backend w) ->
        getRBDMappedDevPath d vol mapIfMissing w
        = Done (false, "/dev/rbd" +:+ format_d idx, None) w)
  /\ ((forall g, In g files ->
                 inspect_device d vol g w = Done (Continue tt) w) ->
      getRBDMappedDevPath d vol false w
      = Done (false, "", Some (not_mapped vol)) w).
Proof.
  intros Hdir Hother. split; [|split].
  - intros f w' nm path Hins.
    destruct (inspect_device_sound _ _ _ _ _ _ Hins)
      as (idx & Himg & Hsnap & Hnm & Hpath & _).
    exists idx.
    split; [exact Himg | split; [exact Hsnap | split; assumption]].
  - intros before f after idx mapIfMissing -> Hbefore Himg Hsnap.
    unfold getRBDMappedDevPath.
    unfold bind at 1, ReadDir at 1. rewrite Hdir, Hother.
    unfold bind at 1.
    rewrite (for_range_first_return before f after
               (fun f _ => inspect_device d vol f) w
               (false, "/dev/rbd" +:+ format_d idx, None));
      [reflexivity | exact Hbefore |].
    apply inspect_device_complete; assumption.
  - intros Hall. unfold getRBDMappedDevPath.
    unfold bind at 1, ReadDir at 1. rewrite Hdir, Hother.
    unfold bind at 1.
    rewrite (for_range_all_continue files
               (fun f _ => inspect_device d vol f) w Hall).
    reflexivity.
Qed.
End MappingFacts.

Lemma getRBDMappedDevPath_resolves_witness :
  getRBDMappedDevPath sample_ceph (sample_volume "c1" false) false
    (mkWorld sample_sysfs [])
  = Done (false, "/dev/rbd1", None) (mkWorld sample_sysfs [])
  /\ getRBDMappedDevPath sample_ceph (sample_volume "c9" false) false
       (mkWorld sample_sysfs [])
     = Done (false, "", Some (not_mapped (sample_volume "c9" false)))
         (mkWorld sample_sysfs []).
Proof.
  split.
  - refine (proj1 (proj2 (getRBDMappedDevPath_resolves sample_ceph
                            (sample_volume "c1" false)
                            (mkWorld sample_sysfs []) _ None eq_refl eq_refl))
              [mkDirEntry "0" true] (mkDirEntry "1" true) [] 1%N false
              eq_refl _ _ _).
    + intros g [<-|[]]. vm_compute. reflexivity.
    + split; [reflexivity|]. split; [reflexivity|].
      exists ("pool" +:+ newline), ("container_c1" +:+ newline),
        "container_c1", [].
      repeat split; vm_compute; reflexivity.
    + exists ("-" +:+ newline), None.
      split; [reflexivity|]. split; [reflexivity|].
      left. vm_compute. reflexivity.
  - refine (proj2 (proj2 (getRBDMappedDevPath_resolves sample_ceph
                            (sample_volume "c9" false)
                            (mkWorld sample_sysfs []) _ None eq_refl eq_refl))
              _).
    intros g [<-|[<-|[]]]; vm_compute; reflexivity.
Defined.

(** * Further properties *)

(** ** Facts about the string functions, continued *)

Lemma str_length_app (a b : string) :
  String.length (a +:+ b) = (String.length a + String.length b)%nat.
Proof.
  induction a as [|c a IH]; [reflexivity|].
  change (S (String.length (a +:+ b))
          = S (String.length a + String.length b)).
  f_equal. exact IH.
Qed.

Lemma str_app_assoc (a b c : string) : (a +:+ b) +:+ c = a +:+ (b +:+ c).
Proof.
  induction a as [|x a IH]; [reflexivity|].
  change (String x ((a +:+ b) +:+ c) = String x (a +:+ (b +:+ c))).
  f_equal. exact IH.
Qed.

Lemma str_app_nil_r (a : string) : a +:+ "" = a.
Proof.
  induction a as [|x a IH]; [reflexivity|].
  change (String x (a +:+ "") = String x a). f_equal. exact IH.
Qed.

Lemma strings_HasPrefix_self (p r : string) :
  strings_HasPrefix (p +:+ r) p = true.
Proof.
  induction p as [|c p IH]; [reflexivity|].
  change (strings_HasPrefix (String c (p +:+ r)) (String c p) = true).
  cbn [strings_HasPrefix]. rewrite Ascii.eqb_refl. exact IH.
Qed.

Lemma strings_TrimPrefix_app (p r : string) :
  strings_TrimPrefix (p +:+ r) p = r.
Proof.
  unfold strings_TrimPrefix. rewrite strings_HasPrefix_self. apply str_drop_app.
Qed.

Lemma strings_HasSuffix_app (a b : string) :
  strings_HasSuffix (a +:+ b) b = true.
Proof.
  unfold strings_HasSuffix. rewrite str_length_app.
  replace (String.length a + String.length b - String.length b)%nat
    with (String.length a) by lia.
  rewrite str_drop_app, String.eqb_refl, andb_true_r.
  apply Nat.leb_le. lia.
Qed.

Lemma strings_TrimSuffix_app (a b : string) :
  strings_TrimSuffix (a +:+ b) b = a.
Proof.
  unfold strings_TrimSuffix. rewrite strings_HasSuffix_app, str_length_app.
  replace (String.length a + String.length b - String.length b)%nat
    with (String.length a) by lia.
  apply str_take_app.
Qed.

Lemma free_of_cons (c x : ascii) (s : string) :
  free_of c (String x s) = negb (Ascii.eqb x c) && free_of c s.
Proof. reflexivity. Qed.

Lemma free_of_app (c : ascii) (a b : string) :
  free_of c (a +:+ b) = free_of c a && free_of c b.
Proof.
  induction a as [|x a IH]; [reflexivity|].
  change (free_of c (String x (a +:+ b))
          = free_of c (String x a) && free_of c b).
  rewrite !free_of_cons, IH, andb_assoc. reflexivity.
Qed.

Lemma free_of_index (c : ascii) (s : string) :
  free_of c s = true <-> index_of s (String c "") = None.
Proof.
  induction s as [|x s IH]; [split; reflexivity|].
  rewrite free_of_cons. cbn [index_of strings_HasPrefix].
  rewrite (Ascii.eqb_sym c x).
  destruct (Ascii.eqb x c); cbn [negb andb].
  - split; discriminate.
  - rewrite IH. destruct (index_of s (String c "")); cbn; split; congruence.
Qed.

Lemma strings_SplitN_char (c : ascii) (a b : string) :
  free_of c a = true ->
  strings_SplitN (a +:+ String c b) (String c "") 2 = [a; b].
Proof.
  intros H. apply free_of_index in H.
  rewrite (strings_SplitN_2_some _ _ (String.length a)).
  - rewrite str_take_app, str_drop_add, str_drop_app. reflexivity.
  - apply index_of_char_app. exact H.
Qed.

(** The first occurrence of a byte, if any. *)
Lemma first_occurrence (c : ascii) (a : string) :
  free_of c a = true
  \/ exists a1 a2, a = a1 +:+ String c a2 /\ free_of c a1 = true.
Proof.
  induction a as [|x a IH]; [left; reflexivity|].
  rewrite free_of_cons. destruct (Ascii.eqb x c) eqn:Hx.
  - right. apply Ascii.eqb_eq in Hx. subst x. exists "", a. split; reflexivity.
  - destruct IH as [IH|(a1 & a2 & -> & IH)].
    + left. rewrite IH. reflexivity.
    + right. exists (String x a1), a2. split; [reflexivity|].
      rewrite free_of_cons, Hx, IH. reflexivity.
Qed.

Lemma genSplit_free (fuel : nat) (c : ascii) (b : string) (n : nat) :
  free_of c b = true -> genSplit fuel b (String c "") n = [b].
Proof.
  intros H. apply free_of_index in H.
  destruct fuel, n; cbn [genSplit]; try reflexivity. rewrite H. reflexivity.
Qed.

(** Splitting at a byte: the last part is what follows its last
    occurrence. *)
Lemma genSplit_last (c : ascii) (b : string) :
  free_of c b = true ->
  forall (fuel n : nat) (a : string),
    (String.length a < fuel)%nat -> (String.length a < n)%nat ->
    exists x l, genSplit fuel (a +:+ String c b) (String c "") n
                = x :: l ++ [b].
Proof.
  intros Hb. induction fuel as [|fuel IH]; intros n a Hf Hn; [lia|].
  destruct n as [|n]; [lia|].
  cbn [genSplit].
  destruct (first_occurrence c a) as [Ha|(a1 & a2 & -> & Ha1)].
  - rewrite (index_of_char_app c a b (proj1 (free_of_index c a) Ha)).
    rewrite str_take_app, str_drop_add, str_drop_app.
    cbn [String.length str_drop].
    rewrite (genSplit_free _ _ _ _ Hb). exists a, []. reflexivity.
  - rewrite str_app_assoc.
    change (String c a2 +:+ String c b) with (String c (a2 +:+ String c b)).
    rewrite (index_of_char_app c a1 _ (proj1 (free_of_index c a1) Ha1)).
    rewrite str_take_app, str_drop_add, str_drop_app.
    cbn [String.length str_drop].
    rewrite str_length_app in Hf, Hn. cbn [String.length] in Hf, Hn.
    destruct (IH n a2 ltac:(lia) ltac:(lia)) as (x & l & ->).
    exists a1, (x :: l). reflexivity.
Qed.

Lemma strings_Split_last (c : ascii) (a b : string) :
  free_of c b = true ->
  exists x l, strings_Split (a +:+ String c b) (String c "") = x :: l ++ [b].
Proof.
  intros Hb. unfold strings_Split. apply genSplit_last; [exact Hb| |];
    rewrite str_length_app; cbn [String.length]; lia.
Qed.

Lemma split_snapshot_some (a snap : string) :
  free_of "@" snap = true ->
  split_snapshot (a +:+ "@" +:+ snap) = (a, snap).
Proof.
  intros H. unfold split_snapshot.
  change ("@" +:+ snap) with (String "@" snap).
  destruct (strings_Split_last "@" a snap H) as (x & l & ->).
  rewrite app_comm_cons, last_last, length_app.
  assert (Hlen : (1 <? Z.of_nat (length (x :: l) + length [snap])) = true)
    by (apply Z.ltb_lt; cbn [length]; lia).
  rewrite Hlen.
  change (String "@" snap) with ("@" +:+ snap).
  rewrite strings_TrimSuffix_app. reflexivity.
Qed.

Lemma split_snapshot_none (a : string) :
  free_of "@" a = true -> split_snapshot a = (a, "").
Proof.
  intros H. unfold split_snapshot, strings_Split.
  rewrite (genSplit_free _ _ _ _ H). reflexivity.
Qed.

(** ** Decoding well-formed names *)

Lemma strings_SplitN_pool (pool rest : string) :
  free_of "/" pool = true ->
  strings_SplitN (pool +:+ "/" +:+ rest) "/" 2 = [pool; rest].
Proof. intros H. exact (strings_SplitN_char "/" pool rest H). Qed.

Lemma strings_HasPrefix_short (p r q : string) :
  (String.length q <= String.length p)%nat ->
  strings_HasPrefix (p +:+ r) q = strings_HasPrefix p q.
Proof.
  revert p. induction q as [|x q IH]; intros p H; [reflexivity|].
  destruct p as [|y p]; [cbn in H; lia|].
  change (String y p +:+ r) with (String y (p +:+ r)).
  cbn [strings_HasPrefix]. destruct (Ascii.eqb x y); [|reflexivity].
  apply IH. cbn [String.length] in H. lia.
Qed.

Lemma with_snapshot_app (p a : string) (snap : option string) :
  with_snapshot (p +:+ a) snap = p +:+ with_snapshot a snap.
Proof. destruct snap; [apply str_app_assoc | reflexivity]. Qed.

Lemma split_snapshot_with (a : string) (snap : option string) :
  snapshot_delimited a snap = true ->
  split_snapshot (with_snapshot a snap) = (a, default "" snap).
Proof.
  destruct snap as [s|]; cbn [snapshot_delimited with_snapshot default];
    intros H; [apply split_snapshot_some | apply split_snapshot_none]; exact H.
Qed.

(** The cut at a type prefix whose first occurrence is known. *)
Lemma after_prefix_cut (pre t rest : string) (m : nat) :
  index_of (pre +:+ rest) t = Some m ->
  str_drop (m + String.length t) (pre +:+ rest) = rest ->
  after_prefix (pre +:+ rest) t = Returns rest.
Proof.
  intros Hidx Hdrop. unfold after_prefix.
  rewrite (strings_SplitN_2_some _ _ _ Hidx), Hdrop. reflexivity.
Qed.

(** Decide the prefix tests whose outcome the known front of the
    string fixes. *)
Ltac decide_prefixes :=
  repeat match goal with
         | |- context [strings_HasPrefix ?a ?b] =>
             let v := eval vm_compute in (strings_HasPrefix a b) in
             match v with
             | true => change (strings_HasPrefix a b) with true
             | false => change (strings_HasPrefix a b) with false
             end
         end.

Ltac decode_suffix Hsfx :=
  destruct Hsfx as [[-> ->]|(-> & -> & Hsfx)];
  [ rewrite strings_HasSuffix_app, strings_TrimSuffix_app
  | rewrite str_app_nil_r, Hsfx ];
  reflexivity.

Lemma strings_HasSuffix_short (b q p : string) :
  (String.length p <= String.length q)%nat ->
  strings_HasSuffix (b +:+ q) p = strings_HasSuffix q p.
Proof.
  intros H. unfold strings_HasSuffix. rewrite str_length_app.
  replace (String.length b + String.length q - String.length p)%nat
    with (String.length b + (String.length q - String.length p))%nat by lia.
  rewrite str_drop_add, str_drop_app.
  replace (String.length p <=? String.length b + String.length q)%nat
    with true by (symmetry; apply Nat.leb_le; lia).
  replace (String.length p <=? String.length q)%nat
    with true by (symmetry; apply Nat.leb_le; lia).
  reflexivity.
Qed.

(** Two suffixes of one string: the shorter is a suffix of the longer. *)
Lemma strings_HasSuffix_both (s q p : string) :
  (String.length p <= String.length q)%nat ->
  strings_HasSuffix s q = true -> strings_HasSuffix s p = true ->
  strings_HasSuffix q p = true.
Proof.
  intros Hlen Hq Hp. rewrite (strings_HasSuffix_split _ _ Hq) in Hp.
  rewrite strings_HasSuffix_short in Hp by exact Hlen. exact Hp.
Qed.

Lemma strings_Contains_char (c : ascii) (a b : string) :
  strings_Contains (a +:+ String c b) (String c "") = true.
Proof.
  destruct (strings_Contains (a +:+ String c b) (String c "")) eqn:H;
    [reflexivity|].
  apply strings_Contains_index in H.
  exfalso. apply (index_of_found (String.length a) _ _) in H; [exact H|].
  rewrite str_drop_app. cbn [strings_HasPrefix]. rewrite Ascii.eqb_refl.
  reflexivity.
Qed.

Section DecodeWellFormed.
Context {externals : Externals}.

(** X2.  A well-formed container or virtual-machine name decodes to
    its parts.  [<pool>/[zombie_]<type>_<name>[.block][@<snapshot>]]
    gives the pool, the type, the name, block content when the name
    carries the [.block] suffix and filesystem content otherwise, the
    zombie flag, and the snapshot name (empty when there is no [@]).
    The pool holds no slash; the snapshot name (without one: the
    volume name) holds no [@]; a filesystem volume name does not end
    in [.block]. *)
Theorem parseParent_decodes_instance (t : string) (T : VolumeType) (pool name : string)
    (zombie : bool) (sfx : string) (C : ContentType) (snap : option string) :
  (t = "container" /\ T = VolumeTypeContainer)
  \/ (t = "virtual-machine" /\ T = VolumeTypeVM) ->
  (sfx = ".block" /\ C = ContentTypeBlock)
  \/ (sfx = "" /\ C = ContentTypeFS
      /\ strings_HasSuffix name ".block" = false) ->
  free_of "/" pool = true ->
  snapshot_delimited name snap = true ->
  parseParent
    (pool +:+ "/"
     +:+ with_snapshot (zombie_prefix zombie +:+ t +:+ "_" +:+ name +:+ sfx)
           snap)
  = Returns ({| vol_name := name; vol_pool := pool; vol_poolConfig := ∅;
                vol_volType := T; vol_contentType := C; vol_config := ∅;
                vol_isDeleted := zombie |}, default "" snap, None).
Proof.
  intros Ht Hsfx Hpool Hsnap.
  unfold parseParent. rewrite (strings_SplitN_pool _ _ Hpool).
  assert (Hdel : snapshot_delimited
                   (zombie_prefix zombie +:+ t +:+ "_" +:+ name +:+ sfx) snap
                 = true).
  { destruct snap as [s|]; [exact Hsnap|]. cbn [snapshot_delimited] in *.
    rewrite !free_of_app, Hsnap.
    destruct zombie, Ht as [[-> _]|[-> _]], Hsfx as [[-> _]|[-> _]];
      reflexivity. }
  rewrite (split_snapshot_with _ _ Hdel).
  destruct Ht as [[-> ->]|[-> ->]], zombie; cbn [zombie_prefix].
  - change ("zombie_" +:+ "container" +:+ "_" +:+ name +:+ sfx)
      with ("zombie_container_" +:+ (name +:+ sfx)) in *.
    rewrite with_snapshot_app. decide_prefixes. cbv beta iota delta [orb].
    rewrite (after_prefix_cut "zombie_container_" "container_" _ 7)
      by (vm_compute; reflexivity).
    decode_suffix Hsfx.
  - change ("" +:+ "container" +:+ "_" +:+ name +:+ sfx)
      with ("container_" +:+ (name +:+ sfx)) in *.
    rewrite with_snapshot_app. decide_prefixes. cbv beta iota delta [orb].
    rewrite (after_prefix_cut "container_" "container_" _ 0)
      by (vm_compute; reflexivity).
    decode_suffix Hsfx.
  - change ("zombie_" +:+ "virtual-machine" +:+ "_" +:+ name +:+ sfx)
      with ("zombie_virtual-machine_" +:+ (name +:+ sfx)) in *.
    rewrite with_snapshot_app. decide_prefixes. cbv beta iota delta [orb].
    rewrite (after_prefix_cut "zombie_virtual-machine_" "virtual-machine_" _ 7)
      by (vm_compute; reflexivity).
    decode_suffix Hsfx.
  - change ("" +:+ "virtual-machine" +:+ "_" +:+ name +:+ sfx)
      with ("virtual-machine_" +:+ (name +:+ sfx)) in *.
    rewrite with_snapshot_app. decide_prefixes. cbv beta iota delta [orb].
    rewrite (after_prefix_cut "virtual-machine_" "virtual-machine_" _ 0)
      by (vm_compute; reflexivity).
    decode_suffix Hsfx.
Qed.

(** X3.  A well-formed custom volume name decodes to its parts:
    [<pool>/[zombie_]custom_<name>[.block|.iso][@<snapshot>]] gives
    block content for [.block], ISO content for [.iso] and filesystem
    content for a name with neither suffix. *)
Theorem parseParent_decodes_custom (pool name : string) (zombie : bool)
    (sfx : string) (C : ContentType) (snap : option string) :
  (sfx = ".block" /\ C = ContentTypeBlock)
  \/ (sfx = ".iso" /\ C = ContentTypeISO)
  \/ (sfx = "" /\ C = ContentTypeFS
      /\ strings_HasSuffix name ".block" = false
      /\ strings_HasSuffix name ".iso" = false) ->
  free_of "/" pool = true ->
  snapshot_delimited name snap = true ->
  parseParent
    (pool +:+ "/"
     +:+ with_snapshot (zombie_prefix zombie +:+ "custom_" +:+ name +:+ sfx)
           snap)
  = Returns ({| vol_name := name; vol_pool := pool; vol_poolConfig := ∅;
                vol_volType := VolumeTypeCustom; vol_contentType := C;
                vol_config := ∅; vol_isDeleted := zombie |},
             default "" snap, None).
Proof.
  intros Hsfx Hpool Hsnap.
  unfold parseParent. rewrite (strings_SplitN_pool _ _ Hpool).
  assert (Hdel : snapshot_delimited
                   (zombie_prefix zombie +:+ "custom_" +:+ name +:+ sfx) snap
                 = true).
  { destruct snap as [s|]; [exact Hsnap|]. cbn [snapshot_delimited] in *.
    rewrite !free_of_app, Hsnap.
    destruct zombie, Hsfx as [[-> _]|[[-> _]|[-> _]]]; reflexivity. }
  rewrite (split_snapshot_with _ _ Hdel).
  assert (Hiso : strings_HasSuffix (name +:+ ".iso") ".block" = false).
  { destruct (strings_HasSuffix (name +:+ ".iso") ".block") eqn:E;
      [|reflexivity].
    pose proof (strings_HasSuffix_both _ ".block" ".iso" ltac:(cbn; lia) E
                  (strings_HasSuffix_app name ".iso")) as H.
    discriminate H. }
  assert (Hkind : forall vol : Volume,
             (let '(name0, vol0) :=
                if strings_HasSuffix (name +:+ sfx) ".block"
                then (strings_TrimSuffix (name +:+ sfx) ".block",
                      set_contentType vol ContentTypeBlock)
                else if strings_HasSuffix (name +:+ sfx) ".iso"
                     then (strings_TrimSuffix (name +:+ sfx) ".iso",
                           set_contentType vol ContentTypeISO)
                     else (name +:+ sfx, set_contentType vol ContentTypeFS) in
              Returns (set_name vol0 name0, default "" snap, @None error))
             = Returns (set_name (set_contentType vol C) name,
                        default "" snap, None)).
  { intros vol. destruct Hsfx as [[-> ->]|[[-> ->]|(-> & -> & Hb & Hi)]].
    - rewrite strings_HasSuffix_app, strings_TrimSuffix_app. reflexivity.
    - rewrite Hiso, strings_HasSuffix_app, strings_TrimSuffix_app.
      reflexivity.
    - rewrite str_app_nil_r, Hb, Hi. reflexivity. }
  destruct zombie; cbn [zombie_prefix].
  - change ("zombie_" +:+ "custom_" +:+ name +:+ sfx)
      with ("zombie_custom_" +:+ (name +:+ sfx)) in *.
    rewrite with_snapshot_app. decide_prefixes. cbv beta iota delta [orb].
    rewrite (after_prefix_cut "zombie_custom_" "custom_" _ 7)
      by (vm_compute; reflexivity).
    rewrite Hkind. reflexivity.
  - change ("" +:+ "custom_" +:+ name +:+ sfx)
      with ("custom_" +:+ (name +:+ sfx)) in *.
    rewrite with_snapshot_app. decide_prefixes. cbv beta iota delta [orb].
    rewrite (after_prefix_cut "custom_" "custom_" _ 0)
      by (vm_compute; reflexivity).
    rewrite Hkind. reflexivity.
Qed.

(** X4.  A well-formed image name decodes to its parts:
    [<pool>/[zombie_]image_<fingerprint>[_<filesystem>][.block][@<snapshot>]].
    The text after the last underscore is the filesystem and is stored
    under [block.filesystem]; without an underscore the configuration
    stays empty. *)
Theorem parseParent_decodes_image (pool name : string) (zombie : bool)
    (fs : option string) (sfx : string) (C : ContentType)
    (snap : option string) :
  (sfx = ".block" /\ C = ContentTypeBlock)
  \/ (sfx = "" /\ C = ContentTypeFS
      /\ strings_HasSuffix (name +:+ filesystem_part fs) ".block" = false) ->
  free_of "/" pool = true ->
  free_of "_" (default name fs) = true ->
  snapshot_delimited (name +:+ filesystem_part fs) snap = true ->
  parseParent
    (pool +:+ "/"
     +:+ with_snapshot
           (zombie_prefix zombie +:+ "image_"
            +:+ (name +:+ filesystem_part fs) +:+ sfx) snap)
  = Returns ({| vol_name := name; vol_pool := pool; vol_poolConfig := ∅;
                vol_volType := VolumeTypeImage; vol_contentType := C;
                vol_config :=
                  match fs with
                  | Some f => {[ "block.filesystem" := f ]}
                  | None => ∅
                  end;
                vol_isDeleted := zombie |},
             default "" snap, None).
Proof.
  intros Hsfx Hpool Hfs Hsnap.
  unfold parseParent. rewrite (strings_SplitN_pool _ _ Hpool).
  set (body := name +:+ filesystem_part fs) in *.
  assert (Hdel : snapshot_delimited
                   (zombie_prefix zombie +:+ "image_" +:+ body +:+ sfx) snap
                 = true).
  { destruct snap as [s|]; [exact Hsnap|]. cbn [snapshot_delimited] in *.
    rewrite !free_of_app, Hsnap.
    destruct zombie, Hsfx as [[-> _]|[-> _]]; reflexivity. }
  rewrite (split_snapshot_with _ _ Hdel).
  assert (Hkind : forall vol : Volume,
             (let '(name0, vol0) :=
                if strings_HasSuffix (body +:+ sfx) ".block"
                then (strings_TrimSuffix (body +:+ sfx) ".block",
                      set_contentType vol ContentTypeBlock)
                else (body +:+ sfx, set_contentType vol ContentTypeFS) in
              let '(name1, vol1) :=
                if strings_Contains name0 "_"
                then (strings_TrimSuffix name0
                        ("_" +:+ List.last (strings_Split name0 "_") ""),
                      set_config vol0
                        {[ "block.filesystem"
                           := List.last (strings_Split name0 "_") "" ]})
                else (name0, vol0) in
              Returns (set_name vol1 name1, default "" snap, @None error))
             = Returns (set_name
                          (match fs with
                           | Some f =>
                               set_config (set_contentType vol C)
                                 {[ "block.filesystem" := f ]}
                           | None => set_contentType vol C
                           end) name,
                        default "" snap, None)).
  { intros vol.
    assert (Hbody : (let '(name1, vol1) :=
                       if strings_Contains body "_"
                       then (strings_TrimSuffix body
                               ("_" +:+ List.last (strings_Split body "_") ""),
                             set_config (set_contentType vol C)
                               {[ "block.filesystem"
                                  := List.last (strings_Split body "_") "" ]})
                       else (body, set_contentType vol C) in
                     Returns (set_name vol1 name1, default "" snap,
                              @None error))
                    = Returns (set_name
                                 (match fs with
                                  | Some f =>
                                      set_config (set_contentType vol C)
                                        {[ "block.filesystem" := f ]}
                                  | None => set_contentType vol C
                                  end) name,
                               default "" snap, None)).
    { subst body. destruct fs as [f|]; cbn [filesystem_part default] in *.
      - change ("_" +:+ f) with (String "_" f).
        rewrite strings_Contains_char.
        destruct (strings_Split_last "_" name f Hfs) as (x & l & ->).
        rewrite app_comm_cons, last_last.
        change (String "_" f) with ("_" +:+ f).
        rewrite strings_TrimSuffix_app. reflexivity.
      - rewrite str_app_nil_r.
        rewrite (proj2 (strings_Contains_index name "_")
                   (proj1 (free_of_index "_" name) Hfs)).
        reflexivity. }
    destruct Hsfx as [[-> ->]|(-> & -> & Hb)].
    - rewrite strings_HasSuffix_app, strings_TrimSuffix_app. exact Hbody.
    - rewrite str_app_nil_r, Hb. exact Hbody. }
  destruct zombie; cbn [zombie_prefix].
  - change ("zombie_" +:+ "image_" +:+ body +:+ sfx)
      with ("zombie_image_" +:+ (body +:+ sfx)) in *.
    rewrite with_snapshot_app. decide_prefixes. cbv beta iota delta [orb].
    rewrite (after_prefix_cut "zombie_image_" "image_" _ 7)
      by (vm_compute; reflexivity).
    rewrite Hkind. destruct fs; reflexivity.
  - change ("" +:+ "image_" +:+ body +:+ sfx)
      with ("image_" +:+ (body +:+ sfx)) in *.
    rewrite with_snapshot_app. decide_prefixes. cbv beta iota delta [orb].
    rewrite (after_prefix_cut "image_" "image_" _ 0)
      by (vm_compute; reflexivity).
    rewrite Hkind. destruct fs; reflexivity.
Qed.
End DecodeWellFormed.

Lemma parseParent_decodes_instance_witness :
  parseParent "pool/zombie_virtual-machine_v1.block@snapshot_s0"
  = Returns ({| vol_name := "v1"; vol_pool := "pool"; vol_poolConfig := ∅;
                vol_volType := "virtual-machine"; vol_contentType := "block";
                vol_config := ∅; vol_isDeleted := true |},
             "snapshot_s0", None).
Proof.
  exact (parseParent_decodes_instance "virtual-machine" VolumeTypeVM "pool" "v1" true
           ".block" ContentTypeBlock (Some "snapshot_s0")
           (or_intror (conj eq_refl eq_refl))
           (or_introl (conj eq_refl eq_refl)) eq_refl eq_refl).
Defined.

Lemma parseParent_decodes_custom_witness :
  parseParent "pool/custom_default_data.iso"
  = Returns ({| vol_name := "default_data"; vol_pool := "pool";
                vol_poolConfig := ∅; vol_volType := "custom";
                vol_contentType := "iso"; vol_config := ∅;
                vol_isDeleted := false |}, "", None).
Proof.
  exact (parseParent_decodes_custom "pool" "default_data" false ".iso" ContentTypeISO
           None (or_intror (or_introl (conj eq_refl eq_refl)))
           eq_refl eq_refl).
Defined.

Lemma parseParent_decodes_image_witness :
  parseParent "pool/image_0a1b2c_ext4@readonly"
  = Returns ({| vol_name := "0a1b2c"; vol_pool := "pool";
                vol_poolConfig := ∅; vol_volType := "image";
                vol_contentType := "filesystem";
                vol_config := {[ "block.filesystem" := "ext4" ]};
                vol_isDeleted := false |}, "readonly", None).
Proof.
  exact (parseParent_decodes_image "pool" "0a1b2c" false (Some "ext4") ""
           ContentTypeFS (Some "readonly")
           (or_intror (conj eq_refl (conj eq_refl eq_refl)))
           eq_refl eq_refl eq_refl).
Defined.

(** A word in front of a delimiter is the word that a prefix with the
    same delimiter names. *)
Lemma strings_HasPrefix_word (c : ascii) (p q : string) :
  free_of c p = true ->
  forall t r : string,
    free_of c t = true ->
    strings_HasPrefix (t +:+ String c r) (p +:+ String c q) = true -> t = p.
Proof.
  induction p as [|x p IH]; intros Hp t r Ht H.
  - destruct t as [|y t]; [reflexivity|].
    rewrite free_of_cons in Ht.
    change (strings_HasPrefix (String y (t +:+ String c r)) (String c q)
            = true) in H.
    cbn [strings_HasPrefix] in H. rewrite Ascii.eqb_sym in H.
    destruct (Ascii.eqb y c); [discriminate Ht | discriminate H].
  - rewrite free_of_cons in Hp. apply andb_true_iff in Hp.
    destruct Hp as [Hx Hp].
    change (String x p +:+ String c q) with (String x (p +:+ String c q)) in H.
    destruct t as [|y t].
    + change ("" +:+ String c r) with (String c r) in H.
      cbn [strings_HasPrefix] in H.
      destruct (Ascii.eqb x c); [discriminate Hx | discriminate H].
    + rewrite free_of_cons in Ht. apply andb_true_iff in Ht.
      destruct Ht as [_ Ht].
      change (String y t +:+ String c r) with (String y (t +:+ String c r)) in H.
      cbn [strings_HasPrefix] in H.
      destruct (Ascii.eqb x y) eqn:Hxy; [|discriminate H].
      apply Ascii.eqb_eq in Hxy. subst y. f_equal. exact (IH Hp t r Ht H).
Qed.

Lemma parseClone_well_formed (pool t name : string) (zombie : bool) :
  free_of "/" pool = true ->
  free_of "_" t = true ->
  (zombie = false -> t <> "zombie") ->
  parseClone (pool +:+ "/" +:+ zombie_prefix zombie +:+ t +:+ "_" +:+ name)
  = (pool, t, name, zombie, None).
Proof.
  intros Hpool Ht Hz. unfold parseClone.
  rewrite (strings_SplitN_pool _ _ Hpool).
  destruct zombie; cbn [zombie_prefix].
  - rewrite strings_HasPrefix_self, strings_TrimPrefix_app.
    change ("_" +:+ name) with (String "_" name).
    rewrite (strings_SplitN_char "_" t name Ht). reflexivity.
  - change ("" +:+ t +:+ "_" +:+ name) with (t +:+ String "_" name).
    assert (Hnz : strings_HasPrefix (t +:+ String "_" name) "zombie_" = false).
    { destruct (strings_HasPrefix (t +:+ String "_" name) "zombie_") eqn:E;
        [|reflexivity].
      exfalso. apply (Hz eq_refl).
      exact (strings_HasPrefix_word "_" "zombie" "" eq_refl t name Ht E). }
    unfold strings_TrimPrefix. rewrite Hnz.
    rewrite (strings_SplitN_char "_" t name Ht). reflexivity.
Qed.

Lemma parseClone_no_type_word (pool rest : string) :
  free_of "/" pool = true ->
  free_of "_" (strings_TrimPrefix rest "zombie_") = true ->
  parseClone (pool +:+ "/" +:+ rest)
  = ("", "", "", false, Some (Errorf "Unexpected parsing error" [])).
Proof.
  intros Hpool Hrest. unfold parseClone.
  rewrite (strings_SplitN_pool _ _ Hpool).
  rewrite (strings_SplitN_2_none _ _ (proj1 (free_of_index _ _) Hrest)).
  reflexivity.
Qed.

(** X5.  A clone name [<pool>/[zombie_]<type>_<name>] decodes to the
    pool, the type word, the name and the zombie flag.  The type word
    holds no underscore, and is not [zombie] when the name carries no
    marker; the name is returned whole, suffix and snapshot part
    included.  A name whose part after the pool, once the zombie
    marker is stripped, holds no underscore is rejected with
    "Unexpected parsing error": the underscore of the marker does not
    count as the one that ends the type word. *)
Theorem parseClone_decodes (pool : string) :
  free_of "/" pool = true ->
  (forall (t name : string) (zombie : bool),
      free_of "_" t = true ->
      (zombie = false -> t <> "zombie") ->
      parseClone (pool +:+ "/" +:+ zombie_prefix zombie +:+ t +:+ "_" +:+ name)
      = (pool, t, name, zombie, None))
  /\ (forall rest : string,
         free_of "_" (strings_TrimPrefix rest "zombie_") = true ->
         parseClone (pool +:+ "/" +:+ rest)
         = ("", "", "", false, Some (Errorf "Unexpected parsing error" []))).
Proof.
  intros Hpool. split.
  - intros t name zombie. apply parseClone_well_formed. exact Hpool.
  - intros rest. apply parseClone_no_type_word. exact Hpool.
Qed.

Lemma parseClone_decodes_witness :
  parseClone "pool/zombie_virtual-machine_v1.block"
  = ("pool", "virtual-machine", "v1.block", true, None)
  /\ parseClone "pool/container_c1" = ("pool", "container", "c1", false, None)
  /\ parseClone "pool/zombie_c1"
     = ("", "", "", false, Some (Errorf "Unexpected parsing error" [])).
Proof.
  pose proof (parseClone_decodes "pool" eq_refl) as [Hok Hbad].
  split; [|split].
  - exact (Hok "virtual-machine" "v1.block" true eq_refl ltac:(discriminate)).
  - exact (Hok "container" "c1" false eq_refl ltac:(discriminate)).
  - exact (Hbad "zombie_c1" eq_refl).
Defined.

(** The two prefix tests of a branch of [parseParent] as one test on
    the name without its zombie marker. *)
Lemma zombie_prefix_test (p t : string) (c : ascii) (t' : string) :
  t = String c t' -> Ascii.eqb "z" c = false ->
  strings_HasPrefix p t || strings_HasPrefix p ("zombie_" +:+ t)
  = strings_HasPrefix (strings_TrimPrefix p "zombie_") t.
Proof.
  intros -> Hc. unfold strings_TrimPrefix. rewrite strings_HasPrefix_app.
  destruct (strings_HasPrefix p "zombie_") eqn:Hz.
  - rewrite (strings_HasPrefix_head _ _ _ _ _ Hc Hz). reflexivity.
  - rewrite orb_false_r. reflexivity.
Qed.

Section DecoderShape.
Context {externals : Externals}.

Lemma parseParent_cases (parent : string) :
  match strings_SplitN parent "/" 2 with
  | [pool; parentName] =>
      if matches_type_prefix (strings_TrimPrefix parentName "zombie_") then
        exists vol snapName,
          parseParent parent = Returns (vol, snapName, None)
          /\ vol_pool vol = pool
          /\ vol_isDeleted vol = strings_HasPrefix parentName "zombie_"
          /\ vol_poolConfig vol = ∅
          /\ decoded_kind vol
      else
        parseParent parent
        = Returns (set_isDeleted (set_pool Volume_zero pool)
                     (strings_HasPrefix parentName "zombie_"), "",
                   unrecognized_type parent)
  | _ => parseParent parent = Returns (Volume_zero, "", malformed_name)
  end.
Proof.
  unfold parseParent.
  destruct (strings_SplitN parent "/" 2) as [|pool [|parentName [|x l]]];
    try reflexivity.
  unfold matches_type_prefix, type_prefixes. cbn [existsb].
  change ("container" +:+ "_") with "container_".
  change ("virtual-machine" +:+ "_") with "virtual-machine_".
  change ("image" +:+ "_") with "image_".
  change ("custom" +:+ "_") with "custom_".
  rewrite <- (zombie_prefix_test parentName "container_" _ _ eq_refl eq_refl).
  rewrite <- (zombie_prefix_test parentName "virtual-machine_" _ _ eq_refl eq_refl).
  rewrite <- (zombie_prefix_test parentName "image_" _ _ eq_refl eq_refl).
  rewrite <- (zombie_prefix_test parentName "custom_" _ _ eq_refl eq_refl).
  change ("zombie_" +:+ "container_") with "zombie_container_".
  change ("zombie_" +:+ "virtual-machine_") with "zombie_virtual-machine_".
  change ("zombie_" +:+ "image_") with "zombie_image_".
  change ("zombie_" +:+ "custom_") with "zombie_custom_".
  destruct (strings_HasPrefix parentName "image_"
            || strings_HasPrefix parentName "zombie_image_") eqn:Hi.
  { rewrite !orb_true_r. cbn [orb].
    destruct (after_prefix_returns parentName "zombie_" "image_"
                eq_refl eq_refl Hi) as [rest Hrest].
    destruct (split_snapshot parentName) as [name snapName].
    cbn [fst] in Hrest. rewrite Hrest.
    destruct (strings_HasSuffix rest ".block");
      match goal with
      | |- context [strings_Contains ?n "_"] =>
          destruct (strings_Contains n "_")
      end;
      (eexists _, _; split; [reflexivity|]; repeat (split; [reflexivity|]);
       left; cbn; repeat split; eauto). }
  destruct (strings_HasPrefix parentName "custom_"
            || strings_HasPrefix parentName "zombie_custom_") eqn:Hc.
  { rewrite !orb_true_r. cbn [orb].
    destruct (after_prefix_returns parentName "zombie_" "custom_"
                eq_refl eq_refl Hc) as [rest Hrest].
    destruct (split_snapshot parentName) as [name snapName].
    cbn [fst] in Hrest. rewrite Hrest.
    destruct (strings_HasSuffix rest ".block");
      [|destruct (strings_HasSuffix rest ".iso")];
      (eexists _, _; split; [reflexivity|]; repeat (split; [reflexivity|]);
       right; left; cbn; repeat split; eauto). }
  destruct (strings_HasPrefix parentName "container_"
            || strings_HasPrefix parentName "zombie_container_") eqn:Hk.
  { cbn [orb].
    destruct (after_prefix_returns parentName "zombie_" "container_"
                eq_refl eq_refl Hk) as [rest Hrest].
    destruct (split_snapshot parentName) as [name snapName].
    cbn [fst] in Hrest. rewrite Hrest.
    destruct (strings_HasSuffix rest ".block");
      (eexists _, _; split; [reflexivity|]; repeat (split; [reflexivity|]);
       right; right; cbn; repeat split; eauto). }
  destruct (strings_HasPrefix parentName "virtual-machine_"
            || strings_HasPrefix parentName "zombie_virtual-machine_") eqn:Hv.
  { cbn [orb].
    destruct (after_prefix_returns parentName "zombie_" "virtual-machine_"
                eq_refl eq_refl Hv) as [rest Hrest].
    destruct (split_snapshot parentName) as [name snapName].
    cbn [fst] in Hrest. rewrite Hrest.
    destruct (strings_HasSuffix rest ".block");
      (eexists _, _; split; [reflexivity|]; repeat (split; [reflexivity|]);
       right; right; cbn; repeat split; eauto). }
  reflexivity.
Qed.

(** X6.  [parseParent] returns on every input: the index [1] into the
    cut at the type prefix is always in range.  It decodes a volume
    exactly when the name has a pool delimiter and the part after it,
    once an optional zombie marker is stripped, starts with one of the
    four type prefixes. *)
Theorem parseParent_accepts (parent : string) :
  (exists r, parseParent parent = Returns r)
  /\ ((exists vol snapName,
         parseParent parent = Returns (vol, snapName, None))
      <-> exists pool rest,
            strings_SplitN parent "/" 2 = [pool; rest]
            /\ matches_type_prefix (strings_TrimPrefix rest "zombie_") = true).
Proof.
  pose proof (parseParent_cases parent) as H.
  destruct (strings_SplitN parent "/" 2) as [|pool [|parentName [|x l]]].
  1, 2, 4: split; [eexists; exact H|];
    split; [intros (vol & sn & Hp); rewrite H in Hp; discriminate Hp
           | intros (p & r & Heq & _); discriminate Heq].
  destruct (matches_type_prefix (strings_TrimPrefix parentName "zombie_"))
    eqn:Hm.
  - destruct H as (vol & sn & Hp & _). split; [eexists; exact Hp|].
    split; [intros _; exists pool, parentName; split; [reflexivity | exact Hm]
           | intros _; exists vol, sn; exact Hp].
  - split; [eexists; exact H|].
    split; [intros (vol & sn & Hp); rewrite H in Hp; discriminate Hp
           | intros (p & r & [= <- <-] & Hm'); congruence].
Qed.

(** X7.  What a decoded volume looks like: its pool is the text before
    the first slash, it is a zombie exactly when the text after that
    slash starts with [zombie_], its pool configuration is empty, and
    its type, content type and configuration are one of the
    combinations of [decoded_kind] (ISO content only for custom
    volumes, a filesystem entry only for images). *)
Theorem parseParent_decoded (parent : string) (vol : Volume)
    (snapName : string) :
  parseParent parent = Returns (vol, snapName, None) ->
  exists parentName,
    strings_SplitN parent "/" 2 = [vol_pool vol; parentName]
    /\ vol_isDeleted vol = strings_HasPrefix parentName "zombie_"
    /\ vol_poolConfig vol = ∅
    /\ decoded_kind vol.
Proof.
  intros Hp. pose proof (parseParent_cases parent) as H.
  destruct (strings_SplitN parent "/" 2) as [|pool [|parentName [|x l]]];
    try (rewrite H in Hp; discriminate Hp).
  destruct (matches_type_prefix (strings_TrimPrefix parentName "zombie_"));
    [|rewrite H in Hp; discriminate Hp].
  destruct H as (vol' & sn & Hp' & Hpool & Hdel & Hcfg & Hkind).
  rewrite Hp in Hp'. injection Hp' as <- _.
  exists parentName. rewrite Hpool. repeat split; assumption.
Qed.
End DecoderShape.

Lemma strings_HasPrefix_split (s p : string) :
  strings_HasPrefix s p = true -> s = p +:+ str_drop (String.length p) s.
Proof.
  revert s. induction p as [|c p IH]; intros s H; [reflexivity|].
  destruct s as [|x s]; [discriminate H|].
  cbn [strings_HasPrefix] in H.
  destruct (Ascii.eqb c x) eqn:Hcx; [|discriminate H].
  apply Ascii.eqb_eq in Hcx. subst x.
  change (String c s = String c (p +:+ str_drop (String.length p) s)).
  f_equal. exact (IH s H).
Qed.

(** A name that starts with a type word and an underscore is cut
    there by [SplitN(name, "_", 2)]. *)
Lemma strings_SplitN_type (q t : string) :
  free_of "_" t = true ->
  strings_HasPrefix q (t +:+ "_") = true ->
  strings_SplitN q "_" 2 = [t; str_drop (String.length (t +:+ "_")) q].
Proof.
  intros Ht H. rewrite (strings_HasPrefix_split _ _ H) at 1.
  rewrite str_app_assoc.
  change ("_" +:+ str_drop (String.length (t +:+ "_")) q)
    with (String "_" (str_drop (String.length (t +:+ "_")) q)).
  apply (strings_SplitN_char "_"). exact Ht.
Qed.

Section DecoderAgreement.
Context {externals : Externals}.

(** X8.  A name that [parseParent] decodes is decoded by [parseClone]
    too, with the same pool and the same zombie flag, and with one of
    the four type words. *)
Theorem parseParent_parseClone_agree (parent : string) (vol : Volume)
    (snapName : string) :
  parseParent parent = Returns (vol, snapName, None) ->
  exists t rest,
    parseClone parent = (vol_pool vol, t, rest, vol_isDeleted vol, None)
    /\ In t type_prefixes.
Proof.
  intros Hp. pose proof (parseParent_cases parent) as H.
  unfold parseClone.
  destruct (strings_SplitN parent "/" 2) as [|pool [|parentName [|x l]]];
    try (rewrite H in Hp; discriminate Hp).
  destruct (matches_type_prefix (strings_TrimPrefix parentName "zombie_"))
    eqn:Hm; [|rewrite H in Hp; discriminate Hp].
  destruct H as (vol' & sn & Hp' & Hpool & Hdel & _).
  rewrite Hp in Hp'. injection Hp' as <- _. rewrite Hpool, Hdel.
  unfold matches_type_prefix in Hm. apply existsb_exists in Hm.
  destruct Hm as (t & Hin & Ht). exists t.
  assert (Hfree : free_of "_" t = true).
  { unfold type_prefixes in Hin. cbn [In] in Hin.
    destruct Hin as [<-|[<-|[<-|[<-|[]]]]]; reflexivity. }
  rewrite (strings_SplitN_type _ _ Hfree Ht).
  eexists. split; [reflexivity | exact Hin].
Qed.
End DecoderAgreement.

Lemma parseParent_decoded_witness :
  exists parentName,
    strings_SplitN "pool/zombie_image_0a1b2c_ext4.block@readonly" "/" 2
    = ["pool"; parentName]
    /\ true = strings_HasPrefix parentName "zombie_"
    /\ (∅ : gmap string string) = ∅
    /\ decoded_kind
         {| vol_name := "0a1b2c"; vol_pool := "pool"; vol_poolConfig := ∅;
            vol_volType := "image"; vol_contentType := "block";
            vol_config := {[ "block.filesystem" := "ext4" ]};
            vol_isDeleted := true |}.
Proof.
  exact (parseParent_decoded "pool/zombie_image_0a1b2c_ext4.block@readonly"
           _ "readonly" eq_refl).
Defined.

Lemma parseParent_parseClone_agree_witness :
  exists t rest,
    parseClone "pool/zombie_container_c1@snapshot_s0"
    = ("pool", t, rest, true, None)
    /\ In t type_prefixes.
Proof.
  exact (parseParent_parseClone_agree "pool/zombie_container_c1@snapshot_s0"
           (set_isDeleted
              (NewVolume "pool" "container" "filesystem" "c1" ∅ ∅) true)
           "snapshot_s0" eq_refl).
Defined.

(** ** Unmapping, continued *)

Section UnmapBounds.
Context {B : Type} {backend_ops : Backend B} {externals : Externals}.
Variable d : ceph.

Lemma retry_log_S (cmd : list string) (n : nat) :
  retry_log cmd (S n) = [EvRun "rbd" cmd; EvSleep 1] ++ retry_log cmd n.
Proof. reflexivity. Qed.

Lemma rbdUnmapVolume_again_bounded (fuel : nat) :
  forall (rbdVol : string) (bc : Z) (od : bool) (w : World B),
    0 <= bc <= 9 -> (Z.to_nat (10 - bc) <= fuel)%nat ->
    exists r w' n,
      rbdUnmapVolume_again d fuel rbdVol false bc od w = Done r w'
      /\ (Z.of_nat n <= 9 - bc)
      /\ log w' = log w ++ retry_log (unmap_args d rbdVol) n
                        ++ [EvRun "rbd" (unmap_args d rbdVol)].
Proof.
  induction fuel as [|fuel IH]; intros rbdVol bc od w Hbc Hfuel; [lia|].
  cbn [rbdUnmapVolume_again]. unfold bind at 1, RunCommand at 1.
  destruct (run_command "rbd" (unmap_args d rbdVol) (backend w))
    as [[out oe] b'] eqn:Hrun.
  cbv beta iota.
  assert (Hend : forall r : option error,
             exists r' w' n,
               Done r (mkWorld b' (log w ++ [EvRun "rbd" (unmap_args d rbdVol)]))
               = Done r' w'
               /\ (Z.of_nat n <= 9 - bc)
               /\ log w' = log w ++ retry_log (unmap_args d rbdVol) n
                                 ++ [EvRun "rbd" (unmap_args d rbdVol)]).
  { intros r. eexists r, _, 0%nat. split; [reflexivity|]. split; [lia|].
    reflexivity. }
  destruct oe as [e|]; [|apply Hend].
  destruct (exit_code e) as [code|]; [|apply Hend].
  destruct (code =? 22); [apply Hend|].
  destruct (code =? 16); [|apply Hend]. cbv zeta.
  destruct (bc + 1 =? 10) eqn:Hcap; [apply Hend|].
  apply Z.eqb_neq in Hcap.
  unfold bind at 1, Sleep at 1. cbn [backend log].
  destruct (IH rbdVol (bc + 1) od
              (mkWorld b' ((log w ++ [EvRun "rbd" (unmap_args d rbdVol)])
                           ++ [EvSleep 1]))
              ltac:(lia) ltac:(lia))
    as (r & w' & n & Hcall & Hn & Hlog).
  exists r, w', (S n). split; [exact Hcall|]. split; [lia|].
  rewrite Hlog. cbn [log]. rewrite retry_log_S, <- !app_assoc. reflexivity.
Qed.

(** X9.  Without the repeat flag the unmap always returns, on any
    backend, after at most nine busy rounds (a command and a pause of
    one second each) and one last command. *)
Theorem rbdUnmapVolume_bounded (vol : Volume) (fuel : nat) (w : World B) :
  let cmd := unmap_args d (getRBDVolumeName d vol "" false) in
  (10 <= fuel)%nat ->
  exists r w' n,
    rbdUnmapVolume d fuel vol false w = Done r w'
    /\ (n <= 9)%nat
    /\ log w' = log w ++ retry_log cmd n ++ [EvRun "rbd" cmd].
Proof.
  intros cmd Hfuel. unfold rbdUnmapVolume.
  destruct (rbdUnmapVolume_again_bounded fuel
              (getRBDVolumeName d vol "" false) 0 false w
              ltac:(lia) ltac:(lia))
    as (r & w' & n & Hcall & Hn & Hlog).
  exists r, w', n. split; [exact Hcall|]. split; [lia | exact Hlog].
Qed.

Lemma rbdUnmapVolume_again_diverges (rbdVol : string) :
  (forall b, exists out b',
      run_command "rbd" (unmap_args d rbdVol) b = ((out, None), b')) ->
  forall (fuel : nat) (bc : Z) (od : bool) (w : World B),
    rbdUnmapVolume_again d fuel rbdVol true bc od w = OutOfFuel.
Proof.
  intros Hok. induction fuel as [|fuel IH]; intros bc od w; [reflexivity|].
  destruct (Hok (backend w)) as (out & b' & Hrun).
  rewrite (rbdUnmapVolume_again_success d _ _ _ _ _ _ _ Hrun). apply IH.
Qed.

(** X10.  In repeat mode only an error or [EINVAL] ends the loop:
    against a backend that answers every unmap of the volume with
    success, no run of any length returns. *)
Theorem rbdUnmapVolume_repeat_needs_einval (vol : Volume) :
  (forall b, exists out b',
      run_command "rbd" (unmap_args d (getRBDVolumeName d vol "" false)) b
      = ((out, None), b')) ->
  forall (fuel : nat) (w : World B),
    rbdUnmapVolume d fuel vol true w = OutOfFuel.
Proof.
  intros Hok fuel w. unfold rbdUnmapVolume.
  apply rbdUnmapVolume_again_diverges. exact Hok.
Qed.

Lemma command_outcomes_S (name : string) (args : list string) (n : nat)
    (b : B) :
  command_outcomes name args (S n) b
  = snd (fst (run_command name args b))
    :: command_outcomes name args n (snd (run_command name args b)).
Proof.
  cbn [command_outcomes].
  destruct (run_command name args b) as [[out e] b']. reflexivity.
Qed.

Lemma run_command_eta (name : string) (args : list string) (b : B) :
  run_command name args b
  = ((fst (fst (run_command name args b)),
      snd (fst (run_command name args b))),
     snd (run_command name args b)).
Proof. destruct (run_command name args b) as [[out e] b']. reflexivity. Qed.

Lemma rbdUnmapVolume_again_stacked (rbdVol : string) (e : error) :
  is_einval e ->
  forall (n fuel : nat) (bc : Z) (od : bool) (w : World B),
    (n < fuel)%nat ->
    command_outcomes "rbd" (unmap_args d rbdVol) (S n) (backend w)
    = repeat None n ++ [Some e] ->
    rbdUnmapVolume_again d fuel rbdVol true bc od w
    = Done None
        (mkWorld (backend_after "rbd" (unmap_args d rbdVol) (S n) (backend w))
           (log w ++ repeat (EvRun "rbd" (unmap_args d rbdVol)) (S n))).
Proof.
  intros He. induction n as [|n IH]; intros fuel bc od w Hfuel Hout;
    (destruct fuel as [|fuel]; [lia|]);
    rewrite command_outcomes_S in Hout;
    pose proof (run_command_eta "rbd" (unmap_args d rbdVol) (backend w))
      as Hrun.
  - cbn [repeat app] in Hout. injection Hout as Hone.
    rewrite Hone in Hrun.
    rewrite (rbdUnmapVolume_again_einval d _ _ _ _ _ _ _ _ _ Hrun He).
    reflexivity.
  - cbn [repeat app] in Hout. injection Hout as Hone Hout.
    rewrite Hone in Hrun.
    rewrite (rbdUnmapVolume_again_success d _ _ _ _ _ _ _ Hrun).
    rewrite IH; [|lia|exact Hout].
    cbn [backend log backend_after repeat].
    rewrite <- app_assoc. reflexivity.
Qed.

(** X11.  Repeat mode removes every stacked mapping: [n] successful
    unmaps followed by [EINVAL] make [n + 1] commands, no pause, and
    no error. *)
Theorem rbdUnmapVolume_stacked (vol : Volume) (n fuel : nat) (w : World B)
    (e : error) :
  let cmd := unmap_args d (getRBDVolumeName d vol "" false) in
  is_einval e -> (n < fuel)%nat ->
  command_outcomes "rbd" cmd (S n) (backend w) = repeat None n ++ [Some e] ->
  rbdUnmapVolume d fuel vol true w
  = Done None
      (mkWorld (backend_after "rbd" cmd (S n) (backend w))
         (log w ++ repeat (EvRun "rbd" cmd) (S n))).
Proof.
  intros cmd He Hfuel Hout. unfold rbdUnmapVolume.
  apply (rbdUnmapVolume_again_stacked _ e He); assumption.
Qed.

(** X12.  The snapshot variant of the unmap has no busy retry: every
    failure other than [EINVAL], exit code 16 included, is returned
    right after the command that reported it.  In repeat mode [n]
    successes followed by [EINVAL] make [n + 1] commands and no
    error. *)
Theorem rbdUnmapVolumeSnapshot_outcomes (vol : Volume) (snapshotName : string) :
  let cmd := unmap_args d (getRBDVolumeName d vol snapshotName false) in
  (forall (flag : bool) (fuel : nat) (w : World B) (out : string)
          (e : error) (b' : B),
      run_command "rbd" cmd (backend w) = ((out, Some e), b') ->
      exit_code e <> Some 22 ->
      rbdUnmapVolumeSnapshot d (S fuel) vol snapshotName flag w
      = Done (Some e) (mkWorld b' (log w ++ [EvRun "rbd" cmd])))
  /\ (forall (n fuel : nat) (w : World B) (e : error),
        is_einval e -> (n < fuel)%nat ->
        command_outcomes "rbd" cmd (S n) (backend w)
        = repeat None n ++ [Some e] ->
        rbdUnmapVolumeSnapshot d fuel vol snapshotName true w
        = Done None
            (mkWorld (backend_after "rbd" cmd (S n) (backend w))
               (log w ++ repeat (EvRun "rbd" cmd) (S n)))).
Proof.
  intros cmd. split.
  - intros flag fuel w out e b' Hrun Hcode.
    cbn [rbdUnmapVolumeSnapshot]. fold cmd.
    erewrite bind_Done by (apply RunCommand_eq; exact Hrun).
    cbv beta iota. destruct (exit_code e) as [code|]; [|reflexivity].
    destruct (Z.eqb_spec code 22) as [->|_]; [congruence | reflexivity].
  - intros n. induction n as [|n IH]; intros fuel w e He Hfuel Hout;
      (destruct fuel as [|fuel]; [lia|]);
      rewrite command_outcomes_S in Hout;
      pose proof (run_command_eta "rbd" cmd (backend w)) as Hrun;
      cbn [repeat app] in Hout;
      first [injection Hout as Hone Hout | injection Hout as Hone];
      rewrite Hone in Hrun;
      cbn [rbdUnmapVolumeSnapshot]; fold cmd;
      erewrite bind_Done by (apply RunCommand_eq; exact Hrun);
      cbv beta iota.
    + rewrite He. reflexivity.
    + rewrite IH with (e := e); [|exact He|lia|exact Hout].
      cbn [backend log backend_after repeat].
      rewrite <- app_assoc. reflexivity.
Qed.
End UnmapBounds.

Lemma rbdUnmapVolume_bounded_witness :
  exists r w' n,
    rbdUnmapVolume sample_ceph 10 (sample_volume "c1" false) false
      (scripted (repeat (exits 16) 3 ++ [exits 1]) []) = Done r w'
    /\ (n <= 9)%nat
    /\ log w'
       = [] ++ retry_log (unmap_args sample_ceph "container_c1") n
            ++ [EvRun "rbd" (unmap_args sample_ceph "container_c1")].
Proof.
  exact (rbdUnmapVolume_bounded sample_ceph (sample_volume "c1" false) 10
           (scripted (repeat (exits 16) 3 ++ [exits 1]) []) (le_n 10)).
Defined.

Lemma rbdUnmapVolume_repeat_needs_einval_witness :
  rbdUnmapVolume (backend_ops := Obliging_Backend) sample_ceph 1000
    (sample_volume "c1" false) true (mkWorld (mkObliging 0) [])
  = OutOfFuel.
Proof.
  apply (rbdUnmapVolume_repeat_needs_einval (backend_ops := Obliging_Backend)
           sample_ceph (sample_volume "c1" false)).
  intros b. eexists _, _. reflexivity.
Defined.

Lemma rbdUnmapVolume_stacked_witness :
  rbdUnmapVolume sample_ceph 4 (sample_volume "c1" false) true
    (mkWorld (mkKernel 3) [])
  = Done None
      (mkWorld (mkKernel 0)
         (repeat (EvRun "rbd" (unmap_args sample_ceph "container_c1")) 4)).
Proof.
  exact (rbdUnmapVolume_stacked sample_ceph (sample_volume "c1" false) 3 4
           (mkWorld (mkKernel 3) []) (RunError (Some 22) "")
           eq_refl (le_n 4) eq_refl).
Defined.

Lemma rbdUnmapVolumeSnapshot_outcomes_witness :
  rbdUnmapVolumeSnapshot sample_ceph 1 (sample_volume "c1" false) "snap0" true
    (scripted [exits 16; exits 22] [])
  = Done (Some (RunError (Some 16) ""))
      (mkWorld (mkScript [exits 22] [] ([], None) [])
         [EvRun "rbd" (unmap_args sample_ceph "container_c1@snap0")])
  /\ rbdUnmapVolumeSnapshot sample_ceph 3 (sample_volume "c1" false) "snap0"
       true (mkWorld (mkKernel 2) [])
     = Done None
         (mkWorld (mkKernel 0)
            (repeat (EvRun "rbd" (unmap_args sample_ceph "container_c1@snap0"))
               3)).
Proof.
  split.
  - exact (proj1 (rbdUnmapVolumeSnapshot_outcomes sample_ceph
                    (sample_volume "c1" false) "snap0")
             true 0%nat (scripted [exits 16; exits 22] []) ""
             (RunError (Some 16) "") _ eq_refl ltac:(discriminate)).
  - exact (proj2 (rbdUnmapVolumeSnapshot_outcomes sample_ceph
                    (sample_volume "c1" false) "snap0")
             2%nat 3%nat (mkWorld (mkKernel 2) []) (RunError (Some 22) "")
             eq_refl (le_n 3) eq_refl).
Defined.

(** ** The deletion walk, continued *)

Section WalkEdges.
Context {B : Type} {backend_ops : Backend B} {externals : Externals}.
Variable d : ceph.

Ltac run_step H :=
  erewrite bind_Done by (exact H); cbv beta iota zeta.

Lemma rbdListVolumeSnapshots_log (vol : Volume) (w w' : World B)
    (r : list string * option error) :
  rbdListVolumeSnapshots d vol w = Done r w' ->
  log_since w w' [snap_ls_event d vol].
Proof.
  unfold rbdListVolumeSnapshots, bind, RunCommand, log_since, snap_ls_event.
  destruct (run_command _ _ (backend w)) as [[msg [e|]] b'];
    [intros [= _ <-]; reflexivity|].
  destruct (json_Unmarshal msg) as [data [e|]]; [intros [= _ <-]; reflexivity|].
  destruct (snapshot_names data []) as [l|e]; [|intros [= _ <-]; reflexivity].
  destruct (Z.of_nat (length l) =? 0); intros [= _ <-]; reflexivity.
Qed.

Lemma rbdGetVolumeParent_log (vol : Volume) (w w' : World B)
    (r : string * option error) :
  rbdGetVolumeParent d vol w = Done r w' ->
  log_since w w' [info_event d vol].
Proof.
  unfold rbdGetVolumeParent, bind, RunCommand, log_since, info_event.
  destruct (run_command _ _ (backend w)) as [[msg [e|]] b'];
    [intros [= _ <-]; reflexivity|].
  cbv beta iota zeta.
  destruct (strings_Index msg "parent: " =? -1);
    [intros [= _ <-]; reflexivity|].
  destruct (strings_Index _ newline =? -1); intros [= _ <-]; reflexivity.
Qed.

Lemma rbdListSnapshotClones_log (vol : Volume) (snapshotName : string)
    (w w' : World B) (r : list string * option error) :
  rbdListSnapshotClones d vol snapshotName w = Done r w' ->
  log_since w w' [children_event d vol snapshotName].
Proof.
  unfold rbdListSnapshotClones, bind, RunCommand, log_since, children_event.
  destruct (run_command _ _ (backend w)) as [[msg [e|]] b'];
    [intros [= _ <-]; reflexivity|].
  cbv beta iota zeta.
  destruct (Z.of_nat (length _) =? 0); intros [= _ <-]; reflexivity.
Qed.

Lemma log_since_trans (w1 w2 w3 : World B) (a b : list event) :
  log_since w1 w2 a -> log_since w2 w3 b -> log_since w1 w3 (a ++ b).
Proof.
  unfold log_since. intros H1 H2. rewrite H2, H1, app_assoc. reflexivity.
Qed.

(** X13.  A failure before the first change.  The deletion of a volume
    gives up with the error at hand, having issued nothing but its
    queries, when the snapshot listing fails for a reason other than
    "not found", when the parent query does, or when the parent name
    does not decode; so does the deletion of a snapshot when the clone
    listing fails for such a reason. *)
Theorem walk_fails_before_change (fuel : nat) (vol : Volume) :
  (forall w0 w1 snaps e,
      rbdListVolumeSnapshots d vol w0 = Done (snaps, Some e) w1 ->
      (IsNotFoundError e = false ->
       deleteVolume d (S fuel) vol w0 = Done (-1, Some e) w1
       /\ log_since w0 w1 [snap_ls_event d vol])
      /\ (IsNotFoundError e = true ->
          forall parent err w2,
            rbdGetVolumeParent d vol w1 = Done (parent, err) w2 ->
            log_since w0 w2 [snap_ls_event d vol; info_event d vol]
            /\ (forall e',
                   err = Some e' -> IsNotFoundError e' = false ->
                   deleteVolume d (S fuel) vol w0 = Done (-1, Some e') w2)
            /\ (forall parentVol parentSnapshotName e',
                   err = None ->
                   parseParent parent
                   = Returns (parentVol, parentSnapshotName, Some e') ->
                   deleteVolume d (S fuel) vol w0 = Done (-1, Some e') w2)))
  /\ (forall snapshotName w0 w1 clones e,
        rbdListSnapshotClones d vol snapshotName w0
        = Done (clones, Some e) w1 ->
        IsNotFoundError e = false ->
        deleteVolumeSnapshot d (S fuel) vol snapshotName w0
        = Done (-1, Some e) w1
        /\ log_since w0 w1 [children_event d vol snapshotName]).
Proof.
  split.
  - intros w0 w1 snaps e Hlist. split.
    + intros Hnf. split; [|exact (rbdListVolumeSnapshots_log _ _ _ _ Hlist)].
      rewrite deleteVolume_S. unfold deleteVolume_body.
      run_step Hlist. rewrite Hnf. reflexivity.
    + intros Hnf parent err w2 Hparent. split; [|split].
      * exact (log_since_trans _ _ _ _ _
                 (rbdListVolumeSnapshots_log _ _ _ _ Hlist)
                 (rbdGetVolumeParent_log _ _ _ _ Hparent)).
      * intros e' -> Hnf'.
        rewrite deleteVolume_S. unfold deleteVolume_body.
        run_step Hlist. rewrite Hnf. cbn [negb].
        run_step Hparent. rewrite Hnf'. reflexivity.
      * intros pv psn e' -> Hparse.
        rewrite deleteVolume_S. unfold deleteVolume_body.
        run_step Hlist. rewrite Hnf. cbn [negb].
        run_step Hparent. rewrite Hparse. reflexivity.
  - intros snap w0 w1 clones e Hlist Hnf.
    split; [|exact (rbdListSnapshotClones_log _ _ _ _ _ Hlist)].
    rewrite deleteVolumeSnapshot_S. unfold deleteVolumeSnapshot_body.
    run_step Hlist. rewrite Hnf. reflexivity.
Qed.



(** X15.  No snapshots and no parent (both queries answer "not
    found"): the volume is unmapped, and removed only if the unmap
    succeeded; a failed unmap or a failed [rm] gives -1 with that
    error, a successful [rm] gives 0. *)
Theorem deleteVolume_without_parent (fuel : nat) (vol : Volume)
    (w0 w1 w2 w3 : World B) (snaps : list string) (e e' : error)
    (parent : string) (unmapped : option error) :
  rbdListVolumeSnapshots d vol w0 = Done (snaps, Some e) w1 ->
  IsNotFoundError e = true ->
  rbdGetVolumeParent d vol w1 = Done (parent, Some e') w2 ->
  IsNotFoundError e' = true ->
  rbdUnmapVolume d fuel vol true w2 = Done unmapped w3 ->
  (forall e'', unmapped = Some e'' ->
               deleteVolume d (S fuel) vol w0 = Done (-1, Some e'') w3)
  /\ (unmapped = None ->
      forall removed w4,
        rbdDeleteVolume d vol w3 = Done removed w4 ->
        log_since w3 w4 [rm_event d vol]
        /\ deleteVolume d (S fuel) vol w0
           = Done (match removed with
                   | Some e'' => (-1, Some e'')
                   | None => (0, None)
                   end) w4).
Proof.
  intros Hlist Hnf Hparent Hnf' Hunmap.
  assert (Hstart : deleteVolume d (S fuel) vol w0
                   = match unmapped with
                     | Some e'' => ret (-1, Some e'')
                     | None =>
                         let* err := rbdDeleteVolume d vol in
                         match err with
                         | Some e'' => ret (-1, Some e'')
                         | None => ret (0, None)
                         end
                     end w3).
  { rewrite deleteVolume_S. unfold deleteVolume_body.
    run_step Hlist. rewrite Hnf. cbn [negb].
    run_step Hparent. rewrite Hnf'. cbn [negb].
    run_step Hunmap. reflexivity. }
  split.
  - intros e'' ->. exact Hstart.
  - intros -> removed w4 Hrm. split.
    + unfold rbdDeleteVolume, bind, RunCommand in Hrm.
      destruct (run_command _ _ (backend w3)) as [[out oe] b'].
      injection Hrm as _ <-. reflexivity.
    + rewrite Hstart. run_step Hrm. destruct removed; reflexivity.
Qed.
End WalkEdges.

Section BlockedSnapshots.
Context {B : Type} {backend_ops : Backend B} {externals : Externals}.
Variable d : ceph.

Ltac run_step H :=
  erewrite bind_Done by (exact H); cbv beta iota zeta.

Lemma for_range_clones_walked (fuel : nat) (vol : Volume)
    (clones : list string) (w w' : World B) (c c' : bool) :
  clones_walked d fuel vol clones w c w' c' ->
  for_range clones
    (deleteVolumeSnapshot_each_clone d (deleteVolume d fuel) vol) c w
  = Done (Continue c') w'.
Proof.
  induction 1 as [w c|clone clones pn ct cn w w' c c' Hparse _ IH
                 |clone clones pn ct cn w w1 w2 r e c c' Hparse Hcall Hr _ IH].
  - reflexivity.
  - cbn [for_range]. unfold deleteVolumeSnapshot_each_clone at 1.
    rewrite Hparse. cbv beta iota zeta. cbn [negb].
    unfold bind at 1, ret at 1. exact IH.
  - cbn [for_range]. unfold deleteVolumeSnapshot_each_clone at 1.
    rewrite Hparse. cbv beta iota zeta. cbn [negb].
    unfold bind at 1. unfold bind at 1.
    fold (zombie_clone d vol ct cn). rewrite Hcall. cbv beta iota.
    rewrite (proj2 (Z.ltb_ge r 0) Hr).
    destruct (r =? 1); unfold ret at 1; cbv beta iota; exact IH.
Qed.

(** A live clone blocks the deletion whatever comes after it. *)
Lemma clones_walked_blocked (fuel : nat) (vol : Volume)
    (clones : list string) (w w' : World B) (c c' : bool) :
  clones_walked d fuel vol clones w c w' c' -> c = false -> c' = false.
Proof.
  induction 1 as [w c|clone clones pn ct cn w w' c c' _ _ IH
                 |clone clones pn ct cn w w1 w2 r e c c' _ _ _ _ IH];
    intros Hc.
  - exact Hc.
  - apply IH. reflexivity.
  - apply IH. subst c. destruct (r =? 1); reflexivity.
Qed.

Lemma clones_walked_live_clone (fuel : nat) (vol : Volume)
    (clones : list string) (w w' : World B) (c c' : bool) :
  clones_walked d fuel vol clones w c w' c' ->
  forall clone poolName cloneType cloneName,
    In clone clones ->
    parseClone clone = (poolName, cloneType, cloneName, false, None) ->
    c' = false.
Proof.
  induction 1 as [w c|clone0 clones pn ct cn w w' c c' Hparse Hrest IH
                 |clone0 clones pn ct cn w w1 w2 r e c c' Hparse _ _ _ IH];
    intros clone pn' ct' cn' Hin Hlive.
  - destruct Hin.
  - exact (clones_walked_blocked _ _ _ _ _ _ _ Hrest eq_refl).
  - destruct Hin as [<-|Hin]; [congruence|].
    exact (IH _ _ _ _ Hin Hlive).
Qed.

Lemma rbdUnmapVolumeSnapshot_log (fuel : nat) :
  forall (vol : Volume) (snap : string) (flag : bool) (w w' : World B)
         (r : option error),
    rbdUnmapVolumeSnapshot d fuel vol snap flag w = Done r w' ->
    exists n,
      log_since w w'
        (repeat (EvRun "rbd" (unmap_args d (getRBDVolumeName d vol snap false)))
           n).
Proof.
  induction fuel as [|fuel IH]; intros vol snap flag w w' r; [discriminate|].
  cbn [rbdUnmapVolumeSnapshot]. unfold bind at 1, RunCommand at 1.
  destruct (run_command _ _ (backend w)) as [[out oe] b'].
  cbv beta iota.
  assert (Hend : forall x : option error,
             Done x (mkWorld b'
                       (log w ++ [EvRun "rbd"
                                    (unmap_args d
                                       (getRBDVolumeName d vol snap false))]))
             = Done r w' ->
             exists n,
               log_since w w'
                 (repeat (EvRun "rbd"
                            (unmap_args d (getRBDVolumeName d vol snap false)))
                    n)).
  { intros x [= _ <-]. exists 1%nat. reflexivity. }
  destruct oe as [e|].
  - destruct (exit_code e) as [code|]; [|apply Hend].
    destruct (code =? 22); apply Hend.
  - destruct flag; [|apply Hend]. intros Hcall.
    destruct (IH _ _ _ _ _ _ Hcall) as [n Hlog]. exists (S n).
    unfold log_since in *. cbn [log] in Hlog. rewrite Hlog.
    cbn [repeat]. rewrite <- app_assoc. reflexivity.
Qed.

(** X16.  A snapshot that a live clone still needs is never removed.
    After the loop over the clones (none of the calls failing), a
    snapshot that already carries the zombie prefix is left as it is;
    any other snapshot is unmapped and renamed to
    [zombie_snapshot_<uuid>].  In both cases the result is 1, and no
    [snap rm] of the snapshot is issued after the loop. *)
Theorem deleteVolumeSnapshot_blocked (fuel : nat) (vol : Volume)
    (snapshotName : string) (w0 w1 w2 : World B) (clones : list string)
    (canDelete : bool) (clone poolName cloneType cloneName : string) :
  rbdListSnapshotClones d vol snapshotName w0 = Done (clones, None) w1 ->
  clones_walked d fuel vol clones w1 true w2 canDelete ->
  In clone clones ->
  parseClone clone = (poolName, cloneType, cloneName, false, None) ->
  (strings_HasPrefix snapshotName "zombie_" = true ->
   deleteVolumeSnapshot d (S fuel) vol snapshotName w0 = Done (1, None) w2)
  /\ (strings_HasPrefix snapshotName "zombie_" = false ->
      forall w3 uuid w4 w5,
        rbdUnmapVolumeSnapshot d fuel vol snapshotName true w2
        = Done None w3 ->
        NewUUID w3 = Done uuid w4 ->
        rbdRenameVolumeSnapshot d vol snapshotName
          ("zombie_snapshot_" +:+ uuid) w4 = Done None w5 ->
        deleteVolumeSnapshot d (S fuel) vol snapshotName w0
        = Done (1, None) w5
        /\ exists evs,
             log_since w2 w5 evs
             /\ ~ In (snap_rm_event d vol snapshotName) evs).
Proof.
  intros Hlist Hwalk Hin Hlive.
  pose proof (clones_walked_live_clone _ _ _ _ _ _ _ Hwalk _ _ _ _ Hin Hlive)
    as ->.
  pose proof (for_range_clones_walked _ _ _ _ _ _ _ Hwalk) as Hloop.
  assert (Hstart : deleteVolumeSnapshot d (S fuel) vol snapshotName w0
                   = (if strings_HasPrefix snapshotName "zombie_"
                      then ret (1, None)
                      else
                        let* err :=
                          rbdUnmapVolumeSnapshot d fuel vol snapshotName true in
                        match err with
                        | Some e => ret (-1, Some e)
                        | None =>
                            let* uuid := NewUUID in
                            let* err :=
                              rbdRenameVolumeSnapshot d vol snapshotName
                                ("zombie_snapshot_" +:+ uuid) in
                            match err with
                            | Some e => ret (-1, Some e)
                            | None => ret (1, None)
                            end
                        end) w2).
  { rewrite deleteVolumeSnapshot_S. unfold deleteVolumeSnapshot_body.
    run_step Hlist. run_step Hloop. reflexivity. }
  split.
  - intros Hz. rewrite Hstart, Hz. reflexivity.
  - intros Hz w3 uuid w4 w5 Hunmap Huuid Hrename. split.
    + rewrite Hstart, Hz. run_step Hunmap. run_step Huuid.
      run_step Hrename. reflexivity.
    + destruct (rbdUnmapVolumeSnapshot_log _ _ _ _ _ _ _ Hunmap) as [n Hlog3].
      eexists. split.
      * unfold log_since in *.
        unfold rbdRenameVolumeSnapshot, bind, RunCommand in Hrename.
        destruct (run_command _ _ (backend w4)) as [[out oe] b'].
        injection Hrename as _ <-. cbn [log].
        rewrite (NewUUID_log _ _ _ Huuid), Hlog3, <- app_assoc. reflexivity.
      * intros Hbad. apply in_app_or in Hbad. destruct Hbad as [Hbad|Hbad].
        -- apply repeat_spec in Hbad.
           unfold snap_rm_event, unmap_args, rbd_pool_args in Hbad.
           cbn [app] in Hbad. discriminate Hbad.
        -- destruct Hbad as [Hbad|[]].
           unfold snap_rm_event, rbd_pool_args, rbd_cluster_args in Hbad.
           cbn [app] in Hbad. discriminate Hbad.
Qed.
End BlockedSnapshots.

Lemma walk_fails_before_change_witness :
  (exists w,
      deleteVolume sample_ceph 1 (sample_volume "c1" false)
        (scripted [exits 1] [])
      = Done (-1, Some (RunError (Some 1) "")) w)
  /\ (exists w,
         deleteVolume sample_ceph 1 (sample_volume "c1" false)
           (scripted [ok "[]"; exits 1] [])
         = Done (-1, Some (RunError (Some 1) "")) w)
  /\ (exists w,
         deleteVolume sample_ceph 1 (sample_volume "c1" false)
           (scripted
              [ok "[]";
               ok ("parent: pool/snapshot_c0@snap0" +:+ newline
                   +:+ "overlap: 1 GiB" +:+ newline)] [])
         = Done (-1, unrecognized_type "pool/snapshot_c0@snap0") w)
  /\ (exists w,
         deleteVolumeSnapshot sample_ceph 1 (sample_volume "c1" false) "snap0"
           (scripted [exits 1] [])
         = Done (-1, Some (RunError (Some 1) "")) w).
Proof.
  pose proof (walk_fails_before_change (B := Script) sample_ceph 0
                (sample_volume "c1" false)) as [Hvol Hsnap].
  split; [|split; [|split]].
  - edestruct (Hvol (scripted [exits 1] [])) as [Hhard _]; [evaluate|].
    eexists. apply Hhard. reflexivity.
  - edestruct (Hvol (scripted [ok "[]"; exits 1] [])) as [_ Hnf]; [evaluate|].
    edestruct Hnf as (_ & Hparent & _); [reflexivity | evaluate |].
    eexists. apply Hparent; reflexivity.
  - edestruct (Hvol (scripted
                       [ok "[]";
                        ok ("parent: pool/snapshot_c0@snap0" +:+ newline
                            +:+ "overlap: 1 GiB" +:+ newline)] []))
      as [_ Hnf]; [evaluate|].
    edestruct Hnf as (_ & _ & Hdecode); [reflexivity | evaluate |].
    eexists. eapply Hdecode; [reflexivity | evaluate].
  - edestruct (Hsnap "snap0" (scripted [exits 1] [])) as [Hres _];
      [evaluate | reflexivity |].
    eexists. exact Hres.
Defined.


Lemma deleteVolume_without_parent_witness :
  exists w,
    deleteVolume sample_ceph 2 (sample_volume "c1" false)
      (scripted [ok "[]"; ok "rbd image"; exits 22; ok ""] [])
    = Done (0, None) w.
Proof.
  edestruct (deleteVolume_without_parent sample_ceph 1
               (sample_volume "c1" false)
               (scripted [ok "[]"; ok "rbd image"; exits 22; ok ""] []))
    as [_ Hrm]; [evaluate | reflexivity | evaluate | reflexivity | evaluate |].
  edestruct Hrm as [_ Hres]; [reflexivity | evaluate |].
  eexists. exact Hres.
Defined.

Lemma deleteVolumeSnapshot_blocked_witness :
  exists w,
    deleteVolumeSnapshot sample_ceph 2 (sample_volume "c1" false) "snap0"
      (scripted [ok "pool/container_c2"; exits 22; ok ""] ["u1"])
    = Done (1, None) w
    /\ In (EvRun "rbd"
             (rbd_cluster_args sample_ceph
              ++ ["snap"; "rename"; "pool/container_c1@snap0";
                  "pool/container_c1@zombie_snapshot_u1"])) (log w).
Proof.
  edestruct (deleteVolumeSnapshot_blocked sample_ceph 1
               (sample_volume "c1" false) "snap0"
               (scripted [ok "pool/container_c2"; exits 22; ok ""] ["u1"]))
    as [_ Hrename].
  - evaluate.
  - eapply clones_walked_live; [evaluate | apply clones_walked_nil].
  - left. reflexivity.
  - evaluate.
  - edestruct Hrename as [Hres _]; [reflexivity | evaluate | evaluate | evaluate |].
    eexists. split; [exact Hres|]. vm_compute. tauto.
Defined.

(** ** The events of the walk *)

Section WalkEvents.
Context {B : Type} {backend_ops : Backend B} {externals : Externals}.
Variable d : ceph.

Lemma issues_ret {A : Type} (P : event -> Prop) (a : A) :
  issues (B := B) P (ret a).
Proof.
  intros w a' w' [= _ <-]. exists []. split; [symmetry; apply app_nil_r|].
  constructor.
Qed.

Lemma issues_bind {A C : Type} (P : event -> Prop) (m : M B A)
    (k : A -> M B C) :
  issues P m -> (forall a, issues P (k a)) -> issues P (bind m k).
Proof.
  intros Hm Hk w c w'. unfold bind.
  destruct (m w) as [a w1| |] eqn:Hmw; [|discriminate|discriminate].
  intros Hkw. destruct (Hm _ _ _ Hmw) as (evs1 & Hlog1 & Hall1).
  destruct (Hk a _ _ _ Hkw) as (evs2 & Hlog2 & Hall2).
  exists (evs1 ++ evs2). split.
  - rewrite Hlog2, Hlog1, app_assoc. reflexivity.
  - apply Forall_app. split; assumption.
Qed.

Lemma issues_stuck {A : Type} (P : event -> Prop) (m : M B A) :
  (forall w, m w = OutOfFuel \/ m w = Panicked) -> issues P m.
Proof. intros H w a w' Hm. destruct (H w) as [E|E]; congruence. Qed.

Lemma issues_for_range {X S R : Type} (P : event -> Prop) (xs : list X)
    (body : X -> S -> M B (loop_result R S)) :
  (forall x s, issues P (body x s)) ->
  forall s, issues P (for_range xs body s).
Proof.
  intros Hbody. induction xs as [|x xs IH]; intros s.
  - apply issues_ret.
  - cbn [for_range]. apply issues_bind; [apply Hbody|].
    intros [r|s']; [apply issues_ret | apply IH].
Qed.

Lemma issues_RunCommand (P : event -> Prop) (name : string)
    (args : list string) :
  P (EvRun name args) -> issues (B := B) P (RunCommand name args).
Proof.
  intros HP w r w'. unfold RunCommand.
  destruct (run_command name args (backend w)) as [r' b'].
  intros [= _ <-]. exists [EvRun name args]. split; [reflexivity|].
  constructor; [exact HP | constructor].
Qed.

Lemma issues_Sleep (P : event -> Prop) (seconds : Z) :
  P (EvSleep seconds) -> issues (B := B) P (Sleep seconds).
Proof.
  intros HP w r w' [= _ <-]. exists [EvSleep seconds].
  split; [reflexivity|]. constructor; [exact HP | constructor].
Qed.

Lemma issues_NewUUID (P : event -> Prop) : issues (B := B) P NewUUID.
Proof.
  intros w u w'. unfold NewUUID. destruct (uuid_New (backend w)) as [u' b'].
  intros [= _ <-]. exists []. split; [symmetry; apply app_nil_r|].
  constructor.
Qed.

Lemma driver_event_cluster (rest : list string) :
  driver_event d (EvRun "rbd" (rbd_cluster_args d ++ rest)).
Proof. split; [reflexivity|]. exists rest. reflexivity. Qed.

Lemma driver_event_pool (rest : list string) :
  driver_event d (EvRun "rbd" (rbd_pool_args d ++ rest)).
Proof.
  split; [reflexivity|].
  exists (["--pool"; cfg d "ceph.osd.pool_name"] ++ rest). reflexivity.
Qed.

(** Decompose a computation along its binds and tests; the leaves are
    commands of the driver, pauses of one second, and returns. *)
Ltac events_step :=
  match goal with
  | |- issues _ (ret _) => apply issues_ret
  | |- issues _ out_of_fuel => apply issues_stuck; intros ?; left; reflexivity
  | |- issues _ panic => apply issues_stuck; intros ?; right; reflexivity
  | |- issues _ NewUUID => apply issues_NewUUID
  | |- issues _ (Sleep 1) => apply issues_Sleep; reflexivity
  | |- issues _ (RunCommand "rbd" (unmap_args _ _)) =>
      apply issues_RunCommand; apply driver_event_pool
  | |- issues _ (RunCommand "rbd" (rbd_pool_args _ ++ _)) =>
      apply issues_RunCommand; apply driver_event_pool
  | |- issues _ (RunCommand "rbd" (rbd_cluster_args _ ++ _)) =>
      apply issues_RunCommand; apply driver_event_cluster
  | |- issues _ (bind _ _) => apply issues_bind; [|intros ?]
  | |- issues _ (for_range _ _ _) => apply issues_for_range; intros ? ?
  | |- issues _ (let (_, _) := ?x in _) => destruct x
  | |- issues _ (if ?c then _ else _) => destruct c
  | |- issues _ (match ?x with _ => _ end) => destruct x
  end.

Lemma issues_rbdUnmapVolume_again (fuel : nat) :
  forall rbdVol flag bc od,
    issues (driver_event d) (rbdUnmapVolume_again d fuel rbdVol flag bc od).
Proof.
  induction fuel as [|fuel IH]; intros rbdVol flag bc od;
    cbn [rbdUnmapVolume_again]; [events_step|].
  apply issues_bind; [events_step|]. intros [out [e|]].
  - destruct (exit_code e) as [code|]; [|events_step].
    destruct (code =? 22); [events_step|].
    destruct (code =? 16); [|events_step]. cbv zeta.
    destruct (bc + 1 =? 10); [events_step|].
    apply issues_bind; [events_step|]. intros _. apply IH.
  - destruct flag; [apply IH | events_step].
Qed.

Lemma issues_rbdUnmapVolumeSnapshot (fuel : nat) :
  forall vol snap flag,
    issues (driver_event d) (rbdUnmapVolumeSnapshot d fuel vol snap flag).
Proof.
  induction fuel as [|fuel IH]; intros vol snap flag;
    cbn [rbdUnmapVolumeSnapshot]; [events_step|].
  apply issues_bind; [events_step|]. intros [out [e|]].
  - repeat events_step.
  - destruct flag; [apply IH | events_step].
Qed.

Ltac walk_events_step IHv IHs :=
  first
    [ apply IHv
    | apply IHs
    | apply issues_rbdUnmapVolume_again
    | apply issues_rbdUnmapVolumeSnapshot
    | events_step ].

(** X17.  The walk talks to the backend through [rbd] only, always
    under the configured user and cluster, and pauses only for one
    second at a time. *)
Theorem walk_events (fuel : nat) :
  (forall vol, issues (driver_event d) (deleteVolume d fuel vol))
  /\ (forall vol snap,
        issues (driver_event d) (deleteVolumeSnapshot d fuel vol snap)).
Proof.
  induction fuel as [|fuel [IHv IHs]];
    [split; intros; apply issues_stuck; intros ?; left; reflexivity|].
  split.
  - intros vol. rewrite deleteVolume_S.
    unfold deleteVolume_body, deleteVolume_each_snapshot,
      rbdListVolumeSnapshots, rbdGetVolumeParent, rbdUnmapVolume,
      rbdMarkVolumeDeleted, rbdDeleteVolume.
    repeat walk_events_step IHv IHs.
  - intros vol snap. rewrite deleteVolumeSnapshot_S.
    unfold deleteVolumeSnapshot_body, deleteVolumeSnapshot_each_clone,
      rbdListSnapshotClones, rbdUnprotectVolumeSnapshot,
      rbdDeleteVolumeSnapshot, rbdRenameVolumeSnapshot.
    repeat walk_events_step IHv IHs.
Qed.
End WalkEvents.

(** ** Device mapping, continued *)

Section MappingMore.
Context {B : Type} {backend_ops : Backend B} {externals : Externals}.
Variable d : ceph.

Lemma for_range_inspect (vol : Volume) (w : World B) (files : list DirEntry) :
  exists r,
    for_range files (fun f _ => inspect_device d vol f) tt w = Done r w.
Proof.
  induction files as [|f files IH]; [eexists; reflexivity|].
  cbn [for_range]. unfold bind.
  destruct (inspect_device_cases d vol f w)
    as [H|[(idx & _ & _ & H)|(e & H)]]; rewrite H.
  - exact IH.
  - eexists. reflexivity.
  - eexists. reflexivity.
Qed.

(** X18.  Looking a device up without asking for a mapping only reads
    sysfs: the call always returns, in the world it started from, so
    no command is issued and nothing is logged. *)
Theorem getRBDMappedDevPath_read_only (vol : Volume) (w : World B) :
  exists r, getRBDMappedDevPath d vol false w = Done r w.
Proof.
  unfold getRBDMappedDevPath. unfold bind at 1, ReadDir at 1.
  destruct (os_ReadDir "/sys/devices/rbd" (backend w)) as [files err].
  destruct (other_than_not_exist err); [eexists; reflexivity|].
  unfold bind at 1.
  destruct (for_range_inspect vol w files) as [[r|[]] ->];
    eexists; reflexivity.
Qed.

(** X19.  When no device matches and a mapping is asked for, the
    volume is mapped: the result is the mapped path, flagged as newly
    mapped, or the error of the mapping.  A missing [/sys/devices/rbd]
    counts as no device; any other error of the listing is returned
    before any device is looked at or mapped. *)
Theorem getRBDMappedDevPath_maps_when_missing (vol : Volume) (w : World B)
    (files : list DirEntry) (err : option error) :
  os_ReadDir "/sys/devices/rbd" (backend w) = (files, err) ->
  (other_than_not_exist err = true ->
   forall mapIfMissing,
     getRBDMappedDevPath d vol mapIfMissing w = Done (false, "", err) w)
  /\ (other_than_not_exist err = false ->
      (forall g, In g files ->
                 inspect_device d vol g w = Done (Continue tt) w) ->
      getRBDMappedDevPath d vol true w
      = match rbdMapVolume d vol w with
        | Done (devPath, None) w' => Done (true, devPath, None) w'
        | Done (_, Some e) w' => Done (false, "", Some e) w'
        | OutOfFuel => OutOfFuel
        | Panicked => Panicked
        end).
Proof.
  intros Hdir. split.
  - intros Hother mapIfMissing. unfold getRBDMappedDevPath.
    unfold bind at 1, ReadDir at 1. rewrite Hdir, Hother. reflexivity.
  - intros Hother Hall. unfold getRBDMappedDevPath.
    unfold bind at 1, ReadDir at 1. rewrite Hdir, Hother.
    unfold bind at 1.
    rewrite (for_range_all_continue files
               (fun f _ => inspect_device d vol f) w Hall).
    unfold bind. destruct (rbdMapVolume d vol w) as [[devPath [e|]] w'| |];
      reflexivity.
Qed.
End MappingMore.

Lemma getRBDMappedDevPath_maps_when_missing_witness :
  getRBDMappedDevPath sample_ceph (sample_volume "c1" false) false
    (mkWorld (mkScript [] [] ([], Some (PathError false "/sys/devices/rbd")) [])
       [])
  = Done (false, "", Some (PathError false "/sys/devices/rbd"))
      (mkWorld
         (mkScript [] [] ([], Some (PathError false "/sys/devices/rbd")) [])
         [])
  /\ getRBDMappedDevPath sample_ceph (sample_volume "c1" false) true
       (mkWorld
          (mkScript [ok ("/dev/rbd0" +:+ newline)] []
             ([], Some (PathError true "/sys/devices/rbd")) []) [])
     = Done (true, "/dev/rbd0", None)
         (mkWorld
            (mkScript [] [] ([], Some (PathError true "/sys/devices/rbd")) [])
            [EvRun "rbd" (rbd_pool_args sample_ceph ++ ["map"; "container_c1"])]).
Proof.
  split.
  - exact (proj1 (getRBDMappedDevPath_maps_when_missing sample_ceph
                    (sample_volume "c1" false)
                    (mkWorld
                       (mkScript [] []
                          ([], Some (PathError false "/sys/devices/rbd")) [])
                       []) _ _ eq_refl) eq_refl false).
  - refine (proj2 (getRBDMappedDevPath_maps_when_missing sample_ceph
                     (sample_volume "c1" false)
                     (mkWorld
                        (mkScript [ok ("/dev/rbd0" +:+ newline)] []
                           ([], Some (PathError true "/sys/devices/rbd")) [])
                        []) _ _ eq_refl) eq_refl _).
    intros g [].
Defined.

(** ** Export and local copy *)

(** X20.  The connection is closed exactly once, as the last step, on
    every path of [sendVolume].  The call succeeds exactly when the
    pipe was created, the process started and the wait succeeded; a
    failed wait is reported with the diagnostic output; the process is
    waited for exactly when it was started. *)
Theorem sendVolume_outcome (d : ceph) (volumeName volumeParentName : string)
    (tracker : bool) (p : export_run) :
  let r := sendVolume d volumeName volumeParentName tracker p in
  (exists steps, snd r = steps ++ [SendClose] /\ ~ In SendClose steps)
  /\ (fst r = None
      <-> er_StderrPipe p = None /\ er_Start p = None /\ er_Wait p = None)
  /\ (forall e,
         er_StderrPipe p = None -> er_Start p = None -> er_Wait p = Some e ->
         fst r = Some (export_failed e (er_stderr p)))
  /\ (In SendStart (snd r) /\ er_Start p = None <-> In SendWait (snd r)).
Proof.
  cbv zeta. split; [|split; [|split]].
  - unfold sendVolume.
    destruct (er_StderrPipe p) as [e1|], (er_Start p) as [e2|],
      (er_Wait p) as [e3|], tracker;
      cbn [snd]; (eexists; split; [reflexivity|]);
      cbn [app In]; intros H;
      repeat (destruct H as [H|H]; [discriminate H|]); exact H.
  - unfold sendVolume.
    destruct (er_StderrPipe p) as [e1|], (er_Start p) as [e2|],
      (er_Wait p) as [e3|]; cbn [fst];
      (split; [intros H; try discriminate H; repeat split
              | intros (H1 & H2 & H3); try discriminate; reflexivity]).
  - intros e H1 H2 H3. unfold sendVolume. rewrite H1, H2, H3. reflexivity.
  - unfold sendVolume.
    destruct (er_StderrPipe p) as [e1|], (er_Start p) as [e2|],
      (er_Wait p) as [e3|], tracker; cbn [snd app In];
      (split;
       [ intros [H1 H2]; try discriminate H2;
         try (repeat first [left; reflexivity | right]);
         repeat (destruct H1 as [H1|H1]; [discriminate H1|]); destruct H1
       | intros H; split; try reflexivity;
         try (repeat first [left; reflexivity | right]);
         repeat (destruct H as [H|H]; [discriminate H|]); destruct H ]).
Qed.

(** X21.  The local copy succeeds exactly when the import started, the
    export ran to its end and the wait for the import succeeded; a
    failure to set up the pipe between the two is not looked at.  The
    import is waited for only when the export succeeded: a failed
    export is returned with the import started and not waited for. *)
Theorem copyWithSnapshots_outcome (d : ceph)
    (sourceVolumeName targetVolumeName sourceParentSnapshot : string)
    (p : copy_run) :
  let r := copyWithSnapshots d sourceVolumeName targetVolumeName
             sourceParentSnapshot p in
  (forall pipe,
      copyWithSnapshots d sourceVolumeName targetVolumeName
        sourceParentSnapshot
        (mkCopyRun pipe (cr_recv_Start p) (cr_send_Run p) (cr_recv_Wait p))
      = r)
  /\ (fst r = None
      <-> cr_recv_Start p = None /\ cr_send_Run p = None
          /\ cr_recv_Wait p = None)
  /\ (In CopyRecvWait (snd r)
      <-> cr_recv_Start p = None /\ cr_send_Run p = None)
  /\ (forall e, cr_recv_Start p = None -> cr_send_Run p = Some e ->
                fst r = Some e /\ In CopyRecvStart (snd r)).
Proof.
  cbv zeta. split; [|split; [|split]].
  - intros pipe. reflexivity.
  - unfold copyWithSnapshots.
    destruct (cr_recv_Start p) as [e1|], (cr_send_Run p) as [e2|],
      (cr_recv_Wait p) as [e3|]; cbn [fst];
      (split; [intros H; try discriminate H; repeat split
              | intros (H1 & H2 & H3); try discriminate; reflexivity]).
  - unfold copyWithSnapshots.
    destruct (cr_recv_Start p) as [e1|], (cr_send_Run p) as [e2|],
      (cr_recv_Wait p) as [e3|]; cbn [snd app In];
      (split;
       [ intros H; try (split; reflexivity);
         repeat (destruct H as [H|H]; [discriminate H|]); destruct H
       | intros [H1 H2]; try discriminate;
         repeat first [left; reflexivity | right] ]).
  - intros e H1 H2. unfold copyWithSnapshots. rewrite H1, H2.
    split; [reflexivity|]. cbn [snd app In].
    repeat first [left; reflexivity | right].
Qed.

Lemma sendVolume_outcome_witness :
  fst (sendVolume sample_ceph "pool/container_c1@snapshot_s1" "snapshot_s0"
         false (mkExportRun None None "rbd: error" (Some (ExitError 1))))
  = Some (export_failed (ExitError 1) "rbd: error").
Proof.
  exact (proj1 (proj2 (proj2 (sendVolume_outcome sample_ceph
                                "pool/container_c1@snapshot_s1" "snapshot_s0"
                                false
                                (mkExportRun None None "rbd: error"
                                   (Some (ExitError 1))))))
           (ExitError 1) eq_refl eq_refl eq_refl).
Defined.

Lemma copyWithSnapshots_outcome_witness :
  fst (copyWithSnapshots sample_ceph "pool/container_c1" "pool/container_c2"
         "" (mkCopyRun (Some (OtherError "pipe")) None (Some (ExitError 2))
               None))
  = Some (ExitError 2)
  /\ In CopyRecvStart
       (snd (copyWithSnapshots sample_ceph "pool/container_c1"
               "pool/container_c2" ""
               (mkCopyRun (Some (OtherError "pipe")) None
                  (Some (ExitError 2)) None))).
Proof.
  exact (proj2 (proj2 (proj2 (copyWithSnapshots_outcome sample_ceph
                                "pool/container_c1" "pool/container_c2" ""
                                (mkCopyRun (Some (OtherError "pipe")) None
                                   (Some (ExitError 2)) None))))
           (ExitError 2) eq_refl eq_refl).
Defined.

(** ** Creating volumes, snapshots and clones *)

Section CreationFacts.
Context {B : Type} {backend_ops : Backend B} {externals : Externals}
  {utilities : Utilities}.
Variable d : ceph.

Lemma feature_flags (features : list string) :
  forall cmd : list string,
    fold_left (fun cmd feature => cmd ++ ["--image-feature"; feature])
      features cmd
    = cmd ++ flat_map (fun feature => ["--image-feature"; feature]) features.
Proof.
  induction features as [|f features IH]; intros cmd; cbn [fold_left flat_map].
  - symmetry. apply app_nil_r.
  - rewrite IH, <- app_assoc. reflexivity.
Qed.

(** X22.  Creating a volume and creating a clone describe the image
    with the same options, put between the connection arguments and
    the operation: one [--image-feature] per configured feature, in
    order ([layering] when none is configured), then the data pool
    when one is configured.  A size that does not parse is returned as
    the error before any command is issued. *)
Theorem creation_commands (vol : Volume) (size : string) :
  (forall n e w,
      ParseByteSizeString size = (n, Some e) ->
      rbdCreateVolume d vol size w = Done (Some e) w)
  /\ (forall n,
         ParseByteSizeString size = (n, None) ->
         rbdCreateVolume d vol size
         = let* (_, err) :=
             RunCommand "rbd"
               (rbd_pool_args d ++ image_options d
                ++ ["--size"; format_int n +:+ "B"; "create";
                    getRBDVolumeName d vol "" false]) in
           ret err)
  /\ (forall sourceSnapshotName targetVol,
         rbdCreateClone d vol sourceSnapshotName targetVol
         = let* (_, err) :=
             RunCommand "rbd"
               (rbd_cluster_args d ++ image_options d
                ++ ["clone";
                    getRBDVolumeName d vol sourceSnapshotName true;
                    getRBDVolumeName d targetVol "" true]) in
           ret err).
Proof.
  split; [|split].
  - intros n e w Hparse. unfold rbdCreateVolume. rewrite Hparse. reflexivity.
  - intros n Hparse. unfold rbdCreateVolume, image_options, rbd_pool_args.
    rewrite Hparse.
    destruct (String.eqb (cfg d "ceph.rbd.features") "");
      destruct (String.eqb (cfg d "ceph.osd.data_pool_name") "");
      cbn [negb]; rewrite ?feature_flags; cbn [flat_map];
      rewrite <- ?app_assoc; reflexivity.
  - intros snap targetVol.
    unfold rbdCreateClone, image_options, rbd_cluster_args.
    destruct (String.eqb (cfg d "ceph.rbd.features") "");
      destruct (String.eqb (cfg d "ceph.osd.data_pool_name") "");
      cbn [negb]; rewrite ?feature_flags; cbn [flat_map];
      rewrite <- ?app_assoc; reflexivity.
Qed.

(** X23.  Protecting a snapshot tolerates exit code 16 and nothing
    else; unprotecting tolerates exit code 22 and nothing else.  Each
    issues a single command and passes every other failure on
    unchanged. *)
Theorem protect_unprotect_tolerance (vol : Volume) (snapshotName : string)
    (w : World B) (out : string) (e : error) (b' : B) :
  let protect := rbd_pool_args d
                 ++ ["snap"; "protect"; "--snap"; snapshotName;
                     getRBDVolumeName d vol "" false] in
  let unprotect := rbd_pool_args d
                   ++ ["snap"; "unprotect"; "--snap"; snapshotName;
                       getRBDVolumeName d vol "" false] in
  (run_command "rbd" protect (backend w) = ((out, Some e), b') ->
   rbdProtectVolumeSnapshot d vol snapshotName w
   = Done (if decide (exit_code e = Some 16) then None else Some e)
       (mkWorld b' (log w ++ [EvRun "rbd" protect])))
  /\ (run_command "rbd" unprotect (backend w) = ((out, Some e), b') ->
      rbdUnprotectVolumeSnapshot d vol snapshotName w
      = Done (if decide (exit_code e = Some 22) then None else Some e)
          (mkWorld b' (log w ++ [EvRun "rbd" unprotect]))).
Proof.
  intros protect unprotect. split; intros Hrun.
  - unfold rbdProtectVolumeSnapshot. fold protect.
    erewrite bind_Done by (apply RunCommand_eq; exact Hrun).
    cbv beta iota. destruct (exit_code e) as [code|].
    + destruct (Z.eqb_spec code 16) as [->|Hne].
      * rewrite decide_True by reflexivity. reflexivity.
      * rewrite decide_False by congruence. reflexivity.
    + rewrite decide_False by discriminate. reflexivity.
  - unfold rbdUnprotectVolumeSnapshot. fold unprotect.
    erewrite bind_Done by (apply RunCommand_eq; exact Hrun).
    cbv beta iota. destruct (exit_code e) as [code|].
    + destruct (Z.eqb_spec code 22) as [->|Hne].
      * rewrite decide_True by reflexivity. reflexivity.
      * rewrite decide_False by congruence. reflexivity.
    + rewrite decide_False by discriminate. reflexivity.
Qed.
End CreationFacts.

Lemma creation_commands_witness :
  rbdCreateVolume sample_ceph (sample_volume "c1" false) "10GiB"
    (scripted [] [])
  = Done (Some (OtherError "invalid size")) (scripted [] [])
  /\ rbdCreateVolume sample_ceph (sample_volume "c1" false) "1024"
       (scripted [ok ""] [])
     = Done None
         (mkWorld (mkScript [] [] ([], None) [])
            [EvRun "rbd"
               (rbd_pool_args sample_ceph
                ++ ["--image-feature"; "layering"; "--size"; "1024B";
                    "create"; "container_c1"])]).
Proof.
  pose proof (creation_commands (B := Script) sample_ceph
                (sample_volume "c1" false)) as H.
  split.
  - exact (proj1 (H "10GiB") (-1) (OtherError "invalid size") (scripted [] [])
             eq_refl).
  - rewrite (proj1 (proj2 (H "1024")) 1024 eq_refl). reflexivity.
Defined.

Lemma protect_unprotect_tolerance_witness :
  rbdProtectVolumeSnapshot sample_ceph (sample_volume "c1" false) "snap0"
    (scripted [exits 22] [])
  = Done (Some (RunError (Some 22) ""))
      (mkWorld (mkScript [] [] ([], None) [])
         [EvRun "rbd"
            (rbd_pool_args sample_ceph
             ++ ["snap"; "protect"; "--snap"; "snap0"; "container_c1"])])
  /\ rbdUnprotectVolumeSnapshot sample_ceph (sample_volume "c1" false) "snap0"
       (scripted [exits 22] [])
     = Done None
         (mkWorld (mkScript [] [] ([], None) [])
            [EvRun "rbd"
               (rbd_pool_args sample_ceph
                ++ ["snap"; "unprotect"; "--snap"; "snap0"; "container_c1"])]).
Proof.
  split.
  - exact (proj1 (protect_unprotect_tolerance sample_ceph
                    (sample_volume "c1" false) "snap0"
                    (scripted [exits 22] []) "" (RunError (Some 22) "") _)
             eq_refl).
  - exact (proj2 (protect_unprotect_tolerance sample_ceph
                    (sample_volume "c1" false) "snap0"
                    (scripted [exits 22] []) "" (RunError (Some 22) "") _)
             eq_refl).
Defined.

(** ** The shape of the results *)

Lemma index_of_sound (s p : string) (i : nat) :
  index_of s p = Some i -> strings_HasPrefix (str_drop i s) p = true.
Proof.
  revert i. induction s as [|c s IH]; intros i; cbn [index_of].
  - destruct (strings_HasPrefix "" p) eqn:H; [|discriminate].
    intros [= <-]. exact H.
  - destruct (strings_HasPrefix (String c s) p) eqn:H.
    + intros [= <-]. exact H.
    + destruct (index_of s p) as [j|]; [|discriminate].
      intros [= <-]. cbn [str_drop]. apply IH. reflexivity.
Qed.

Lemma trim_left_drop (n : nat) :
  forall s, exists k, trim_left n s = str_drop k s.
Proof.
  induction n as [|n IH]; intros s; [exists O; reflexivity|].
  cbn [trim_left]. destruct (leading_space s) as [|k]; [exists O; reflexivity|].
  destruct (IH (str_drop (S k) s)) as [j ->].
  exists (S k + j)%nat. symmetry. apply str_drop_add.
Qed.

Lemma str_take_take (n m : nat) (s : string) :
  str_take n (str_take m s) = str_take (Nat.min n m) s.
Proof.
  revert m s. induction n as [|n IH]; intros m s; [reflexivity|].
  destruct m as [|m]; [reflexivity|].
  destruct s as [|c s]; [reflexivity|].
  cbn [str_take Nat.min]. f_equal. apply IH.
Qed.

Lemma str_take_all (s : string) : str_take (String.length s) s = s.
Proof.
  induction s as [|c s IH]; [reflexivity|].
  cbn [String.length str_take]. f_equal. exact IH.
Qed.

Lemma trim_right_take (n : nat) :
  forall s, exists k, trim_right n s = str_take k s.
Proof.
  induction n as [|n IH]; intros s.
  - exists (String.length s). symmetry. apply str_take_all.
  - cbn [trim_right]. destruct (trailing_space s) as [|k].
    + exists (String.length s). symmetry. apply str_take_all.
    + destruct (IH (str_take (String.length s - S k) s)) as [j ->].
      eexists. apply str_take_take.
Qed.

Lemma free_of_drop (c : ascii) (n : nat) :
  forall s, free_of c s = true -> free_of c (str_drop n s) = true.
Proof.
  induction n as [|n IH]; intros s H; [exact H|].
  destruct s as [|x s]; [reflexivity|].
  rewrite free_of_cons in H. apply andb_true_iff in H.
  cbn [str_drop]. apply IH. exact (proj2 H).
Qed.

Lemma free_of_take (c : ascii) (n : nat) :
  forall s, free_of c s = true -> free_of c (str_take n s) = true.
Proof.
  induction n as [|n IH]; intros s H; [reflexivity|].
  destruct s as [|x s]; [reflexivity|].
  rewrite free_of_cons in H. apply andb_true_iff in H.
  cbn [str_take]. rewrite free_of_cons, (proj1 H). apply IH. exact (proj2 H).
Qed.

(** Trimming keeps a string free of a byte it was free of. *)
Lemma strings_TrimSpace_free (c : ascii) (s : string) :
  free_of c s = true -> free_of c (strings_TrimSpace s) = true.
Proof.
  intros H. unfold strings_TrimSpace.
  destruct (trim_left_drop (String.length s) s) as [k ->].
  destruct (trim_right_take (String.length s) (str_drop k s)) as [j ->].
  apply free_of_take, free_of_drop. exact H.
Qed.

(** The text before the first occurrence of a byte is free of it. *)
Lemma free_of_before (c : ascii) (s : string) (i : nat) :
  index_of s (String c "") = Some i -> free_of c (str_take i s) = true.
Proof.
  revert i. induction s as [|x s IH]; intros i; cbn [index_of strings_HasPrefix].
  - discriminate.
  - destruct (Ascii.eqb c x) eqn:Hcx.
    + intros [= <-]. reflexivity.
    + destruct (index_of s (String c "")) as [j|]; [|discriminate].
      intros [= <-]. cbn [str_take].
      rewrite free_of_cons, Ascii.eqb_sym, Hcx. apply IH. reflexivity.
Qed.

(** Where two splittings of one string differ: the first part holds
    the prefix, or the second part starts inside the prefix. *)
Lemma prefix_or_overlap (p : string) :
  forall r a e : string,
    p +:+ r = a +:+ e ->
    strings_HasPrefix a p = true
    \/ exists n, (n < String.length p)%nat
                 /\ String.get n p = String.get 0 e.
Proof.
  induction p as [|x p IH]; intros r a e Heq; [left; reflexivity|].
  destruct a as [|y a].
  - right. exists O. split; [cbn; lia|].
    change ("" +:+ e) with e in Heq. rewrite <- Heq. reflexivity.
  - change (String x (p +:+ r) = String y (a +:+ e)) in Heq.
    injection Heq as -> Heq.
    destruct (IH r a e Heq) as [H|(n & Hn & Hget)].
    + left. cbn [strings_HasPrefix]. rewrite Ascii.eqb_refl. exact H.
    + right. exists (S n). split; [cbn; lia | exact Hget].
Qed.

Lemma trailing_space_suffix (s : string) (k : nat) :
  trailing_space s = S k ->
  exists e, In e space_encodings
            /\ strings_HasSuffix s e = true /\ String.length e = S k.
Proof.
  unfold trailing_space.
  destruct (List.filter (fun e => strings_HasSuffix s e) space_encodings)
    as [|e l] eqn:Hf; [discriminate|].
  intros Hlen. exists e.
  assert (Hin : In e (List.filter (fun e => strings_HasSuffix s e)
                        space_encodings)) by (rewrite Hf; left; reflexivity).
  apply filter_In in Hin. destruct Hin as [Hin Hsuf].
  split; [exact Hin|]. split; [exact Hsuf | exact Hlen].
Qed.

(** No white-space rune starts with a byte of the device prefix. *)
Lemma device_prefix_no_space (e : string) (n : nat) :
  In e space_encodings -> (n < String.length "/dev/rbd")%nat ->
  String.get n "/dev/rbd" <> String.get 0 e.
Proof.
  intros Hin Hn.
  do 8 (destruct n as [|n];
        [unfold space_encodings in Hin; cbn [map In] in Hin;
         repeat (destruct Hin as [<-|Hin]; [vm_compute; discriminate|]);
         destruct Hin|]).
  cbn in Hn. lia.
Qed.

Lemma trim_right_device (n : nat) :
  forall s,
    strings_HasPrefix s "/dev/rbd" = true ->
    strings_HasPrefix (trim_right n s) "/dev/rbd" = true.
Proof.
  induction n as [|n IH]; intros s H; [exact H|].
  cbn [trim_right]. destruct (trailing_space s) as [|k] eqn:Hk; [exact H|].
  apply IH.
  destruct (trailing_space_suffix _ _ Hk) as (e & Hin & Hsuf & Hlen).
  pose proof (strings_HasSuffix_split _ _ Hsuf) as Heq.
  unfold strings_TrimSuffix in Heq. rewrite Hsuf, Hlen in Heq.
  rewrite (strings_HasPrefix_split _ _ H) in Heq at 1.
  destruct (prefix_or_overlap _ _ _ _ Heq) as [Hp|(m & Hm & Hget)];
    [exact Hp|].
  exfalso. exact (device_prefix_no_space e m Hin Hm Hget).
Qed.

Lemma strings_TrimSpace_device (s : string) :
  strings_HasPrefix s "/dev/rbd" = true ->
  strings_HasPrefix (strings_TrimSpace s) "/dev/rbd" = true.
Proof.
  intros H. unfold strings_TrimSpace.
  assert (Hleft : trim_left (String.length s) s = s).
  { destruct (String.length s) as [|n]; [reflexivity|]. cbn [trim_left].
    rewrite (strings_HasPrefix_split _ _ H). reflexivity. }
  rewrite Hleft. apply trim_right_device. exact H.
Qed.

Section ResultShapes.
Context {B : Type} {backend_ops : Backend B} {externals : Externals}.
Variable d : ceph.

Lemma rbdMapVolume_device (vol : Volume) (w w' : World B) (devPath : string) :
  rbdMapVolume d vol w = Done (devPath, None) w' ->
  strings_HasPrefix devPath "/dev/rbd" = true
  /\ log w'
     = log w ++ [EvRun "rbd"
                   (rbd_pool_args d
                    ++ ["map"; getRBDVolumeName d vol "" false])].
Proof.
  unfold rbdMapVolume, bind, RunCommand.
  destruct (run_command _ _ (backend w)) as [[out [e|]] b'];
    [discriminate|].
  cbv beta iota zeta. unfold strings_Index.
  destruct (index_of out "/dev/rbd") as [i|] eqn:Hidx; [|discriminate].
  replace (Z.of_nat i <? 0) with false by (symmetry; apply Z.ltb_ge; lia).
  rewrite Nat2Z.id. intros [= <- <-]. split; [|reflexivity].
  apply strings_TrimSpace_device. exact (index_of_sound _ _ _ Hidx).
Qed.

Lemma for_range_inspect_return (vol : Volume) (w w' : World B)
    (files : list DirEntry) (r : bool * string * option error) :
  for_range files (fun f _ => inspect_device d vol f) tt w
  = Done (Return r) w' ->
  w' = w
  /\ exists f, In f files /\ inspect_device d vol f w = Done (Return r) w.
Proof.
  induction files as [|f files IH]; [discriminate|].
  cbn [for_range]. unfold bind.
  destruct (inspect_device_cases d vol f w)
    as [H|[(idx & _ & _ & H)|(e & H)]]; rewrite H.
  - intros Hrest. destruct (IH Hrest) as (-> & g & Hin & Hg).
    split; [reflexivity|]. exists g. split; [right; exact Hin | exact Hg].
  - intros [= <- <-]. split; [reflexivity|]. exists f.
    split; [left; reflexivity | exact H].
  - intros [= <- <-]. split; [reflexivity|]. exists f.
    split; [left; reflexivity | exact H].
Qed.

(** X24.  Every device path that [getRBDMappedDevPath] returns without
    error starts with [/dev/rbd].  A path reported as newly mapped
    comes from a single [rbd map] command, issued because mapping was
    asked for; a path reported as already mapped was found in sysfs
    without any command. *)
Theorem getRBDMappedDevPath_path (vol : Volume) (mapIfMissing : bool)
    (w w' : World B) (newlyMapped : bool) (path : string) :
  getRBDMappedDevPath d vol mapIfMissing w
  = Done (newlyMapped, path, None) w' ->
  strings_HasPrefix path "/dev/rbd" = true
  /\ (if newlyMapped
      then mapIfMissing = true
           /\ log w'
              = log w ++ [EvRun "rbd"
                            (rbd_pool_args d
                             ++ ["map"; getRBDVolumeName d vol "" false])]
      else w' = w).
Proof.
  unfold getRBDMappedDevPath. unfold bind at 1, ReadDir at 1.
  destruct (os_ReadDir "/sys/devices/rbd" (backend w)) as [files err].
  destruct (other_than_not_exist err) eqn:Hother.
  { destruct err; [discriminate | discriminate Hother]. }
  unfold bind at 1.
  destruct (for_range_inspect d vol w files) as [[r|[]] Hloop]; rewrite Hloop.
  - intros [= -> <-].
    destruct (for_range_inspect_return _ _ _ _ _ Hloop) as (_ & f & _ & Hf).
    destruct (inspect_device_sound d _ _ _ _ _ _ Hf)
      as (idx & _ & _ & -> & -> & _).
    split; [apply strings_HasPrefix_self | reflexivity].
  - destruct mapIfMissing; [|discriminate].
    unfold bind. destruct (rbdMapVolume d vol w) as [[devPath [e|]] w1| |] eqn:Hmap;
      try discriminate.
    intros [= <- <- <-].
    destruct (rbdMapVolume_device _ _ _ _ Hmap) as [Hpath Hlog].
    split; [exact Hpath|]. split; [reflexivity | exact Hlog].
Qed.

(** X25.  A mapping that succeeds returns a path that starts with
    [/dev/rbd], whatever the tool printed around it; output without
    that prefix is an error although the tool reported success. *)
Theorem rbdMapVolume_path (vol : Volume) (w : World B) :
  (forall devPath w',
      rbdMapVolume d vol w = Done (devPath, None) w' ->
      strings_HasPrefix devPath "/dev/rbd" = true)
  /\ (forall out b',
         run_command "rbd"
           (rbd_pool_args d ++ ["map"; getRBDVolumeName d vol "" false])
           (backend w) = ((out, None), b') ->
         strings_Contains out "/dev/rbd" = false ->
         exists w',
           rbdMapVolume d vol w
           = Done ("", Some (Errorf "Failed to detect mapped device path" []))
               w').
Proof.
  split.
  - intros devPath w'. unfold rbdMapVolume, bind, RunCommand.
    destruct (run_command _ _ (backend w)) as [[out [e|]] b'];
      [discriminate|].
    cbv beta iota zeta. unfold strings_Index.
    destruct (index_of out "/dev/rbd") as [i|] eqn:Hidx.
    + replace (Z.of_nat i <? 0) with false by (symmetry; apply Z.ltb_ge; lia).
      rewrite Nat2Z.id. intros [= <- _].
      apply strings_TrimSpace_device. exact (index_of_sound _ _ _ Hidx).
    + discriminate.
  - intros out b' Hrun Hnone. eexists. unfold rbdMapVolume.
    erewrite bind_Done by (apply RunCommand_eq; exact Hrun).
    cbv beta iota zeta. apply strings_Contains_index in Hnone.
    unfold strings_Index. rewrite Hnone. reflexivity.
Qed.

(** X26.  The parent that [rbdGetVolumeParent] returns is a single
    line: it holds no line feed. *)
Theorem rbdGetVolumeParent_one_line (vol : Volume) (w w' : World B)
    (parent : string) :
  rbdGetVolumeParent d vol w = Done (parent, None) w' ->
  free_of (ascii_of_nat 10) parent = true.
Proof.
  unfold rbdGetVolumeParent, bind, RunCommand.
  destruct (run_command _ _ (backend w)) as [[msg [e|]] b']; [discriminate|].
  cbv beta iota zeta.
  destruct (strings_Index msg "parent: " =? -1); [discriminate|].
  set (t := strings_TrimSpace
              (str_drop (Z.to_nat (strings_Index msg "parent: ")
                         + String.length "parent: ") msg)).
  unfold strings_Index.
  destruct (index_of t newline) as [i|] eqn:Hidx; [|discriminate].
  replace (Z.of_nat i =? -1) with false by (symmetry; apply Z.eqb_neq; lia).
  rewrite Nat2Z.id. intros [= <- _].
  apply strings_TrimSpace_free. exact (free_of_before _ _ _ Hidx).
Qed.
End ResultShapes.

Lemma rbdMapVolume_path_witness :
  rbdMapVolume sample_ceph (sample_volume "c1" false)
    (scripted [ok ("mapped: /dev/rbd0" +:+ newline)] [])
  = Done ("/dev/rbd0", None)
      (mkWorld (mkScript [] [] ([], None) [])
         [EvRun "rbd" (rbd_pool_args sample_ceph ++ ["map"; "container_c1"])])
  /\ strings_HasPrefix "/dev/rbd0" "/dev/rbd" = true.
Proof.
  split; [reflexivity|].
  exact (proj1 (rbdMapVolume_path sample_ceph (sample_volume "c1" false)
                  (scripted [ok ("mapped: /dev/rbd0" +:+ newline)] []))
           "/dev/rbd0" _ eq_refl).
Defined.

Lemma rbdGetVolumeParent_one_line_witness :
  free_of (ascii_of_nat 10) "pool/image_0a1b2c_ext4@readonly" = true.
Proof.
  exact (rbdGetVolumeParent_one_line sample_ceph (sample_volume "c2" false)
           (scripted
              [ok ("size 1 GiB" +:+ newline
                   +:+ "parent: pool/image_0a1b2c_ext4@readonly" +:+ newline
                   +:+ "overlap: 1 GiB" +:+ newline)] [])
           _ "pool/image_0a1b2c_ext4@readonly" eq_refl).
Defined.

Lemma getRBDMappedDevPath_path_witness :
  strings_HasPrefix "/dev/rbd0" "/dev/rbd" = true
  /\ true = true
  /\ [EvRun "rbd" (rbd_pool_args sample_ceph ++ ["map"; "container_c1"])]
     = [] ++ [EvRun "rbd" (rbd_pool_args sample_ceph ++ ["map"; "container_c1"])].
Proof.
  exact (getRBDMappedDevPath_path sample_ceph (sample_volume "c1" false)
           true (scripted [ok ("/dev/rbd0" +:+ newline)] [])
           (mkWorld (mkScript [] [] ([], None) [])
              [EvRun "rbd"
                 (rbd_pool_args sample_ceph ++ ["map"; "container_c1"])])
           true "/dev/rbd0" eq_refl).
Defined.

Section SnapshotNames.
Context {B : Type} {backend_ops : Backend B} {externals : Externals}.
Variable d : ceph.

Lemma snapshot_names_inl (data : list (gmap string json_any)) :
  forall acc l,
    snapshot_names data acc = inl l ->
    exists names, l = acc ++ names /\ Forall2 names_object data names.
Proof.
  induction data as [|v data IH]; intros acc l; cbn [snapshot_names].
  - intros [= <-]. exists []. split; [symmetry; apply app_nil_r | constructor].
  - destruct (v !! "name") as [[raw|]|] eqn:Hv; [|discriminate|discriminate].
    intros H. destruct (IH _ _ H) as (names & -> & Hall).
    exists (strings_TrimSpace raw :: names). split.
    + rewrite <- app_assoc. reflexivity.
    + constructor; [|exact Hall]. exists raw. split; [exact Hv | reflexivity].
Qed.

Lemma snapshot_names_inr (data : list (gmap string json_any)) :
  forall acc v,
    In v data ->
    (forall raw, v !! "name" <> Some (JString raw)) ->
    exists e, snapshot_names data acc = inr e /\ IsNotFoundError e = false.
Proof.
  induction data as [|v0 data IH]; intros acc v Hin Hbad; [destruct Hin|].
  cbn [snapshot_names].
  destruct (v0 !! "name") as [[raw|]|] eqn:Hv0.
  - destruct Hin as [<-|Hin]; [exfalso; exact (Hbad raw Hv0)|].
    exact (IH _ v Hin Hbad).
  - eexists. split; reflexivity.
  - eexists. split; reflexivity.
Qed.

(** X27.  The snapshot listing returns one trimmed name per decoded
    object, in order.  An object without a string [name] fails the
    listing as a whole, with an error that is not "not found". *)
Theorem rbdListVolumeSnapshots_names (vol : Volume) (w : World B) :
  (forall snaps w',
      rbdListVolumeSnapshots d vol w = Done (snaps, None) w' ->
      exists msg data,
        json_Unmarshal msg = (data, None)
        /\ Forall2 names_object data snaps)
  /\ (forall msg b' data v,
         run_command "rbd"
           (rbd_pool_args d
            ++ ["--format"; "json"; "snap"; "ls";
                getRBDVolumeName d vol "" false])
           (backend w) = ((msg, None), b') ->
         json_Unmarshal msg = (data, None) ->
         In v data ->
         (forall raw, v !! "name" <> Some (JString raw)) ->
         exists e w',
           rbdListVolumeSnapshots d vol w = Done ([], Some e) w'
           /\ IsNotFoundError e = false).
Proof.
  split.
  - intros snaps w'. unfold rbdListVolumeSnapshots, bind, RunCommand.
    destruct (run_command _ _ (backend w)) as [[msg [e|]] b']; [discriminate|].
    destruct (json_Unmarshal msg) as [data [e|]] eqn:Hjson; [discriminate|].
    destruct (snapshot_names data []) as [l|e] eqn:Hnames; [|discriminate].
    destruct (Z.of_nat (length l) =? 0); [discriminate|].
    intros [= <- _]. exists msg, data. split; [exact Hjson|].
    destruct (snapshot_names_inl _ _ _ Hnames) as (names & -> & Hall).
    exact Hall.
  - intros msg b' data v Hrun Hjson Hin Hbad.
    destruct (snapshot_names_inr data [] v Hin Hbad) as (e & Hnames & Hnf).
    exists e. eexists. split; [|exact Hnf].
    unfold rbdListVolumeSnapshots.
    erewrite bind_Done by (apply RunCommand_eq; exact Hrun).
    cbv beta iota. rewrite Hjson, Hnames. reflexivity.
Qed.
End SnapshotNames.

Lemma rbdListVolumeSnapshots_names_witness :
  exists msg data,
    sample_decoder msg = (data, None)
    /\ Forall2 names_object data ["snapshot_s0"; "snapshot_s1"].
Proof.
  exact (proj1 (rbdListVolumeSnapshots_names sample_ceph
                  (sample_volume "c1" false)
                  (scripted [ok (sample_json ["snapshot_s0"; "snapshot_s1"])]
                     []))
           ["snapshot_s0"; "snapshot_s1"] _ eq_refl).
Defined.

(** ** The AppArmor wrapper for rsync *)

Lemma list_Reverter_laws (H : Type) : ReverterLaws (list_Reverter H).
Proof. split; reflexivity. Qed.

Section SandboxFacts.
Context {H R : Type} {host : Host H} {reverter : Reverter H R}.
Hypothesis laws : ReverterLaws reverter.


(** X29.  [rsyncProfileLoad] undoes what it did when it fails: when
    the profile cannot be loaded, the profile file that was written is
    removed again before the error is returned; when the file cannot
    be written nothing is removed; on success the file is kept, and the
    name of the loaded profile is returned. *)
Theorem rsyncProfileLoad_undo (sysOS : sys_OS) (sourcePath dstPath : string)
    (h h1 h2 : H) (u content : string) :
  let name := profileName "rsync" u in
  let profilePath := filepath_Join [aaPath; "profiles"; name] in
  host_uuid_New h = (u, h1) ->
  rsyncProfile sysOS name sourcePath dstPath h1 = (content, None) ->
  (forall e,
      os_WriteFile profilePath content h1 = (Some e, h2) ->
      rsyncProfileLoad sysOS sourcePath dstPath h = ("", Some e, h2))
  /\ (os_WriteFile profilePath content h1 = (None, h2) ->
      forall lerr h3,
        loadProfile sysOS name h2 = (lerr, h3) ->
        rsyncProfileLoad sysOS sourcePath dstPath h
        = match lerr with
          | Some e => ("", Some e, snd (os_Remove profilePath h3))
          | None => (name, None, h3)
          end).
Proof.
  intros name profilePath Huuid Hprofile. split.
  - intros e Hwrite. unfold rsyncProfileLoad.
    rewrite Huuid. fold name. rewrite Hprofile. fold profilePath.
    rewrite Hwrite. rewrite (fail_new _ laws). reflexivity.
  - intros Hwrite lerr h3 Hload. unfold rsyncProfileLoad.
    rewrite Huuid. fold name. rewrite Hprofile. fold profilePath.
    rewrite Hwrite, Hload. destruct lerr as [e|].
    + rewrite (fail_add _ laws), (fail_new _ laws). reflexivity.
    + rewrite (fail_success _ laws). reflexivity.
Qed.

(** X30.  [RsyncWrapper] leaves no profile behind when it fails.
    Without AppArmor the command and the host are untouched and the
    cleanup does nothing.  With AppArmor the profile is loaded for the
    dereferenced paths; a failure to load it is returned wrapped.
    When [aa-exec] cannot be found, the profile that was just loaded
    is deleted again and the command is untouched.  On success the
    command becomes [aa-exec -p <profile> <old arguments>] at the
    resolved path, the profile stays loaded, and the cleanup function
    is what deletes it. *)
Theorem RsyncWrapper_undo (sysOS : sys_OS) (cmd : Cmd)
    (sourcePath dstPath : string) (h : H) :
  (AppArmorAvailable sysOS = false ->
   exists cleanup,
     RsyncWrapper sysOS cmd sourcePath dstPath h
     = (Some cleanup, None, cmd, h)
     /\ forall h', cleanup h' = h')
  /\ (AppArmorAvailable sysOS = true ->
      forall profile lerr h1,
          rsyncProfileLoad sysOS (dereferenced sourcePath h)
            (dereferenced dstPath h) h = (profile, lerr, h1) ->
          (forall e,
              lerr = Some e ->
              RsyncWrapper sysOS cmd sourcePath dstPath h
              = (None,
                 Some (Errorf "Failed to load rsync profile: %w"
                         [ArgErrors [e]]), cmd, h1))
          /\ (lerr = None ->
              forall execPath e,
                exec_LookPath "aa-exec" h1 = (execPath, Some e) ->
                RsyncWrapper sysOS cmd sourcePath dstPath h
                = (None, Some e, cmd,
                   snd (deleteProfile sysOS profile profile h1)))
          /\ (lerr = None ->
              forall execPath,
                exec_LookPath "aa-exec" h1 = (execPath, None) ->
                exists cleanup,
                  RsyncWrapper sysOS cmd sourcePath dstPath h
                  = (Some cleanup, None,
                     {| cmd_Path := execPath;
                        cmd_Args := ["aa-exec"; "-p"; profile]
                                    ++ cmd_Args cmd |}, h1)
                  /\ forall h',
                       cleanup h'
                       = snd (deleteProfile sysOS profile profile h'))).
Proof.
  split.
  - intros Hno. unfold RsyncWrapper. rewrite Hno. cbn [negb].
    eexists. split; [reflexivity|]. reflexivity.
  - intros Hyes profile lerr h1 Hload.
    unfold RsyncWrapper. rewrite Hyes. cbn [negb].
    fold (dereferenced sourcePath h). fold (dereferenced dstPath h).
    rewrite Hload.
    split; [|split].
    + intros e ->. rewrite (fail_new _ laws). reflexivity.
    + intros -> execPath e Hlook. rewrite Hlook.
      rewrite (fail_add _ laws), (fail_new _ laws). reflexivity.
    + intros -> execPath Hlook. rewrite Hlook. eexists.
      rewrite (fail_success _ laws). split; reflexivity.
Qed.
End SandboxFacts.


Lemma rsyncProfileLoad_undo_witness :
  rsyncProfileLoad (reverter := list_Reverter Machine)
    (mkSysOS true "/usr/bin/incusd") "/src" "/dst"
    (mkMachine [] [] "" true true)
  = ("", Some (OtherError "apparmor_parser failed"),
     mkMachine [] [] "" true true).
Proof.
  exact (proj2 (rsyncProfileLoad_undo (list_Reverter_laws Machine)
                  (mkSysOS true "/usr/bin/incusd") "/src" "/dst"
                  (mkMachine [] [] "" true true) _ _ "u1" "profile"
                  eq_refl eq_refl)
           eq_refl (Some (OtherError "apparmor_parser failed")) _ eq_refl).
Defined.

Lemma RsyncWrapper_undo_witness :
  RsyncWrapper (reverter := list_Reverter Machine)
    (mkSysOS true "/usr/bin/incusd") (mkCmd "/usr/bin/rsync" ["rsync"; "-a"])
    "/src" "/dst" (mkMachine [] [] "" false false)
  = (None, Some (OtherError "executable file not found in $PATH"),
     mkCmd "/usr/bin/rsync" ["rsync"; "-a"],
     mkMachine ["/var/lib/incus/security/apparmor/profiles/incus_rsync-u1"]
       [] "" false false).
Proof.
  exact (proj1 (proj2 (proj2 (RsyncWrapper_undo (list_Reverter_laws Machine)
                                (mkSysOS true "/usr/bin/incusd")
                                (mkCmd "/usr/bin/rsync" ["rsync"; "-a"])
                                "/src" "/dst"
                                (mkMachine [] [] "" false false))
                         eq_refl "incus_rsync-u1" None _ eq_refl))
           eq_refl "" _ eq_refl).
Defined.
